(** * The info plugin of Material for MkDocs: a shallow embedding

    The repository ships the plugin twice: [src/plugins/info/plugin.py]
    (the project-aware variant, with the exclusion engine and the
    directory walk) and [material/plugins/info/plugin.py] (the
    distributed variant, which asks MkDocs for the files to bundle).
    Both are embedded below, next to the pieces of the Python standard
    library they call: [str] methods, [posixpath], [fnmatch],
    [zipfile], list iteration under mutation.

    - Strings are [string]; Python values built by the YAML parser are
      [pyval]; a dict is the list of its items, in order.
    - A call either returns or raises: [result].  The loader follows
      the [INHERIT] chain without a bound, so it takes fuel and answers
      [None] when the fuel runs out.
    - The file system is a tree of directories ([node]); paths are
      resolved against it component by component.  What the plugin
      cannot see from its own code (the YAML parser, the working
      directory, the path separator) is gathered in [world]; what it
      is handed by MkDocs and by the interpreter is in [mkdocs_config]
      and [interpreter].
    - [on_config] logs, prints help pages, saves the archive and ends
      the process: a [run] is the list of these events with the way
      the call went on or ended.
    - The archive is the list of its entries, in the order in which
      they are written. *)

From Stdlib Require Import Strings.String Strings.Ascii.
From Stdlib Require Import Lists.List Bool.Bool Arith.Arith ZArith.ZArith micromega.Lia.
From Stdlib Require Import Sorting.Permutation Sorting.Sorted.
Import ListNotations.

Set Warnings "-register-all".
Local Open Scope string_scope.
Local Open Scope list_scope.

(** String concatenation is written [+++]; [++] stays with lists. *)
Infix "+++" := String.append (right associativity, at level 60).

(* ================================================================= *)
(** ** Python [str] methods *)

Module PyStr.

(** [s.startswith(p)] *)
Fixpoint startswith (s p : string) {struct p} : bool :=
  match p with
  | EmptyString => true
  | String a p' =>
      match s with
      | EmptyString => false
      | String b s' => Ascii.eqb a b && startswith s' p'
      end
  end.

(** [s[n:]] *)
Fixpoint drop (n : nat) (s : string) : string :=
  match n with
  | O => s
  | S n' => match s with EmptyString => EmptyString | String _ s' => drop n' s' end
  end.

(** [s.endswith(c)] for a one-character [c] *)
Fixpoint endswith_char (s : string) (c : ascii) : bool :=
  match s with
  | EmptyString => false
  | String a EmptyString => Ascii.eqb a c
  | String _ s' => endswith_char s' c
  end.

(** [p in s] on strings: substring test *)
Fixpoint contains (s p : string) : bool :=
  startswith s p ||
  match s with
  | EmptyString => false
  | String _ s' => contains s' p
  end.

(** [s.replace(old, new, count)], scanning left to right.  [skip]
    counts the characters of a match that was just replaced and are
    still to be passed over; [count] is the number of replacements
    left.  An empty [old] matches before every character and at the
    end, as in CPython. *)
Fixpoint replace_from (old new : string) (skip count : nat) (s : string)
  : string :=
  match s with
  | EmptyString =>
      match skip, count, old with
      | O, S _, EmptyString => new
      | _, _, _ => EmptyString
      end
  | String c s' =>
      match skip with
      | S k => replace_from old new k count s'
      | O =>
          match count with
          | O => s
          | S count' =>
              match old with
              | EmptyString =>
                  new +++ String c (replace_from old new 0 count' s')
              | String _ old' =>
                  if startswith s old
                  then new +++ replace_from old new (String.length old') count' s'
                  else String c (replace_from old new 0 count s')
              end
          end
      end
  end.

(** [count = None] is Python's default [-1]: replace every occurrence. *)
Definition replace (s old new : string) (count : option nat) : string :=
  match count with
  | Some n => replace_from old new 0 n s
  | None => replace_from old new 0 (S (String.length s)) s
  end.

(** [s.split(c)] for a one-character separator: never returns [[]]. *)
Fixpoint split (c : ascii) (s : string) : list string :=
  match s with
  | EmptyString => [EmptyString]
  | String a s' =>
      if Ascii.eqb a c then EmptyString :: split c s'
      else match split c s' with
           | [] => [String a EmptyString]
           | w :: ws => String a w :: ws
           end
  end.

(** [sep.join(l)] *)
Definition join (sep : string) (l : list string) : string :=
  String.concat sep l.

(** [s.lstrip(c)] and [s.rstrip(c)] for a one-character set *)
Fixpoint lstrip (c : ascii) (s : string) : string :=
  match s with
  | String a s' => if Ascii.eqb a c then lstrip c s' else s
  | EmptyString => EmptyString
  end.

Fixpoint rstrip (c : ascii) (s : string) : string :=
  match s with
  | EmptyString => EmptyString
  | String a s' =>
      match rstrip c s' with
      | EmptyString => if Ascii.eqb a c then EmptyString else String a EmptyString
      | r => String a r
      end
  end.

(** [s == c * len(s)] *)
Fixpoint all_char (c : ascii) (s : string) : bool :=
  match s with
  | EmptyString => true
  | String a s' => Ascii.eqb a c && all_char c s'
  end.

(** [s[: s.rfind(c) + 1]]: everything up to and including the last [c] *)
Fixpoint upto_last (c : ascii) (s : string) : string :=
  match s with
  | EmptyString => EmptyString
  | String a s' =>
      match upto_last c s' with
      | EmptyString => if Ascii.eqb a c then String a EmptyString else EmptyString
      | h => String a h
      end
  end.

(** truth value of a string *)
Definition nonempty (s : string) : bool :=
  match s with EmptyString => false | _ => true end.

(** [s.rsplit(c, 1)[1]]: the text behind the last [c]; [None] when
    there is no [c], and [rsplit] returns the one-element list [[s]]. *)
Fixpoint after_last (c : ascii) (s : string) : option string :=
  match s with
  | EmptyString => None
  | String a s' =>
      match after_last c s' with
      | Some r => Some r
      | None => if Ascii.eqb a c then Some s' else None
      end
  end.

End PyStr.

(* ================================================================= *)
(** ** [posixpath] *)

Module PosixPath.

Definition sep : ascii := "/"%char.

(** [posixpath.isabs] *)
Definition isabs (p : string) : bool := PyStr.startswith p "/".

(** One step of the loop of [posixpath.join]. *)
Definition join_step (path b : string) : string :=
  if PyStr.startswith b "/" then b
  else if negb (PyStr.nonempty path) || PyStr.endswith_char path sep
       then path +++ b
       else path +++ "/" +++ b.

(** [posixpath.join(a, *p)] *)
Definition joinl (a : string) (p : list string) : string :=
  fold_left join_step p a.

Definition join (a b : string) : string := joinl a [b].

(** [posixpath.dirname] *)
Definition dirname (p : string) : string :=
  let head := PyStr.upto_last sep p in
  if PyStr.nonempty head && negb (PyStr.all_char sep head)
  then PyStr.rstrip sep head
  else head.

(** The loop of [posixpath.normpath] over the components; [new_comps]
    is kept reversed (its head is Python's [new_comps[-1]]). *)
Fixpoint norm_comps (initial_slashes : nat) (comps new_comps : list string)
  : list string :=
  match comps with
  | [] => rev new_comps
  | comp :: comps' =>
      if String.eqb comp "" || String.eqb comp "."
      then norm_comps initial_slashes comps' new_comps
      else if negb (String.eqb comp "..")
              || (Nat.eqb initial_slashes 0
                  && match new_comps with [] => true | _ => false end)
              || match new_comps with
                 | last :: _ => String.eqb last ".."
                 | [] => false
                 end
      then norm_comps initial_slashes comps' (comp :: new_comps)
      else norm_comps initial_slashes comps' (List.tl new_comps)
  end.

(** [posixpath.normpath] *)
Definition normpath (path : string) : string :=
  if negb (PyStr.nonempty path) then "."
  else
    let initial_slashes :=
      if PyStr.startswith path "/"
      then if PyStr.startswith path "//" && negb (PyStr.startswith path "///")
           then 2 else 1
      else 0 in
    let comps := norm_comps initial_slashes (PyStr.split sep path) [] in
    let path' := PyStr.join "/" comps in
    let path' :=
      match initial_slashes with
      | 0 => path'
      | 1 => "/" +++ path'
      | _ => "//" +++ path'
      end in
    if PyStr.nonempty path' then path' else ".".

(** [posixpath.abspath], with the process working directory passed in *)
Definition abspath (getcwd path : string) : string :=
  normpath (if isabs path then path else join getcwd path).

(** [len(commonprefix([l1, l2]))] on component lists *)
Fixpoint common_len (l1 l2 : list string) : nat :=
  match l1, l2 with
  | a :: l1', b :: l2' => if String.eqb a b then S (common_len l1' l2') else 0
  | _, _ => 0
  end.

(** [posixpath.relpath(path, start)]; [None] is the [ValueError] raised
    for an empty [path]. *)
Definition relpath (getcwd path start : string) : option string :=
  if negb (PyStr.nonempty path) then None
  else
    let comps p :=
      filter PyStr.nonempty (PyStr.split sep (abspath getcwd p)) in
    let start_list := comps start in
    let path_list := comps path in
    let i := common_len start_list path_list in
    let rel_list :=
      repeat ".." (List.length start_list - i) ++ skipn i path_list in
    match rel_list with
    | [] => Some "."
    | c :: cs => Some (joinl c cs)
    end.

End PosixPath.

(* ================================================================= *)
(** ** [fnmatch.fnmatchcase]

    [fnmatch.translate] turns a shell pattern into a regular expression
    that [re.match] then runs against the whole name.  The embedding
    keeps the same parse, as CPython 3.11 makes it, and matches
    directly on its result. *)

Module Fnmatch.

Inductive item : Type :=
| One (c : ascii)
| Range (lo hi : ascii).

Inductive tok : Type :=
| TStar
| TAny
| TLit (c : ascii)
| TSet (negated : bool) (items : list item).

(** The members of a bracket expression.  A hyphen makes a range only
    between two characters. *)
Fixpoint set_items (stuff : string) : list item :=
  match stuff with
  | EmptyString => []
  | String lo (String "-" (String hi rest)) => Range lo hi :: set_items rest
  | String c rest => One c :: set_items rest
  end.

(** Index of the first occurrence of [c] *)
Fixpoint find_char (c : ascii) (s : string) : option nat :=
  match s with
  | EmptyString => None
  | String a s' =>
      if Ascii.eqb a c then Some 0
      else match find_char c s' with Some k => Some (S k) | None => None end
  end.

(** The scan for the closing bracket: [rest] is the pattern after the
    opening bracket; the result is the length of [stuff]. *)
Definition bracket_close (rest : string) : option nat :=
  let '(j0, r0) :=
    match rest with
    | String "!" r => (1, r)
    | _ => (0, rest)
    end in
  let '(j1, r1) :=
    match r0 with
    | String "]" r => (S j0, r)
    | _ => (j0, r0)
    end in
  match find_char "]" r1 with
  | Some k => Some (j1 + k)
  | None => None
  end.

Fixpoint take (n : nat) (s : string) : string :=
  match n, s with
  | S n', String a s' => String a (take n' s')
  | _, _ => EmptyString
  end.

(** [if chunks[k-1][-1] > chunks[k][0]]: the bounds of the range are
    out of order. *)
Definition in_order (i : item) : bool :=
  match i with
  | One _ => true
  | Range lo hi => Nat.leb (nat_of_ascii lo) (nat_of_ascii hi)
  end.

(** [if stuff[0] == '!'], asked of what is left of a [stuff] that did
    not start with an exclamation mark: one that comes to stand first
    negates the set all the same, and a range that started on it
    leaves its hyphen at the start of the set, where it stands for
    itself. *)
Definition set_of_kept (items : list item) : tok :=
  match items with
  | One "!" :: items' => TSet true items'
  | Range "!" hi :: items' => TSet true (One "-" :: One hi :: items')
  | _ => TSet false items
  end.

(** The set made of [stuff], the text between the brackets.
    [translate] cuts [stuff] into chunks at the hyphens that make
    ranges and deletes the ranges whose bounds are out of order, both
    bounds with them.  It then looks for the exclamation mark at the
    start of what is left: that is the one [stuff] starts with, or,
    when [stuff] starts with deleted ranges, the character behind
    them. *)
Definition set_of_stuff (stuff : string) : tok :=
  match stuff with
  | String "!" body => TSet true (filter in_order (set_items body))
  | _ => set_of_kept (filter in_order (set_items stuff))
  end.

(** [translate]: [skip] counts the characters of a bracket expression
    that was just consumed.  Runs of stars are compressed into one. *)
Fixpoint translate_from (skip : nat) (pat : string) : list tok :=
  match pat with
  | EmptyString => []
  | String c rest =>
      match skip with
      | S k => translate_from k rest
      | O =>
          if Ascii.eqb c "*" then
            match translate_from 0 rest with
            | TStar :: res => TStar :: res
            | res => TStar :: res
            end
          else if Ascii.eqb c "?" then TAny :: translate_from 0 rest
          else if Ascii.eqb c "[" then
            match bracket_close rest with
            | None => TLit c :: translate_from 0 rest
            | Some j =>
                set_of_stuff (take j rest) :: translate_from (S j) rest
            end
          else TLit c :: translate_from 0 rest
      end
  end.

Definition translate (pat : string) : list tok := translate_from 0 pat.

Definition item_matches (c : ascii) (i : item) : bool :=
  match i with
  | One a => Ascii.eqb a c
  | Range lo hi =>
      Nat.leb (nat_of_ascii lo) (nat_of_ascii c)
      && Nat.leb (nat_of_ascii c) (nat_of_ascii hi)
  end.

(** Does the token list match exactly the whole name? *)
Fixpoint matches (res : list tok) (name : string) {struct res} : bool :=
  match res with
  | [] => negb (PyStr.nonempty name)
  | TStar :: res' =>
      (fix star (n : string) : bool :=
         matches res' n
         || match n with
            | EmptyString => false
            | String _ n' => star n'
            end) name
  | TAny :: res' =>
      match name with
      | EmptyString => false
      | String _ n' => matches res' n'
      end
  | TLit c :: res' =>
      match name with
      | EmptyString => false
      | String a n' => Ascii.eqb a c && matches res' n'
      end
  | TSet neg items :: res' =>
      match name with
      | EmptyString => false
      | String a n' =>
          xorb neg (existsb (item_matches a) items) && matches res' n'
      end
  end.

(** [fnmatch.fnmatchcase(name, pat)] *)
Definition fnmatchcase (name pat : string) : bool :=
  matches (translate pat) name.

End Fnmatch.

(* ================================================================= *)
(** ** Exceptions and results *)

Inductive exn : Type :=
| FileNotFoundError
| IsADirectoryError
| OSError
| TypeError
| AttributeError
| ValueError.

(** What a call does when it comes back: a value or a raised
    exception. *)
Inductive result (A : Type) : Type :=
| Ok (a : A)
| Raised (e : exn).

Arguments Ok {A} a.
Arguments Raised {A} e.

Definition bind {A B : Type} (r : result A) (k : A -> result B) : result B :=
  match r with
  | Ok a => k a
  | Raised e => Raised e
  end.

Notation "x <- r ;; k" := (bind r (fun x => k))
  (at level 61, r at next level, right associativity).

(* ================================================================= *)
(** ** Python values, as [yaml.load] builds them *)

Inductive pyval : Type :=
| PNone
| PBool (b : bool)
| PInt (z : Z)
| PStr (s : string)
| PList (l : list pyval)
| PDict (items : list (pyval * pyval)).

Module Py.

(** [bool(v)] *)
Definition truthy (v : pyval) : bool :=
  match v with
  | PNone => false
  | PBool b => b
  | PInt z => negb (Z.eqb z 0)
  | PStr s => PyStr.nonempty s
  | PList l => match l with [] => false | _ => true end
  | PDict d => match d with [] => false | _ => true end
  end.

(** [v == key] for a string [key] *)
Definition eq_str (key : string) (v : pyval) : bool :=
  match v with
  | PStr s => String.eqb s key
  | _ => false
  end.

(** [d.get(key)] on the items of a dict *)
Fixpoint dict_get (key : string) (d : list (pyval * pyval)) : option pyval :=
  match d with
  | [] => None
  | (k, v) :: d' => if eq_str key k then Some v else dict_get key d'
  end.

(** [d[key] = v]: the slot of an existing key is overwritten where it
    stands, a new key goes last. *)
Fixpoint dict_set (key : string) (v : pyval) (d : list (pyval * pyval))
  : list (pyval * pyval) :=
  match d with
  | [] => [(PStr key, v)]
  | (k, v0) :: d' =>
      if eq_str key k then (k, v) :: d' else (k, v0) :: dict_set key v d'
  end.

Definition has_key (key : string) (d : list (pyval * pyval)) : bool :=
  match dict_get key d with Some _ => true | None => false end.

(** [key in v]: key test on a dict, substring test on a string,
    membership on a list, [TypeError] on anything else. *)
Definition contains (key : string) (v : pyval) : result bool :=
  match v with
  | PDict d => Ok (has_key key d)
  | PStr s => Ok (PyStr.contains s key)
  | PList l => Ok (existsb (eq_str key) l)
  | _ => Raised TypeError
  end.

(** [v.get(key)]: only a dict has the method. *)
Definition get (key : string) (v : pyval) : result pyval :=
  match v with
  | PDict d =>
      match dict_get key d with
      | Some x => Ok x
      | None => Ok PNone
      end
  | _ => Raised AttributeError
  end.

(** [v[key] = x] *)
Definition setitem (key : string) (x : pyval) (v : pyval) : result pyval :=
  match v with
  | PDict d => Ok (PDict (dict_set key x d))
  | _ => Raised TypeError
  end.

(** A path argument of [os.path.join] must be a [str]. *)
Definition as_path (v : pyval) : result string :=
  match v with
  | PStr s => Ok s
  | _ => Raised TypeError
  end.

(** [v or {}] *)
Definition or_empty (v : pyval) : pyval :=
  if truthy v then v else PDict [].

(** [l.remove(x)]: drops the first element equal to [x]; [None] is the
    [ValueError] of an absent [x]. *)
Fixpoint list_remove (x : string) (l : list string) : option (list string) :=
  match l with
  | [] => None
  | y :: l' =>
      if String.eqb y x then Some l'
      else match list_remove x l' with
           | Some r => Some (y :: r)
           | None => None
           end
  end.

(** Insertion into a list sorted by [<] on strings, after the elements
    that are not greater (so [sorted] is stable). *)
Fixpoint insert_sorted (x : string) (l : list string) : list string :=
  match l with
  | [] => [x]
  | y :: l' =>
      if String.ltb x y then x :: l else y :: insert_sorted x l'
  end.

(** [sorted(l)] on strings *)
Definition sorted (l : list string) : list string :=
  fold_left (fun acc x => insert_sorted x acc) l [].

(** [l.index(x)]: the position of the first element equal to [x];
    [ValueError] when there is none. *)
Fixpoint index (x : string) (l : list string) : result nat :=
  match l with
  | [] => Raised ValueError
  | y :: l' =>
      if String.eqb y x then Ok 0
      else i <- index x l' ;; Ok (S i)
  end.

End Py.

(* ================================================================= *)
(** ** The file system

    A tree of directories.  Symbolic links that resolve are not
    modelled; a dangling link is an [Other false] entry, which
    [os.scandir] lists but [os.stat] does not find. *)

Inductive node : Type :=
| Reg (content : string)
| Other (present : bool)
| Dir (entries : list (string * node)).

(** A location: the names from the root down. *)
Definition loc : Type := list string.

Module FS.

Fixpoint assoc (name : string) (es : list (string * node)) : option node :=
  match es with
  | [] => None
  | (n, x) :: es' => if String.eqb n name then Some x else assoc name es'
  end.

Fixpoint get (n : node) (l : loc) : option node :=
  match l with
  | [] => Some n
  | name :: l' =>
      match n with
      | Dir es =>
          match assoc name es with
          | Some m => get m l'
          | None => None
          end
      | _ => None
      end
  end.

Definition is_dir (n : node) : bool :=
  match n with Dir _ => true | _ => false end.

(** Path resolution goes component by component; every component is
    looked up in a directory. *)
Definition step (root : node) (here : option loc) (comp : string)
  : option loc :=
  match here with
  | None => None
  | Some l =>
      match get root l with
      | Some (Dir _) =>
          if String.eqb comp "" || String.eqb comp "." then Some l
          else if String.eqb comp ".." then Some (removelast l)
          else match get root (l ++ [comp]) with
               | Some _ => Some (l ++ [comp])
               | None => None
               end
      | _ => None
      end
  end.

Definition resolve (root : node) (cwd : loc) (path : string) : option loc :=
  if negb (PyStr.nonempty path) then None
  else
    fold_left (step root)
      (PyStr.split PosixPath.sep path)
      (Some (if PosixPath.isabs path then [] else cwd)).

(** Every location of the tree *)
Fixpoint locs (n : node) : list loc :=
  [] ::
  match n with
  | Dir es =>
      (fix go (es : list (string * node)) : list loc :=
         match es with
         | [] => []
         | (name, m) :: es' => map (cons name) (locs m) ++ go es'
         end) es
  | _ => []
  end.

(** The same resolution, telling why a path leads nowhere: a missing
    name is [FileNotFoundError], a name looked up in something that is
    not a directory is [NotADirectoryError], one of the [OSError]s. *)
Fixpoint reach (root : node) (here : loc) (comps : list string)
  : result loc :=
  match comps with
  | [] => Ok here
  | comp :: rest =>
      match get root here with
      | Some (Dir _) =>
          if String.eqb comp "" || String.eqb comp "." then reach root here rest
          else if String.eqb comp ".." then reach root (removelast here) rest
          else match get root (here ++ [comp]) with
               | Some _ => reach root (here ++ [comp]) rest
               | None => Raised FileNotFoundError
               end
      | Some (Other false) => Raised FileNotFoundError
      | Some _ => Raised OSError
      | None => Raised FileNotFoundError
      end
  end.

End FS.

(** The surroundings of a run: the file system, the working directory
    of the process, the platform's path separator and the YAML
    parser ([None] is [yaml.YAMLError]). *)
Record world : Type := {
  fs_root : node;
  fs_cwd : loc;
  os_sep : string;
  yaml_load : string -> option pyval
}.

(** [try: result = yaml.load(source, ...) or {}] /
    [except yaml.YAMLError: result = {}] *)
Definition yaml_or_empty (W : world) (source : string) : pyval :=
  match yaml_load W source with
  | Some v => Py.or_empty v
  | None => PDict []
  end.

Module Os.

(** [os.getcwd()] *)
Definition getcwd (W : world) : string :=
  "/" +++ PyStr.join "/" (fs_cwd W).

Definition lookup (W : world) (path : string) : option node :=
  match FS.resolve (fs_root W) (fs_cwd W) path with
  | Some l => FS.get (fs_root W) l
  | None => None
  end.

(** [os.path.exists]: [os.stat] succeeds *)
Definition path_exists (W : world) (path : string) : bool :=
  match lookup W path with
  | Some (Other false) => false
  | Some _ => true
  | None => false
  end.

(** [os.path.isfile] *)
Definition isfile (W : world) (path : string) : bool :=
  match lookup W path with
  | Some (Reg _) => true
  | _ => false
  end.

(** [open(path).read()] *)
Definition read (W : world) (path : string) : result string :=
  match lookup W path with
  | Some (Reg content) => Ok content
  | Some (Dir _) => Raised IsADirectoryError
  | Some (Other true) => Raised OSError
  | Some (Other false) => Raised FileNotFoundError
  | None => Raised FileNotFoundError
  end.

(** [os.chdir(path)]: the working directory of the process becomes
    the directory that [path] names. *)
Definition chdir (W : world) (path : string) : result world :=
  if negb (PyStr.nonempty path) then Raised FileNotFoundError
  else
    l <- FS.reach (fs_root W)
           (if PosixPath.isabs path then [] else fs_cwd W)
           (PyStr.split PosixPath.sep path) ;;
    match FS.get (fs_root W) l with
    | Some (Dir _) =>
        Ok {| fs_root := fs_root W; fs_cwd := l;
              os_sep := os_sep W; yaml_load := yaml_load W |}
    | Some (Other false) => Raised FileNotFoundError
    | Some _ => Raised OSError
    | None => Raised FileNotFoundError
    end.

End Os.

(** One entry of the archive, as [ZipFile.filelist] keeps them. *)
Record zip_entry : Type := {
  filename : string;
  data : string
}.

Module Zip.

(** The name [ZipFile.write] stores for [arcname]: normalised and
    without leading separators. *)
Definition arcname_of (arcname : string) : string :=
  PyStr.lstrip PosixPath.sep (PosixPath.normpath arcname).

(** The entry [f.write(path, arcname)] adds: the file is read from
    disk; a directory becomes an empty entry whose name ends in a
    slash. *)
Definition entry_of (W : world) (path arcname : string) : result zip_entry :=
  match Os.lookup W path with
  | Some (Dir _) =>
      Ok {| filename := arcname_of arcname +++ "/"; data := "" |}
  | _ =>
      content <- Os.read W path ;;
      Ok {| filename := arcname_of arcname; data := content |}
  end.

Definition write (W : world) (path arcname : string) (zip : list zip_entry)
  : result (list zip_entry) :=
  e <- entry_of W path arcname ;;
  Ok (zip ++ [e]).

(** [f.writestr(arcname, data)] *)
Definition writestr (arcname content : string) (zip : list zip_entry)
  : list zip_entry :=
  zip ++ [{| filename := arcname; data := content |}].

(** [f.read(name)]: [NameToInfo] keeps the entry written last under a
    name. *)
Fixpoint read (name : string) (zip : list zip_entry) : option string :=
  match zip with
  | [] => None
  | e :: zip' =>
      match read name zip' with
      | Some d => Some d
      | None => if String.eqb (filename e) name then Some (data e) else None
      end
  end.

End Zip.

(** What the plugin takes from MkDocs and from the interpreter. *)
Record mkdocs_config : Type := {
  config_file_path : string;
  docs_dir : string;
  site_dir : string;
  (** [projects_dir] of the projects plugin, when it is enabled *)
  projects_dir : option string;
  (** [site_dir] of every project configuration found by the glob *)
  project_site_dirs : list string;
  (** [abs_src_path] of the files listed by [get_files(config)] *)
  visible_files : list string
}.

Record interpreter : Type := {
  (** [version("mkdocs-material")] *)
  present : string;
  (** the name typed by the author, without extension, slugified *)
  slug : string;
  (** name and version of every installed distribution *)
  distributions : list (string * string);
  (** the document printed by [json.dumps] for [platform.json] *)
  platform_json : string;
  (** [site.getsitepackages()] *)
  sitepackages : list string
}.

Definition newline : string := String (ascii_of_nat 10) EmptyString.

(** ["==".join([package.name, package.version])] *)
Definition lock_line (package : string * string) : string :=
  PyStr.join "==" [fst package; snd package].

(** The lines of [requirements.lock.txt] *)
Definition lock_lines (I : interpreter) : list string :=
  Py.sorted (map lock_line (distributions I)).

(** The folder name inside the archive *)
Definition example_name (I : interpreter) : string :=
  PyStr.join "-" [present I; slug I].

(** The two entries written after the project files *)
Definition write_metadata (I : interpreter) (example : string)
  (zip : list zip_entry) : list zip_entry :=
  let zip :=
    Zip.writestr (PosixPath.join example "requirements.lock.txt")
      (PyStr.join newline (lock_lines I)) zip in
  Zip.writestr (PosixPath.join example "platform.json") (platform_json I) zip.

(** [if not isinstance(loaded, list): loaded = [loaded]] *)
Definition as_list (v : pyval) : list pyval :=
  match v with
  | PList l => l
  | _ => [v]
  end.

(* ================================================================= *)
(** ** The plugin object and the course of [on_config]

    [on_config] logs, prints help, writes the archive to disk and
    leaves by [return], by [sys.exit] or by an exception.  A run is
    the list of what it did, in order, and how it went on or ended:
    the messages logged as errors, as warnings and for information,
    the help pages, and the archive written to disk.  What is logged
    for debugging (by the loader for every parent it opens, by
    [_is_excluded] for every path it excludes) and the listing printed
    at the very end are not recorded: a run tells which of the
    recorded events took place and in which order, not that nothing
    else was printed in between. *)

(** [self.config]: the options the plugin reads.  Only
    [material/plugins] reads [root_dir]; unset, it is the empty
    string. *)
Record plugin_config : Type := {
  enabled : bool;
  enabled_on_serve : bool;
  archive : bool;
  archive_stop_on_violation : bool;
  root_dir : string
}.

Record plugin : Type := {
  config : plugin_config;
  is_serve : bool
}.

(** [InfoPlugin.__init__] *)
Definition __init__ (options : plugin_config) : plugin :=
  {| config := options; is_serve := false |}.

(** [InfoPlugin.on_startup] *)
Definition on_startup (self : plugin) (command : string) : plugin :=
  {| config := config self; is_serve := String.eqb command "serve" |}.

(** What [on_config] reads besides the paths of [mkdocs_config]. *)
Record surroundings : Type := {
  (** [requests.get(url, allow_redirects = False).headers.get("location")] *)
  location : result (option string);
  (** [config.theme.dirs] and [get_theme_dir(config.theme.name)] *)
  theme_dirs : list string;
  theme_dir : string;
  (** the keys of [config.hooks] *)
  hooks : list string;
  (** [config.mdx_configs.items()] *)
  mdx_configs : list (string * list (pyval * pyval));
  (** the text of [info.gitignore] *)
  gitignore : string;
  (** [archive.getbuffer().nbytes]: the size in bytes of the zip file
      that holds these entries, as [zipfile] deflates them *)
  nbytes : list zip_entry -> Z
}.

(** The help pages, with what they list *)
Inductive help : Type :=
| OnVersions (have need : string)
| OnCustomizations
| OnNotInCwd (bad_paths : list string)
| OnBadCwd (config_dir : string)
| OnBadExtensions (existing not_existing : list (string * string * string))
| OnBadPaths (existing not_existing : list string).

Inductive event : Type :=
| LogError (message : string)
| LogWarning (message : string)
| LogInfo (message : string)
| Help (page : help)
| Saved (name : string) (zip : list zip_entry).

Inductive ending : Type :=
| Returns
| Exits (status : Z)
| Raises (e : exn).

(** After a piece of code: it goes on with a value, the call is
    over, or the loader ran out of fuel. *)
Inductive outcome (A : Type) : Type :=
| Goes (a : A)
| Ends (e : ending)
| Unfinished.

Arguments Goes {A} a.
Arguments Ends {A} e.
Arguments Unfinished {A}.

Definition run (A : Type) : Type := (list event * outcome A)%type.

Definition pure {A : Type} (a : A) : run A := ([], Goes a).

Definition and_then {A B : Type} (m : run A) (k : A -> run B) : run B :=
  match m with
  | (log, Goes a) => let (log', o) := k a in (log ++ log', o)
  | (log, Ends e) => (log, Ends e)
  | (log, Unfinished) => (log, Unfinished)
  end.

Notation "x <~ m ;; k" := (and_then m (fun x => k))
  (at level 61, m at next level, right associativity).
Notation "m ;;; k" := (and_then m (fun _ => k))
  (at level 61, right associativity).

Definition emit (ev : event) : run unit := ([ev], Goes tt).

(** [return] from [on_config] *)
Definition returns {A : Type} : run A := ([], Ends Returns).

(** [sys.exit(status)] *)
Definition sys_exit {A : Type} (status : Z) : run A := ([], Ends (Exits status)).

(** A call that returns or raises *)
Definition raising {A : Type} (r : result A) : run A :=
  match r with
  | Ok a => pure a
  | Raised e => ([], Ends (Raises e))
  end.

(** A call of the loader *)
Definition loading {A : Type} (r : option (result A)) : run A :=
  match r with
  | Some r => raising r
  | None => ([], Unfinished)
  end.

(** The last lines of every help page:
    [if self.config.archive_stop_on_violation: sys.exit(1)] *)
Definition exit_unless_told_not_to (self : plugin) : run unit :=
  if archive_stop_on_violation (config self) then sys_exit 1 else pure tt.

(** [_help_on_versions_and_exit] *)
Definition _help_on_versions_and_exit (self : plugin) (have need : string)
  : run unit :=
  emit (Help (OnVersions have need)) ;;; exit_unless_told_not_to self.

(** [_help_on_customizations_and_exit] *)
Definition _help_on_customizations_and_exit (self : plugin) : run unit :=
  emit (Help OnCustomizations) ;;; exit_unless_told_not_to self.

(** [_, current = res.headers.get("location").rsplit("/", 1)]: a
    missing header is [None], which has no [rsplit]; a location
    without a slash gives one value where two are unpacked. *)
Definition latest_release (E : surroundings) : result string :=
  header <- location E ;;
  match header with
  | None => Raised AttributeError
  | Some url =>
      match PyStr.after_last "/" url with
      | Some current => Ok current
      | None => Raised ValueError
      end
  end.

(** The part of [on_config] that both files share word for word, from
    [# Resolve latest version] to the check for hooks. *)
Definition checks_before_archive (self : plugin) (E : surroundings)
  (I : interpreter) : run unit :=
  current <~ raising (latest_release E) ;;
  (if negb (PyStr.startswith (present I) current)
   then emit (LogError "Please upgrade to the latest version.") ;;;
        _help_on_versions_and_exit self (present I) current
   else pure tt) ;;;
  (if negb (archive (config self)) then sys_exit 1 else pure tt) ;;;
  emit (LogInfo "Started archive creation for bug report") ;;;
  position <~ raising (Py.index (theme_dir E) (theme_dirs E)) ;;
  (if negb (Nat.eqb position 0)
   then emit (LogError "Please remove 'custom_dir' setting.") ;;;
        _help_on_customizations_and_exit self
   else pure tt) ;;;
  match hooks E with
  | [] => pure tt
  | _ => emit (LogError "Please remove 'hooks' setting.") ;;;
         _help_on_customizations_and_exit self
  end.

(** The end of [on_config] in both files: the archive, once all its
    entries are written, goes to disk under the name of the example;
    an archive of more than a million bytes is warned about; and the
    process exits. *)
Definition save_and_exit (E : surroundings) (I : interpreter)
  (written : result (list zip_entry)) : run unit :=
  zip <~ raising written ;;
  emit (Saved (example_name I +++ ".zip") zip) ;;;
  emit (LogInfo "Archive successfully created:") ;;;
  (if (1000000 <? nbytes E zip)%Z
   then emit (LogWarning "Archive exceeds recommended maximum size of 1 MB")
   else pure tt) ;;;
  sys_exit 1.

(* ================================================================= *)
(** ** [src/plugins/info/plugin.py] *)

Module SrcPlugin.

(** [_load_yaml].  The recursion follows the [INHERIT] chain, which the
    source does not bound: [fuel] bounds the depth here and [None] says
    that it ran out. *)
Fixpoint _load_yaml (W : world) (fuel : nat) (source_path : string)
  : option (result pyval) :=
  match fuel with
  | O => None
  | S fuel' =>
      match Os.read W source_path with
      | Raised e => Some (Raised e)
      | Ok source =>
          let result := yaml_or_empty W source in
          match Py.contains "INHERIT" result with
          | Raised e => Some (Raised e)
          | Ok false => Some (Ok (Py.or_empty result))
          | Ok true =>
              match (v <- Py.get "INHERIT" result ;; Py.as_path v) with
              | Raised e => Some (Raised e)
              | Ok relpath =>
                  let abspath :=
                    PosixPath.normpath
                      (PosixPath.join (PosixPath.dirname source_path) relpath) in
                  if Os.path_exists W abspath then
                    match Py.setitem "INHERIT" (PStr abspath) result with
                    | Raised e => Some (Raised e)
                    | Ok result =>
                        match _load_yaml W fuel' abspath with
                        | None => None
                        | Some (Raised e) => Some (Raised e)
                        | Some (Ok parent) =>
                            let result :=
                              match parent with
                              | PList l => PList (result :: l)
                              | PDict _ => PList [result; parent]
                              | _ => result
                              end in
                            Some (Ok (Py.or_empty result))
                        end
                    end
                  else Some (Ok (Py.or_empty result))
              end
          end
      end
  end.

(** [cfg.get("INHERIT", "")], as a candidate path.  A value that is
    neither a string nor false makes the later [startswith] fail; a
    false value is dropped like the empty string. *)
Definition inherit_candidate (cfg : pyval) : result string :=
  match cfg with
  | PDict d =>
      match Py.dict_get "INHERIT" d with
      | None => Ok ""
      | Some (PStr s) => Ok s
      | Some v => if Py.truthy v then Raised AttributeError else Ok ""
      end
  | _ => Raised AttributeError
  end.

Fixpoint map_result {A B : Type} (f : A -> result B) (l : list A)
  : result (list B) :=
  match l with
  | [] => Ok []
  | a :: l' => b <- f a ;; bs <- map_result f l' ;; Ok (b :: bs)
  end.

(** The path made absolute at the start of [on_config] *)
Definition absolute_config_path (W : world) (C : mkdocs_config) : string :=
  if PosixPath.isabs (config_file_path C) then config_file_path C
  else PosixPath.normpath (PosixPath.join (Os.getcwd W) (config_file_path C)).

Definition abs_projects_dir (W : world) (C : mkdocs_config) : string :=
  match projects_dir C with
  | Some d => PosixPath.join (PosixPath.dirname (absolute_config_path W C)) d
  | None => ""
  end.

(** [paths_to_validate], before the loop *)
Definition candidate_paths (W : world) (C : mkdocs_config)
  (loaded_configs : list pyval) : result (list string) :=
  inherited <- map_result inherit_candidate loaded_configs ;;
  Ok ([absolute_config_path W C; docs_dir C; abs_projects_dir W C]
        ++ inherited).

(** The loop [for path in reversed(paths_to_validate)], which removes
    from the list it iterates.  The reverse iterator holds the index
    [n - 1] into the live list and stops once that index is outside
    it; [remove] drops the first element equal to [path]. *)
Fixpoint prune_reversed (cwd : string) (n : nat) (paths : list string)
  : result (list string) :=
  match n with
  | O => Ok paths
  | S index =>
      match nth_error paths index with
      | None => Ok paths
      | Some path =>
          if negb (PyStr.nonempty path) || PyStr.startswith path cwd
          then match Py.list_remove path paths with
               | Some paths' => prune_reversed cwd index paths'
               | None => Raised ValueError
               end
          else prune_reversed cwd index paths
      end
  end.

(** [paths_to_validate], after the loop: the paths reported by
    [_help_on_not_in_cwd]. *)
Definition validate_paths (W : world) (paths_to_validate : list string)
  : result (list string) :=
  prune_reversed (Os.getcwd W) (List.length paths_to_validate)
    paths_to_validate.

(** The validation of [on_config], from the configuration file to the
    paths that are reported *)
Definition paths_not_in_cwd (W : world) (C : mkdocs_config) (fuel : nat)
  : option (result (list string)) :=
  match _load_yaml W fuel (absolute_config_path W C) with
  | None => None
  | Some loaded =>
      Some (loaded_configs <- loaded ;;
            paths <- candidate_paths W C (as_list loaded_configs) ;;
            validate_paths W paths)
  end.

(** [_resolve_pattern] *)
Definition _resolve_pattern (W : world) (abspath : string) : string :=
  let path :=
    PyStr.replace (PyStr.replace abspath (Os.getcwd W) "" (Some 1))
      (os_sep W) "/" None in
  if negb (PyStr.nonempty path) then "/"
  else if negb (Os.isfile W abspath) then path +++ "/"
  else path.

(** [_is_excluded], over [self.exclusion_patterns] *)
Fixpoint _is_excluded (exclusion_patterns : list string) (posix_path : string)
  : bool :=
  match exclusion_patterns with
  | [] => false
  | pattern :: rest =>
      if Fnmatch.fnmatchcase posix_path pattern then true
      else _is_excluded rest posix_path
  end.

(** [str.strip()] removes white space at both ends. *)
Definition is_space (c : ascii) : bool :=
  let n := nat_of_ascii c in
  (Nat.leb 9 n && Nat.leb n 13) || (Nat.leb 28 n && Nat.leb n 32).

Fixpoint lstrip_space (s : string) : string :=
  match s with
  | String a s' => if is_space a then lstrip_space s' else s
  | EmptyString => EmptyString
  end.

Fixpoint rstrip_space (s : string) : string :=
  match s with
  | EmptyString => EmptyString
  | String a s' =>
      match rstrip_space s' with
      | EmptyString => if is_space a then EmptyString else String a EmptyString
      | r => String a r
      end
  end.

(** [_load_exclusion_patterns], on the text of [info.gitignore] *)
Definition _load_exclusion_patterns (text : string) : list string :=
  let lines :=
    map (fun l => rstrip_space (lstrip_space l))
      (PyStr.split (ascii_of_nat 10) text) in
  filter (fun line => PyStr.nonempty line && negb (PyStr.startswith line "#"))
    lines.

(** [self.exclusion_patterns], as [on_config] completes it *)
Definition exclusion_patterns (W : world) (C : mkdocs_config)
  (I : interpreter) (gitignore : string) : list string :=
  let cwd := Os.getcwd W in
  _load_exclusion_patterns gitignore
    ++ (if PyStr.startswith (site_dir C) cwd
        then [_resolve_pattern W (site_dir C)] else [])
    ++ map (_resolve_pattern W)
         (filter (fun p => PyStr.startswith p cwd) (sitepackages I))
    ++ match projects_dir C with
       | Some _ => map (_resolve_pattern W) (project_site_dirs C)
       | None => []
       end.

(** The names [os.walk] hands out for one directory *)
Definition dirnames_of (es : list (string * node)) : list string :=
  map fst (filter (fun e => FS.is_dir (snd e)) es).

Definition filenames_of (es : list (string * node)) : list string :=
  map fst (filter (fun e => negb (FS.is_dir (snd e))) es).

(** The loop [for name in list(dirnames)]: it runs over a copy and
    removes from the list that [os.walk] reads afterwards. *)
Definition prune_dirnames (W : world) (patterns : list string)
  (abs_root : string) (dirnames : list string) : result (list string) :=
  fold_left
    (fun live name =>
       dn <- live ;;
       let pattern := _resolve_pattern W (PosixPath.join abs_root name) in
       if _is_excluded patterns pattern
       then match Py.list_remove name dn with
            | Some dn' => Ok dn'
            | None => Raised ValueError
            end
       else Ok dn)
    dirnames (Ok dirnames).

(** One round of the loop [for name in filenames] *)
Definition write_file (W : world) (patterns : list string)
  (example abs_root : string) (acc : result (list zip_entry)) (name : string)
  : result (list zip_entry) :=
  z <- acc ;;
  let path := PosixPath.join abs_root name in
  let pattern := _resolve_pattern W path in
  if _is_excluded patterns pattern then Ok z
  else match PosixPath.relpath (Os.getcwd W) path "." with
       | None => Raised ValueError
       | Some path => Zip.write W path (PosixPath.join example path) z
       end.

(** The loop [for name in filenames] *)
Definition write_files (W : world) (patterns : list string)
  (example abs_root : string) (filenames : list string)
  (zip : list zip_entry) : result (list zip_entry) :=
  fold_left (write_file W patterns example abs_root) filenames (Ok zip).

(** [os.walk], top down, with the body of the loop of [on_config]: the
    directory [abs_root] is listed, the body prunes [dirnames] and
    writes the files, and the walk goes on into the directories whose
    names are still in [dirnames].  [os.walk] lists each of them by its
    path; in the tree that is the entry of that name. *)
Fixpoint walk (W : world) (patterns : list string) (example : string)
  (abs_root : string) (n : node) (zip : list zip_entry) {struct n}
  : result (list zip_entry) :=
  match n with
  | Dir es =>
      dirnames <- prune_dirnames W patterns abs_root (dirnames_of es) ;;
      zip <- write_files W patterns example abs_root (filenames_of es) zip ;;
      (fix children (es : list (string * node)) (zip : list zip_entry)
         : result (list zip_entry) :=
         match es with
         | [] => Ok zip
         | (name, m) :: es' =>
             if FS.is_dir m && existsb (String.eqb name) dirnames
             then zip <- walk W patterns example
                           (PosixPath.join abs_root name) m zip ;;
                  children es' zip
             else children es' zip
         end) es zip
  | _ => Ok zip
  end.

(** The descent of [walk] into the subdirectories, on its own. *)
Fixpoint walk_children (W : world) (patterns : list string) (example : string)
  (abs_root : string) (dirnames : list string) (es : list (string * node))
  (zip : list zip_entry) : result (list zip_entry) :=
  match es with
  | [] => Ok zip
  | (name, m) :: es' =>
      if FS.is_dir m && existsb (String.eqb name) dirnames
      then zip <- walk W patterns example (PosixPath.join abs_root name) m zip ;;
           walk_children W patterns example abs_root dirnames es' zip
      else walk_children W patterns example abs_root dirnames es' zip
  end.

(** The archive of [on_config]: the walk from the working directory,
    then the two entries of metadata. *)
Definition create_archive (W : world) (I : interpreter)
  (patterns : list string) : result (list zip_entry) :=
  let example := example_name I in
  zip <- match Os.lookup W (Os.getcwd W) with
         | Some n => walk W patterns example (Os.getcwd W) n []
         | None => Ok []
         end ;;
  Ok (write_metadata I example zip).

(** The archive of a run, with the patterns that [on_config] loads
    and computes *)
Definition bundle (W : world) (C : mkdocs_config) (I : interpreter)
  (gitignore : string) : result (list zip_entry) :=
  create_archive W I (exclusion_patterns W C I gitignore).

(** [_help_on_not_in_cwd] *)
Definition _help_on_not_in_cwd (self : plugin) (bad_paths : list string)
  : run unit :=
  emit (Help (OnNotInCwd bad_paths)) ;;; exit_unless_told_not_to self.

(** [on_config] *)
Definition on_config (W : world) (self : plugin) (C : mkdocs_config)
  (E : surroundings) (I : interpreter) (fuel : nat) : run unit :=
  if negb (enabled (config self)) then returns
  else if negb (enabled_on_serve (config self)) && is_serve self then returns
  else
    loaded_configs <~ loading (_load_yaml W fuel (absolute_config_path W C)) ;;
    paths <~ raising (candidate_paths W C (as_list loaded_configs)) ;;
    paths_to_validate <~ raising (validate_paths W paths) ;;
    match paths_to_validate with
    | [] => pure tt
    | _ => emit (LogError "One or more paths aren't children of root") ;;;
           _help_on_not_in_cwd self paths_to_validate
    end ;;;
    checks_before_archive self E I ;;;
    save_and_exit E I (bundle W C I (gitignore E)).

End SrcPlugin.

(* ================================================================= *)
(** ** [material/plugins/info/plugin.py] *)

Module MaterialPlugin.

(** [_yaml_load]: the same loader under its other name. *)
Fixpoint _yaml_load (W : world) (fuel : nat) (source_path : string)
  : option (result pyval) :=
  match fuel with
  | O => None
  | S fuel' =>
      match Os.read W source_path with
      | Raised e => Some (Raised e)
      | Ok source =>
          let result := yaml_or_empty W source in
          match Py.contains "INHERIT" result with
          | Raised e => Some (Raised e)
          | Ok false => Some (Ok (Py.or_empty result))
          | Ok true =>
              match (v <- Py.get "INHERIT" result ;; Py.as_path v) with
              | Raised e => Some (Raised e)
              | Ok relpath =>
                  let abspath :=
                    PosixPath.normpath
                      (PosixPath.join (PosixPath.dirname source_path) relpath) in
                  if Os.path_exists W abspath then
                    match Py.setitem "INHERIT" (PStr abspath) result with
                    | Raised e => Some (Raised e)
                    | Ok result =>
                        match _yaml_load W fuel' abspath with
                        | None => None
                        | Some (Raised e) => Some (Raised e)
                        | Some (Ok parent) =>
                            let result :=
                              match parent with
                              | PList l => PList (result :: l)
                              | PDict _ => PList [result; parent]
                              | _ => result
                              end in
                            Some (Ok (Py.or_empty result))
                        end
                    end
                  else Some (Ok (Py.or_empty result))
              end
          end
      end
  end.

(** [cfg["INHERIT"] for cfg in filter(lambda x: "INHERIT" in x, ...)],
    as candidate paths: a value that is not a string has no
    [startswith]. *)
Fixpoint inherited_paths (loaded_config : list pyval) : result (list string) :=
  match loaded_config with
  | [] => Ok []
  | cfg :: rest =>
      has <- Py.contains "INHERIT" cfg ;;
      if has
      then match cfg with
           | PDict d =>
               match Py.dict_get "INHERIT" d with
               | Some (PStr s) => ps <- inherited_paths rest ;; Ok (s :: ps)
               | Some _ => Raised AttributeError
               | None => inherited_paths rest
               end
           | _ => Raised TypeError
           end
      else inherited_paths rest
  end.

(** [paths_to_validate], before the loop *)
Definition candidate_paths (C : mkdocs_config) (loaded_config : list pyval)
  : result (list string) :=
  inherited <- inherited_paths loaded_config ;;
  Ok (docs_dir C :: inherited).

(** The loop that fills [invalid_paths] *)
Definition validate_step (W : world) (invalid_paths : list string)
  (path : string) : list string :=
  if negb (PyStr.startswith path (Os.getcwd W))
  then invalid_paths ++ [path]
  else if negb (Os.path_exists W path)
       then invalid_paths ++ [path]
       else invalid_paths.

Definition validate_paths (W : world) (paths_to_validate : list string)
  : list string :=
  fold_left (validate_step W) paths_to_validate [].

(** The validation of [on_config], from the configuration file to the
    paths that are reported *)
Definition invalid_paths (W : world) (C : mkdocs_config) (fuel : nat)
  : option (result (list string)) :=
  match _yaml_load W fuel (config_file_path C) with
  | None => None
  | Some loaded =>
      Some (loaded_config <- loaded ;;
            paths <- candidate_paths C (as_list loaded_config) ;;
            Ok (validate_paths W paths))
  end.

(** One [f.write(path, os.path.join(example, path))] of a path made
    relative to the working directory. *)
Definition write_relative (W : world) (example path : string)
  (zip : list zip_entry) : result (list zip_entry) :=
  match PosixPath.relpath (Os.getcwd W) path "." with
  | None => Raised ValueError
  | Some path => Zip.write W path (PosixPath.join example path) zip
  end.

Fixpoint write_all (W : world) (example : string) (paths : list string)
  (zip : list zip_entry) : result (list zip_entry) :=
  match paths with
  | [] => Ok zip
  | path :: rest =>
      zip <- write_relative W example path zip ;;
      write_all W example rest zip
  end.

(** The archive of [on_config]: the two well-known files when they
    exist, the inherited configurations, the files visible to MkDocs,
    then the two entries of metadata. *)
Definition create_archive (W : world) (C : mkdocs_config) (I : interpreter)
  (inherited : list string) : result (list zip_entry) :=
  let example := example_name I in
  zip <- fold_left
           (fun acc path =>
              z <- acc ;;
              if Os.isfile W path
              then Zip.write W path (PosixPath.join example path) z
              else Ok z)
           ["mkdocs.yml"; "requirements.txt"] (Ok []) ;;
  zip <- write_all W example inherited zip ;;
  zip <- write_all W example (visible_files C) zip ;;
  Ok (write_metadata I example zip).

(** [_help_on_bad_cwd] *)
Definition _help_on_bad_cwd (self : plugin) (config_dir : string) : run unit :=
  emit (Help (OnBadCwd config_dir)) ;;; exit_unless_told_not_to self.

(** [_help_on_bad_extensions]: the entries are listed under two
    headings, by [os.path.exists] of their path. *)
Definition _help_on_bad_extensions (W : world) (self : plugin)
  (bad_extension : list (string * string * string)) : run unit :=
  let existing := filter (fun x => Os.path_exists W (snd x)) bad_extension in
  let not_existing :=
    filter (fun x => negb (Os.path_exists W (snd x))) bad_extension in
  emit (Help (OnBadExtensions existing not_existing)) ;;;
  exit_unless_told_not_to self.

(** [_help_on_bad_paths] *)
Definition _help_on_bad_paths (W : world) (self : plugin)
  (bad_paths : list string) : run unit :=
  let existing := filter (Os.path_exists W) bad_paths in
  let not_existing := filter (fun x => negb (Os.path_exists W x)) bad_paths in
  emit (Help (OnBadPaths existing not_existing)) ;;;
  exit_unless_told_not_to self.

(** [_change_cwd]: the path that is tested is taken relative to the
    directory of the configuration file; [os.chdir] takes [root_dir]
    as it stands. *)
Definition _change_cwd (W : world) (self : plugin) (config_dir : string)
  : run world :=
  let abspath :=
    if PosixPath.isabs (root_dir (config self)) then root_dir (config self)
    else PosixPath.normpath
           (PosixPath.join config_dir (root_dir (config self))) in
  if Os.path_exists W abspath
  then raising (Os.chdir W (root_dir (config self)))
  else emit (LogError ("`root_dir`: " +++ root_dir (config self)
                       +++ " doesn't exist")) ;;;
       sys_exit 1.

(** The body of the innermost loop over the paths of one option of
    one extension *)
Definition check_extension_path (W : world) (ext option : string)
  (invalid_extensions : result (list (string * string * string)))
  (path : pyval) : result (list (string * string * string)) :=
  invalid <- invalid_extensions ;;
  path <- Py.as_path path ;;
  let abspath := PosixPath.abspath (Os.getcwd W) path in
  if negb (PyStr.startswith abspath (Os.getcwd W))
  then Ok (invalid ++ [(ext, option, abspath)])
  else if negb (Os.path_exists W abspath)
       then Ok (invalid ++ [(ext, option, abspath)])
       else Ok invalid.

(** The loop over the extensions whose configuration has [option] *)
Definition check_option (W : world)
  (mdx : list (string * list (pyval * pyval)))
  (invalid_extensions : result (list (string * string * string)))
  (option : string) : result (list (string * string * string)) :=
  fold_left
    (fun invalid x =>
       match Py.dict_get option (snd x) with
       | Some paths =>
           fold_left (check_extension_path W (fst x) option)
             (as_list paths) invalid
       | None => invalid
       end)
    mdx invalid_extensions.

(** [invalid_extensions], after the loops over [known_path_options] *)
Definition check_extensions (W : world)
  (mdx : list (string * list (pyval * pyval)))
  : result (list (string * string * string)) :=
  fold_left (check_option W mdx)
    ["base_path"; "auto_append"; "relative_path"] (Ok []).

(** [on_config] *)
Definition on_config (W : world) (self : plugin) (C : mkdocs_config)
  (E : surroundings) (I : interpreter) (fuel : nat) : run unit :=
  if negb (enabled (config self)) then returns
  else if negb (enabled_on_serve (config self)) && is_serve self then returns
  else
    let config_dir := PosixPath.dirname (config_file_path C) in
    W <~ (if negb (PyStr.nonempty (root_dir (config self)))
             && negb (PyStr.startswith config_dir (Os.getcwd W))
          then emit (LogError
                 "Please run `mkdocs build` from the actual project root") ;;;
               _help_on_bad_cwd self config_dir ;;;
               pure W
          else if PyStr.nonempty (root_dir (config self))
               then _change_cwd W self config_dir
               else pure W) ;;
    invalid_extensions <~ raising (check_extensions W (mdx_configs E)) ;;
    match invalid_extensions with
    | [] => pure tt
    | _ => emit (LogError
             "One or more `markdown_extension` paths are invalid") ;;;
           _help_on_bad_extensions W self invalid_extensions
    end ;;;
    loaded_config <~ loading (_yaml_load W fuel (config_file_path C)) ;;
    paths_to_validate <~ raising (candidate_paths C (as_list loaded_config)) ;;
    match validate_paths W paths_to_validate with
    | [] => pure tt
    | invalid_paths =>
        emit (LogError "One or more paths are invalid") ;;;
        _help_on_bad_paths W self invalid_paths
    end ;;;
    checks_before_archive self E I ;;;
    inherited <~ raising (inherited_paths (as_list loaded_config)) ;;
    save_and_exit E I (create_archive W C I inherited).

End MaterialPlugin.

(* ================================================================= *)
(** ** Notions used to state the properties *)

Module Spec.

(** The violation test in the words of the specification: non-empty,
    and outside the working directory or missing. *)
Definition violation (W : world) (path : string) : Prop :=
  path <> "" /\
  (PyStr.startswith path (Os.getcwd W) = false \/ Os.path_exists W path = false).

(** The test of the loop of [src/plugins]: the path stays in the list. *)
Definition stays (cwd path : string) : bool :=
  negb (negb (PyStr.nonempty path) || PyStr.startswith path cwd).

(** The test of the loop of [material/plugins]: the path is appended. *)
Definition invalid (W : world) (path : string) : bool :=
  negb (PyStr.startswith path (Os.getcwd W)) || negb (Os.path_exists W path).

(** The file on which a call of the loader calls itself, if it does. *)
Definition inherit_target (W : world) (source_path : string) : option string :=
  match Os.read W source_path with
  | Raised _ => None
  | Ok source =>
      match Py.get "INHERIT" (yaml_or_empty W source) with
      | Ok (PStr relpath) =>
          let abspath :=
            PosixPath.normpath
              (PosixPath.join (PosixPath.dirname source_path) relpath) in
          if Os.path_exists W abspath then Some abspath else None
      | _ => None
      end
  end.

(** The fragment a file contributes: its own, with the parent's
    fragments behind it. *)
Definition extend (fragment parent : pyval) : pyval :=
  Py.or_empty
    match parent with
    | PList l => PList (fragment :: l)
    | PDict _ => PList [fragment; parent]
    | _ => fragment
    end.

Definition after (fragment : pyval) (r : result pyval) : result pyval :=
  match r with
  | Ok parent => Ok (extend fragment parent)
  | Raised e => Raised e
  end.

(** The [n]-th file of the inheritance chain that starts at [path]. *)
Fixpoint chain_at (W : world) (path : string) (n : nat) : option string :=
  match n with
  | O => Some path
  | S n' =>
      match inherit_target W path with
      | Some parent => chain_at W parent n'
      | None => None
      end
  end.

(** Where a path leads in the tree: two paths name the same file when
    they lead to the same place. *)
Definition file_of (W : world) (path : string) : option loc :=
  FS.resolve (fs_root W) (fs_cwd W) path.

(** The place of the [k]-th file of the chain *)
Definition place_at (W : world) (path : string) (k : nat) : option loc :=
  match chain_at W path k with
  | Some a => file_of W a
  | None => None
  end.

(** No file of the chain is visited twice. *)
Definition acyclic (W : world) (path : string) : Prop :=
  forall i j a b,
    i < j ->
    chain_at W path i = Some a ->
    chain_at W path j = Some b ->
    file_of W a <> file_of W b.

(** Does the pruning loop keep this subdirectory? *)
Definition kept (W : world) (patterns : list string) (abs_root name : string)
  : bool :=
  negb (SrcPlugin._is_excluded patterns
          (SrcPlugin._resolve_pattern W (PosixPath.join abs_root name))).

(** [walked W patterns top n abs_root es]: the walk started on the
    directory [n] at [top] comes to list the directory [abs_root],
    whose entries are [es]; every directory on the way down was kept. *)
Inductive walked (W : world) (patterns : list string)
  : string -> node -> string -> list (string * node) -> Prop :=
| walked_top top es :
    walked W patterns top (Dir es) top es
| walked_sub top es name sub abs_root es' :
    In (name, Dir sub) es ->
    kept W patterns top name = true ->
    walked W patterns (PosixPath.join top name) (Dir sub) abs_root es' ->
    walked W patterns top (Dir es) abs_root es'.

(** The entry [f.write] adds for the file [path] of the project *)
Definition archived (W : world) (example path : string) (e : zip_entry)
  : Prop :=
  exists rel,
    PosixPath.relpath (Os.getcwd W) path "." = Some rel
    /\ Zip.entry_of W rel (PosixPath.join example rel) = Ok e.

(** A name as a directory holds it: not empty, without a slash, and
    neither of the two dot entries. *)
Fixpoint slash_free (s : string) : bool :=
  match s with
  | EmptyString => true
  | String a s' => negb (Ascii.eqb a PosixPath.sep) && slash_free s'
  end.

Definition plain_name (s : string) : bool :=
  PyStr.nonempty s && slash_free s
  && negb (String.eqb s ".") && negb (String.eqb s "..").

Fixpoint distinct (l : list string) : bool :=
  match l with
  | [] => true
  | x :: l' => negb (existsb (String.eqb x) l') && distinct l'
  end.

(** A tree as a file system keeps it: plain names, no name twice in a
    directory. *)
Fixpoint wf_node (n : node) : bool :=
  match n with
  | Dir es =>
      distinct (map fst es)
      && forallb (fun e => plain_name (fst e) && wf_node (snd e)) es
  | _ => true
  end.

(** The working directory is a directory of the tree. *)
Definition wf_world (W : world) : bool :=
  wf_node (fs_root W)
  && forallb plain_name (fs_cwd W)
  && match FS.get (fs_root W) (fs_cwd W) with
     | Some (Dir _) => true
     | _ => false
     end.

(** The absolute path of a place *)
Definition path_of (l : loc) : string := "/" +++ PyStr.join "/" l.

(** Every component behind its slash *)
Fixpoint slashed (l : list string) : string :=
  match l with
  | [] => ""
  | c :: l' => "/" +++ c +++ slashed l'
  end.

(** The same tree with other contents beneath the directory [name]. *)
Definition with_contents (name : string) (sub : list (string * node))
  (es : list (string * node)) : list (string * node) :=
  map (fun e =>
         if String.eqb (fst e) name && FS.is_dir (snd e)
         then (fst e, Dir sub) else e) es.


(** *** Shell matching, read off the text of the pattern

    The wildcards as the specification names them: a star, a question
    mark and a bracket expression [[seq]] or [[!seq]].  The relation
    [shell_match] below is stated on the characters of the pattern and
    of the name alone, without the parse of [fnmatch.translate].  A
    range whose bounds are out of order has no members. *)

(** No range starts on the character before [rest]: a hyphen makes a
    range only when a character follows it. *)
Definition no_range (rest : string) : Prop :=
  forall hi rest', rest <> String "-" (String hi rest').

(** [c] is a member of the sequence of a bracket expression: it is
    listed there alone, or it lies within a range [lo-hi] of it, the
    bounds included, by the codes of the characters. *)
Inductive listed (c : ascii) : string -> Prop :=
| listed_range lo hi rest :
    nat_of_ascii lo <= nat_of_ascii c <= nat_of_ascii hi ->
    listed c (String lo (String "-" (String hi rest)))
| listed_after_range lo hi rest :
    listed c rest ->
    listed c (String lo (String "-" (String hi rest)))
| listed_alone rest :
    no_range rest ->
    listed c (String c rest)
| listed_after_char a rest :
    no_range rest ->
    listed c rest ->
    listed c (String a rest).

(** The sequence of a bracket expression: at least one character, and
    no closing bracket but in the first place, where it stands for
    itself.  An exclamation mark in the first place negates the
    expression, so that the sequence of an expression that is not
    negated does not start with one. *)
Definition is_seq (negated : bool) (chars : string) : Prop :=
  match chars with
  | EmptyString => False
  | String first others =>
      ~ In "]"%char (list_ascii_of_string others)
      /\ (negated = false -> first <> "!"%char)
  end.

(** The mark of negation *)
Definition mark (negated : bool) : string := if negated then "!" else "".

(** The text of a pattern that starts with a bracket expression *)
Definition bracket (negated : bool) (chars rest : string) : string :=
  String "[" (mark negated +++ chars +++ String "]" rest).

(** An opening bracket that no closing bracket answers *)
Definition unclosed (rest : string) : Prop :=
  forall negated chars rest',
    is_seq negated chars -> String "[" rest <> bracket negated chars rest'.

(** [shell_match pattern name]: the whole name matches the pattern.
    A star stands for any run of characters, the empty one and the
    slash included; a question mark for any one character; a bracket
    expression for one character of its sequence, or for one outside
    it when negated; an opening bracket that is not closed, and every
    other character, for itself, case by case. *)
Inductive shell_match : string -> string -> Prop :=
| match_end : shell_match "" ""
| match_star_none p n :
    shell_match p n ->
    shell_match (String "*" p) n
| match_star_more p c n :
    shell_match (String "*" p) n ->
    shell_match (String "*" p) (String c n)
| match_any p c n :
    shell_match p n ->
    shell_match (String "?" p) (String c n)
| match_listed chars p c n :
    is_seq false chars ->
    listed c chars ->
    shell_match p n ->
    shell_match (bracket false chars p) (String c n)
| match_unlisted chars p c n :
    is_seq true chars ->
    ~ listed c chars ->
    shell_match p n ->
    shell_match (bracket true chars p) (String c n)
| match_unclosed p n :
    unclosed p ->
    shell_match p n ->
    shell_match (String "[" p) (String "[" n)
| match_char c p n :
    c <> "*"%char -> c <> "?"%char -> c <> "["%char ->
    shell_match p n ->
    shell_match (String c p) (String c n).




(** [s] with every [c] turned into [d] *)
Fixpoint map_char (c d : ascii) (s : string) : string :=
  match s with
  | EmptyString => EmptyString
  | String a s' => String (if Ascii.eqb a c then d else a) (map_char c d s')
  end.

(** A line that [_load_exclusion_patterns] keeps as it stands: not
    empty, not a comment, unchanged by [strip], within one line. *)
Definition pattern_line (line : string) : Prop :=
  line <> ""
  /\ PyStr.startswith line "#" = false
  /\ SrcPlugin.rstrip_space (SrcPlugin.lstrip_space line) = line
  /\ ~ In (ascii_of_nat 10) (list_ascii_of_string line).

(** The entry [e] stands for a file that the walk from [top] comes to
    and that the patterns do not exclude. *)
Definition from_walk (W : world) (patterns : list string) (example : string)
  (top : string) (n : node) (e : zip_entry) : Prop :=
  exists abs_root es name m,
    walked W patterns top n abs_root es
    /\ In (name, m) es
    /\ FS.is_dir m = false
    /\ kept W patterns abs_root name = true
    /\ archived W example (PosixPath.join abs_root name) e.


(** No opening bracket in [s] *)
Fixpoint bracket_free (s : string) : bool :=
  match s with
  | EmptyString => true
  | String a s' => negb (Ascii.eqb a "[") && bracket_free s'
  end.


(** The plugin leaves [on_config] at once: it is disabled, or MkDocs
    serves the site and the plugin is not enabled for that. *)
Definition switched_off (self : plugin) : bool :=
  negb (enabled (config self))
  || (negb (enabled_on_serve (config self)) && is_serve self).

(** An archive was written to disk. *)
Definition is_saved (ev : event) : bool :=
  match ev with
  | Saved _ _ => true
  | _ => false
  end.

(** An error was logged or a help page printed. *)
Definition is_complaint (ev : event) : bool :=
  match ev with
  | LogError _ | Help _ => true
  | _ => false
  end.

(** The three events of a run that finds nothing to complain about
    and makes a small archive *)
Definition plain_run (I : interpreter) (zip : list zip_entry) : list event :=
  [LogInfo "Started archive creation for bug report";
   Saved (example_name I +++ ".zip") zip;
   LogInfo "Archive successfully created:"].

(** The warning about an archive of more than a million bytes, if
    there is one *)
Definition size_warning (E : surroundings) (zip : list zip_entry)
  : list event :=
  if (1000000 <? nbytes E zip)%Z
  then [LogWarning "Archive exceeds recommended maximum size of 1 MB"]
  else [].

(** The call does not come back to MkDocs: the process exits with
    status 1, or an exception goes up (or the loader is still
    running). *)
Definition stops {A : Type} (o : outcome A) : Prop :=
  match o with
  | Goes _ => False
  | Ends Returns => False
  | Ends (Exits status) => status = 1%Z
  | Ends (Raises _) => True
  | Unfinished => True
  end.

(** A part of [on_config] that comes before the archive is made: it
    saves nothing; it does not return; when it exits, the status is 1
    and either violations stop the run or [root_dir] is set; and when
    violations stop the run, it goes on only after it logged
    nothing. *)
Definition prelude {A : Type} (self : plugin) (m : run A) : Prop :=
  existsb is_saved (fst m) = false
  /\ match snd m with
     | Goes _ => archive_stop_on_violation (config self) = true -> fst m = []
     | Ends Returns => False
     | Ends (Exits status) =>
         status = 1%Z
         /\ (archive_stop_on_violation (config self) = true
             \/ root_dir (config self) <> "")
     | Ends (Raises _) => True
     | Unfinished => True
     end.

(** What holds of a run of [on_config] from a point on: it does not
    come back; an archive is saved only if archives are asked for,
    under the name of the example, and the process then exits; when
    violations stop the run, a run that saves an archive logged no
    error and printed no help page; and when violations
    do not stop the run and no [root_dir] is set, a run that exits
    although archives are asked for has saved one. *)
Definition verdict (self : plugin) (I : interpreter) (m : run unit) : Prop :=
  stops (snd m)
  /\ (forall name zip,
        In (Saved name zip) (fst m) ->
        archive (config self) = true
        /\ name = example_name I +++ ".zip"
        /\ snd m = Ends (Exits 1))
  /\ (archive_stop_on_violation (config self) = true ->
      forall name zip,
        In (Saved name zip) (fst m) -> existsb is_complaint (fst m) = false)
  /\ (archive_stop_on_violation (config self) = false ->
      root_dir (config self) = "" ->
      forall status,
        snd m = Ends (Exits status) ->
        archive (config self) = true ->
        exists zip, In (Saved (example_name I +++ ".zip") zip) (fst m)).

End Spec.

(* ================================================================= *)
(** ** Small worlds, used to run the definitions *)

Module Demo.

(** A stand-in for the YAML parser that knows a handful of documents. *)
Definition parser (source : string) : option pyval :=
  if String.eqb source "child" then
    Some (PDict [(PStr "site_name", PStr "demo");
                 (PStr "INHERIT", PStr "base/parent.yml")])
  else if String.eqb source "parent" then
    Some (PDict [(PStr "INHERIT", PStr "../grand.yml")])
  else if String.eqb source "grand" then
    Some (PDict [(PStr "theme", PStr "material")])
  else if String.eqb source "loop" then
    Some (PDict [(PStr "INHERIT", PStr "loop.yml")])
  else if String.eqb source "" then Some PNone
  else None.

(** A project in [/proj], with a three-level configuration chain. *)
Definition project : world := {|
  fs_root :=
    Dir [("proj",
          Dir [("mkdocs.yml", Reg "child");
               ("base", Dir [("parent.yml", Reg "parent")]);
               ("grand.yml", Reg "grand");
               ("loop.yml", Reg "loop");
               ("broken.yml", Reg "key: [unclosed");
               ("empty.yml", Reg "");
               ("docs", Dir [("index.md", Reg "# Home");
                             ("sub", Dir [("page.md", Reg "text")])]);
               ("site", Dir [("index.html", Reg "<html>")])]);
         ("tmp", Dir [])];
  fs_cwd := ["proj"];
  os_sep := "/";
  yaml_load := parser
|}.

(** Its configuration with the projects plugin enabled: the default
    [projects] directory does not exist. *)
Definition project_config : mkdocs_config := {|
  config_file_path := "/proj/mkdocs.yml";
  docs_dir := "/proj/docs";
  site_dir := "/proj/site";
  projects_dir := Some "projects";
  project_site_dirs := [];
  visible_files := ["/proj/docs/index.md"; "/proj/docs/sub/page.md"]
|}.

(** A configuration whose documentation and projects both live in
    [/other/docs], outside the working directory. *)
Definition outside_config : mkdocs_config := {|
  config_file_path := "/proj/mkdocs.yml";
  docs_dir := "/other/docs";
  site_dir := "/proj/site";
  projects_dir := Some "/other/docs";
  project_site_dirs := [];
  visible_files := []
|}.

(** A project checked out at the root of the file system. *)
Definition at_root : world := {|
  fs_root :=
    Dir [("mkdocs.yml", Reg "grand");
         ("docs", Dir [("index.md", Reg "# Home")]);
         ("build", Dir [("out.html", Reg "<html>")])];
  fs_cwd := [];
  os_sep := "/";
  yaml_load := parser
|}.

Definition python : interpreter := {|
  present := "9.5.0";
  slug := "my-bug";
  distributions := [("mkdocs", "1.6.0"); ("jinja2", "3.1"); ("Markdown", "3.5")];
  platform_json := "{}";
  sitepackages := []
|}.

(** A project with a sub-project whose site is built outside the
    working directory, in [/tmp/proj/site], and with a directory
    [tmp/site] of its own. *)
Definition with_project : world := {|
  fs_root :=
    Dir [("proj",
          Dir [("mkdocs.yml", Reg "grand");
               ("docs", Dir [("index.md", Reg "# Home")]);
               ("tmp", Dir [("site", Dir [("notes.md", Reg "notes")])])]);
         ("tmp", Dir [("proj", Dir [("site", Dir [])])])];
  fs_cwd := ["proj"];
  os_sep := "/";
  yaml_load := parser
|}.

Definition with_project_config : mkdocs_config := {|
  config_file_path := "/proj/mkdocs.yml";
  docs_dir := "/proj/docs";
  site_dir := "/proj/site";
  projects_dir := Some "projects";
  project_site_dirs := ["/tmp/proj/site"];
  visible_files := ["/proj/docs/index.md"]
|}.

(** The plugin as it is configured by default, for [mkdocs build] *)
Definition options : plugin_config := {|
  enabled := true;
  enabled_on_serve := false;
  archive := true;
  archive_stop_on_violation := true;
  root_dir := ""
|}.

Definition building : plugin := on_startup (__init__ options) "build".

(** The latest release is the installed one; nothing is customized.
    The size of an archive is put at the length of its names and
    contents, with 22 bytes for the end record. *)
Definition up_to_date : surroundings := {|
  location :=
    Ok (Some "https://github.com/squidfunk/mkdocs-material/releases/tag/9.5.0");
  theme_dirs := ["/lib/material/templates"; "/lib/mkdocs/templates"];
  theme_dir := "/lib/material/templates";
  hooks := [];
  mdx_configs := [];
  gitignore := "*.pyc";
  nbytes := fun zip =>
    fold_right
      (fun e total =>
         (Z.of_nat (String.length (filename e) + String.length (data e))
          + total)%Z)
      22%Z zip
|}.

(** The configuration of the project at the root of the file system *)
Definition root_config : mkdocs_config := {|
  config_file_path := "mkdocs.yml";
  docs_dir := "/docs";
  site_dir := "/build";
  projects_dir := None;
  project_site_dirs := [];
  visible_files := ["/docs/index.md"]
|}.

(** The project in [/proj] when MkDocs is started there with
    [-f mkdocs.yml]: the path of the configuration file is the one
    typed. *)
Definition as_given : mkdocs_config := {|
  config_file_path := "mkdocs.yml";
  docs_dir := "/proj/docs";
  site_dir := "/proj/site";
  projects_dir := None;
  project_site_dirs := [];
  visible_files := ["/proj/docs/index.md"; "/proj/docs/sub/page.md"]
|}.

(** The plugin with [root_dir] set to the directory MkDocs runs in *)
Definition rooted : plugin_config := {|
  enabled := true;
  enabled_on_serve := false;
  archive := true;
  archive_stop_on_violation := true;
  root_dir := "."
|}.

(** A project that has a file [platform.json] of its own *)
Definition with_platform : world := {|
  fs_root :=
    Dir [("mkdocs.yml", Reg "grand");
         ("platform.json", Reg "mine")];
  fs_cwd := [];
  os_sep := "/";
  yaml_load := parser
|}.

(** Snippets are read from [docs] and from [/other]. *)
Definition with_snippets : list (string * list (pyval * pyval)) :=
  [("pymdownx.snippets",
    [(PStr "base_path", PList [PStr "docs"; PStr "/other"])])].

(** The archive of the project at the root, with [build/] excluded *)
Definition archive : list zip_entry :=
  Eval vm_compute in
    match SrcPlugin.create_archive at_root python ["build/"] with
    | Ok zip => zip
    | Raised _ => []
    end.

(** A project whose configuration inherits from a path that is a
    directory. *)
Definition inherits_folder : world := {|
  fs_root :=
    Dir [("proj",
          Dir [("mkdocs.yml", Reg "child");
               ("base", Dir [("parent.yml", Dir [])])])];
  fs_cwd := ["proj"];
  os_sep := "/";
  yaml_load := parser
|}.

End Demo.

(* ================================================================= *)
(** ** Facts about the string methods *)

Module StrFacts.

Import PyStr.

Lemma append_empty_r (s : string) : s +++ "" = s.
Proof. induction s as [|a s IH]; simpl; [reflexivity | now rewrite IH]. Qed.

Lemma append_assoc (a b c : string) : (a +++ b) +++ c = a +++ b +++ c.
Proof. induction a as [|x a IH]; simpl; [reflexivity | now rewrite IH]. Qed.

Lemma length_append (a b : string) :
  String.length (a +++ b) = String.length a + String.length b.
Proof. induction a as [|x a IH]; simpl; [reflexivity | now rewrite IH]. Qed.

Lemma startswith_append (p r : string) : startswith (p +++ r) p = true.
Proof.
  induction p as [|a p IH]; simpl; [reflexivity|].
  now rewrite Ascii.eqb_refl, IH.
Qed.

Lemma startswith_inv (s p : string) :
  startswith s p = true -> exists r, s = p +++ r.
Proof.
  revert s; induction p as [|a p IH]; intros s H; simpl in *.
  - now exists s.
  - destruct s as [|b s]; [discriminate|].
    apply andb_true_iff in H as [Hab Hs].
    apply Ascii.eqb_eq in Hab; subst b.
    destruct (IH _ Hs) as [r ->]. now exists r.
Qed.

Lemma startswith_empty (p : string) :
  startswith "" p = true -> p = "".
Proof. destruct p; simpl; [reflexivity | discriminate]. Qed.

Lemma drop_append (p r : string) : drop (String.length p) (p +++ r) = r.
Proof. induction p as [|a p IH]; simpl; [reflexivity | exact IH]. Qed.

Lemma nonempty_true (s : string) : nonempty s = true <-> s <> "".
Proof. destruct s; simpl; split; congruence. Qed.

Lemma nonempty_false (s : string) : nonempty s = false <-> s = "".
Proof. destruct s; simpl; split; congruence. Qed.

Lemma nonempty_append_l (a b : string) :
  nonempty a = true -> nonempty (a +++ b) = true.
Proof. destruct a; simpl; congruence. Qed.

(** Once no replacement is left, the scan only passes over what
    remains of the last match. *)
Lemma replace_from_done (old new : string) (k : nat) (s : string) :
  replace_from old new k 0 s = drop k s.
Proof.
  revert k; induction s as [|c s IH]; intros [|k]; simpl; try reflexivity.
  apply IH.
Qed.

(** A match at the very start is the one that is replaced. *)
Lemma replace_first_prefix (old new rest : string) :
  old <> "" ->
  replace (old +++ rest) old new (Some 1) = new +++ rest.
Proof.
  intros Hold. destruct old as [|a old']; [congruence|].
  unfold replace. cbn [String.append replace_from].
  change (String a (old' +++ rest)) with (String a old' +++ rest).
  rewrite startswith_append, replace_from_done.
  now rewrite drop_append.
Qed.

(** Where [old] does not match, the scan moves on by one character. *)
Lemma replace_from_skip_char (old new : string) (n : nat) (c : ascii)
  (s : string) :
  old <> "" ->
  startswith (String c s) old = false ->
  replace_from old new 0 (S n) (String c s)
  = String c (replace_from old new 0 (S n) s).
Proof.
  intros Hold Hno. destruct old as [|a old']; [congruence|].
  cbn [replace_from]. now rewrite Hno.
Qed.

(** The first occurrence is replaced wherever it stands. *)
Lemma replace_first_inner (old new pre post : string) :
  old <> "" ->
  (forall i, i < String.length pre ->
             startswith (drop i (pre +++ old +++ post)) old = false) ->
  replace (pre +++ old +++ post) old new (Some 1) = pre +++ new +++ post.
Proof.
  intros Hold. induction pre as [|c pre IH]; intros Hno.
  - simpl. now apply replace_first_prefix.
  - unfold replace in *. cbn [String.append].
    rewrite replace_from_skip_char; trivial.
    + f_equal. apply IH. intros i Hi.
      apply (Hno (S i)). simpl. lia.
    + apply (Hno 0). simpl. lia.
Qed.

(** Without an occurrence nothing changes. *)
Lemma replace_from_absent (old new : string) (n : nat) (s : string) :
  old <> "" ->
  contains s old = false ->
  replace_from old new 0 n s = s.
Proof.
  intros Hold. induction s as [|c s IH]; intros Hno.
  - destruct n, old; simpl; congruence.
  - simpl in Hno. apply orb_false_iff in Hno as [H0 Hs].
    destruct n as [|n]; [reflexivity|].
    rewrite replace_from_skip_char by assumption.
    now rewrite IH.
Qed.

(** A scan that puts a non-empty [new] in never empties the string. *)
Lemma replace_from_nonempty (old new : string) (n : nat) (s : string) :
  new <> "" -> s <> "" -> replace_from old new 0 n s <> "".
Proof.
  intros Hnew Hs. destruct s as [|c s]; [congruence|].
  destruct new as [|d new]; [congruence|].
  destruct n as [|n]; cbn [replace_from]; [discriminate|].
  destruct old as [|a old']; [discriminate|].
  destruct (startswith (String c s) (String a old')); discriminate.
Qed.

(** Replacing every occurrence of a one-character [old] by a
    one-character [new] acts character by character. *)
Lemma replace_from_chars (c d : ascii) (n : nat) (s : string) :
  String.length s <= n ->
  replace_from (String c "") (String d "") 0 n s = Spec.map_char c d s.
Proof.
  revert n; induction s as [|a s IH]; intros n Hn; simpl in Hn.
  - destruct n; reflexivity.
  - destruct n as [|n]; [lia|].
    cbn [replace_from startswith String.length Spec.map_char].
    rewrite Ascii.eqb_sym.
    destruct (Ascii.eqb a c); simpl.
    + f_equal. apply IH. lia.
    + f_equal. change (replace_from (String c "") (String d "") 0 (S n) s
                       = Spec.map_char c d s). apply IH. lia.
Qed.

Lemma replace_all_chars (c d : ascii) (s : string) :
  replace s (String c "") (String d "") None = Spec.map_char c d s.
Proof. unfold replace. apply replace_from_chars. lia. Qed.

Lemma map_char_same (c : ascii) (s : string) : Spec.map_char c c s = s.
Proof.
  induction s as [|a s IH]; simpl; [reflexivity|].
  rewrite IH. destruct (Ascii.eqb a c) eqn:E; [|reflexivity].
  apply Ascii.eqb_eq in E. now subst.
Qed.

End StrFacts.

(* ================================================================= *)
(** ** The exclusion engine: [_resolve_pattern] and [_is_excluded] *)

Module PatternFacts.

Import PyStr StrFacts.

Lemma getcwd_nonempty (W : world) : Os.getcwd W <> "".
Proof. unfold Os.getcwd. discriminate. Qed.

(** The working directory itself is the root of the reproduction. *)
Lemma resolve_pattern_cwd (W : world) :
  os_sep W <> "" ->
  SrcPlugin._resolve_pattern W (Os.getcwd W) = "/".
Proof.
  intros Hsep. unfold SrcPlugin._resolve_pattern.
  rewrite <- (append_empty_r (Os.getcwd W)) at 1.
  rewrite replace_first_prefix by apply getcwd_nonempty.
  simpl. destruct (os_sep W); [congruence | reflexivity].
Qed.

(** Below the working directory the prefix goes, the separators are
    converted, and anything but a regular file gets a final slash. *)
Lemma resolve_pattern_under_cwd (W : world) (rest : string) :
  rest <> "" ->
  SrcPlugin._resolve_pattern W (Os.getcwd W +++ rest)
  = replace rest (os_sep W) "/" None
    +++ (if Os.isfile W (Os.getcwd W +++ rest) then "" else "/").
Proof.
  intros Hrest. unfold SrcPlugin._resolve_pattern.
  rewrite replace_first_prefix by apply getcwd_nonempty.
  cbn [String.append].
  assert (Hne : nonempty (replace rest (os_sep W) "/" None) = true).
  { apply nonempty_true. unfold replace.
    apply replace_from_nonempty; [discriminate | assumption]. }
  rewrite Hne. cbn [negb].
  destruct (Os.isfile W (Os.getcwd W +++ rest)); cbn [negb].
  - now rewrite append_empty_r.
  - reflexivity.
Qed.

(** With a one-character separator the conversion is character by
    character. *)
Lemma resolve_pattern_under_cwd_sep (W : world) (c : ascii) (rest : string) :
  os_sep W = String c "" ->
  rest <> "" ->
  SrcPlugin._resolve_pattern W (Os.getcwd W +++ rest)
  = Spec.map_char c "/" rest
    +++ (if Os.isfile W (Os.getcwd W +++ rest) then "" else "/").
Proof.
  intros Hsep Hrest. rewrite resolve_pattern_under_cwd by assumption.
  now rewrite Hsep, replace_all_chars.
Qed.

Lemma is_excluded_existsb (patterns : list string) (path : string) :
  SrcPlugin._is_excluded patterns path
  = existsb (Fnmatch.fnmatchcase path) patterns.
Proof.
  induction patterns as [|p ps IH]; simpl; [reflexivity|].
  rewrite IH. now destruct (Fnmatch.fnmatchcase path p).
Qed.

Lemma is_excluded_true (patterns : list string) (path : string) :
  SrcPlugin._is_excluded patterns path = true <->
  exists pattern, In pattern patterns /\ Fnmatch.fnmatchcase path pattern = true.
Proof. rewrite is_excluded_existsb. apply existsb_exists. Qed.

(** The matcher decides the relation [Spec.glob]. *)
Lemma star_matches (res : list Fnmatch.tok) (name : string) :
  Fnmatch.matches (Fnmatch.TStar :: res) name
  = Fnmatch.matches res name
    || match name with
       | EmptyString => false
       | String _ n' => Fnmatch.matches (Fnmatch.TStar :: res) n'
       end.
Proof. destruct name; reflexivity. Qed.


End PatternFacts.

(* ================================================================= *)
(** ** [fnmatch.translate] and the wildcards of the shell *)

Module ShellFacts.

Import Spec.

(** *** The members of a bracket expression *)

Lemma set_items_step (a : ascii) (rest : string) :
  Fnmatch.set_items (String a rest)
  = match rest with
    | String b (String hi r) =>
        if Ascii.eqb b "-" then Fnmatch.Range a hi :: Fnmatch.set_items r
        else Fnmatch.One a :: Fnmatch.set_items rest
    | _ => Fnmatch.One a :: Fnmatch.set_items rest
    end.
Proof.
  destruct rest as [|b [|hi r]]; try reflexivity.
  - destruct b as [[] [] [] [] [] [] [] []]; reflexivity.
  - destruct b as [[] [] [] [] [] [] [] []]; reflexivity.
Qed.

Lemma set_items_char (a : ascii) (rest : string) :
  no_range rest ->
  Fnmatch.set_items (String a rest) = Fnmatch.One a :: Fnmatch.set_items rest.
Proof.
  intros H. rewrite set_items_step. destruct rest as [|b [|hi r]]; try reflexivity.
  destruct (Ascii.eqb_spec b "-") as [->|_]; [|reflexivity].
  now destruct (H hi r).
Qed.

Lemma range_or_not (rest : string) :
  (exists hi r, rest = String "-" (String hi r)) \/ no_range rest.
Proof.
  destruct rest as [|b [|hi r]]; try (right; intros hi' r'; discriminate).
  destruct (Ascii.eqb_spec b "-") as [->|N].
  - left. eauto.
  - right. intros hi' r' H. injection H as -> _ _. now apply N.
Qed.

Lemma listed_items_len (n : nat) :
  forall (c : ascii) (chars : string),
    String.length chars <= n ->
    (listed c chars <->
     existsb (Fnmatch.item_matches c) (Fnmatch.set_items chars) = true).
Proof.
  induction n as [|n IH]; intros c chars Hlen.
  - destruct chars; [|simpl in Hlen; lia]. split; [inversion 1 | discriminate].
  - destruct chars as [|a rest]; [split; [inversion 1 | discriminate]|].
    simpl in Hlen.
    destruct (range_or_not rest) as [(hi & r & ->)|Hno].
    + change (Fnmatch.set_items (String a (String "-" (String hi r))))
        with (Fnmatch.Range a hi :: Fnmatch.set_items r).
      cbn [existsb Fnmatch.item_matches]. rewrite orb_true_iff, andb_true_iff.
      rewrite !Nat.leb_le. simpl in Hlen.
      rewrite <- (IH c r) by lia. split.
      * inversion 1 as [lo hi' r' Hr|lo hi' r' Hr|r' Hr|a' r' Hr Hl]; subst.
        -- now left.
        -- now right.
        -- now destruct (Hr hi r).
        -- now destruct (Hr hi r).
      * intros [H|H]; [now apply listed_range | now apply listed_after_range].
    + rewrite set_items_char by assumption.
      cbn [existsb Fnmatch.item_matches]. rewrite orb_true_iff.
      rewrite <- (IH c rest) by lia. split.
      * inversion 1 as [lo hi' r' Hr|lo hi' r' Hr|r' Hr|a' r' Hr Hl]; subst.
        -- now destruct (Hno hi' r').
        -- now destruct (Hno hi' r').
        -- left. apply Ascii.eqb_refl.
        -- now right.
      * intros [H|H].
        -- apply Ascii.eqb_eq in H. subst a. now apply listed_alone.
        -- now apply listed_after_char.
Qed.

Lemma listed_items (c : ascii) (chars : string) :
  listed c chars <->
  existsb (Fnmatch.item_matches c) (Fnmatch.set_items chars) = true.
Proof. now apply (listed_items_len (String.length chars)). Qed.




(** *** The closing bracket *)

Lemma find_char_first (c : ascii) (pre post : string) :
  ~ In c (list_ascii_of_string pre) ->
  Fnmatch.find_char c (pre +++ String c post) = Some (String.length pre).
Proof.
  induction pre as [|a pre IH]; cbn [String.append Fnmatch.find_char
                                      list_ascii_of_string String.length].
  - now rewrite Ascii.eqb_refl.
  - intros H. destruct (Ascii.eqb_spec a c) as [->|_].
    + exfalso. apply H. now left.
    + rewrite IH; [reflexivity|]. intros Hin. apply H. now right.
Qed.


Lemma head_bang (rest : string) :
  match rest with
  | String "!" r => (1, r)
  | _ => (0, rest)
  end
  = match rest with
    | String a r => if Ascii.eqb a "!" then (1, r) else (0, rest)
    | EmptyString => (0, rest)
    end.
Proof.
  destruct rest as [|a r]; [reflexivity|].
  destruct a as [[] [] [] [] [] [] [] []]; reflexivity.
Qed.

Lemma head_close (j0 : nat) (r0 : string) :
  match r0 with
  | String "]" r => (S j0, r)
  | _ => (j0, r0)
  end
  = match r0 with
    | String a r => if Ascii.eqb a "]" then (S j0, r) else (j0, r0)
    | EmptyString => (j0, r0)
    end.
Proof.
  destruct r0 as [|a r]; [reflexivity|].
  destruct a as [[] [] [] [] [] [] [] []]; reflexivity.
Qed.

(** The scan, by the first character after the mark of negation *)
Lemma scan_from (j0 : nat) (r0 : string) :
  (let '(j1, r1) :=
     match r0 with
     | String "]" r => (S j0, r)
     | _ => (j0, r0)
     end in
   match Fnmatch.find_char "]" r1 with
   | Some k => Some (j1 + k)
   | None => None
   end)
  = match r0 with
    | EmptyString => None
    | String first others =>
        match Fnmatch.find_char "]" others with
        | Some k => Some (j0 + S k)
        | None => None
        end
    end.
Proof.
  rewrite head_close. destruct r0 as [|a r]; [reflexivity|].
  destruct (Ascii.eqb a "]") eqn:E.
  - destruct (Fnmatch.find_char "]" r); [f_equal; lia | reflexivity].
  - cbn [Fnmatch.find_char]. rewrite E.
    destruct (Fnmatch.find_char "]" r); [f_equal; lia | reflexivity].
Qed.

Lemma bracket_close_scan (rest : string) :
  Fnmatch.bracket_close rest
  = match rest with
    | EmptyString => None
    | String a r =>
        let '(j0, r0) := if Ascii.eqb a "!" then (1, r) else (0, rest) in
        match r0 with
        | EmptyString => None
        | String first others =>
            match Fnmatch.find_char "]" others with
            | Some k => Some (j0 + S k)
            | None => None
            end
        end
    end.
Proof.
  unfold Fnmatch.bracket_close. rewrite head_bang.
  destruct rest as [|a r]; [reflexivity|].
  destruct (Ascii.eqb a "!");
    [exact (scan_from 1 r) | exact (scan_from 0 (String a r))].
Qed.

(** *** Bracket expressions *)

Lemma bracket_close_seq (negated : bool) (chars rest : string) :
  is_seq negated chars ->
  Fnmatch.bracket_close (mark negated +++ chars +++ String "]" rest)
  = Some (String.length (mark negated +++ chars)).
Proof.
  destruct chars as [|first others]; [intros []|]. intros [Hno Hfirst].
  rewrite bracket_close_scan. destruct negated; cbn [mark String.append].
  - change (Ascii.eqb "!" "!") with true. cbv iota.
    rewrite find_char_first by assumption.
    cbn [String.length]. f_equal.
  - destruct (Ascii.eqb_spec first "!") as [E|_]; [now destruct Hfirst|].
    rewrite find_char_first by assumption.
    cbn [String.length]. f_equal.
Qed.







(** *** The translated pattern matches as the pattern reads *)





(** *** One reading of a pattern *)

Lemma append_same_length (a b x y : string) :
  String.length a = String.length b ->
  a +++ x = b +++ y ->
  a = b /\ x = y.
Proof.
  revert b. induction a as [|c a IH]; intros [|d b]; try discriminate.
  - now intros _ H.
  - cbn [String.length String.append]. intros Hlen H.
    injection Hlen as Hlen. injection H as -> H.
    destruct (IH b Hlen H) as [-> ->]. now split.
Qed.

Lemma bracket_one (n1 n2 : bool) (c1 c2 p1 p2 : string) :
  is_seq n1 c1 ->
  is_seq n2 c2 ->
  bracket n1 c1 p1 = bracket n2 c2 p2 ->
  n1 = n2 /\ c1 = c2 /\ p1 = p2.
Proof.
  intros H1 H2 E. unfold bracket in E. injection E as E.
  pose proof (bracket_close_seq n1 c1 p1 H1) as B1.
  pose proof (bracket_close_seq n2 c2 p2 H2) as B2.
  rewrite E, B2 in B1. injection B1 as Hlen.
  assert (Hn : n1 = n2).
  { destruct c1 as [|f1 o1]; [destruct H1|].
    destruct c2 as [|f2 o2]; [destruct H2|].
    destruct H1 as [_ F1], H2 as [_ F2].
    destruct n1, n2; try reflexivity; cbn [mark String.append] in E;
      injection E as E _.
    - now destruct (F2 eq_refl).
    - now destruct (F1 eq_refl). }
  subst n2. split; [reflexivity|].
  rewrite <- !StrFacts.append_assoc in E.
  destruct (append_same_length _ _ _ _ (eq_sym Hlen) E) as [Ec Ep].
  injection Ep as ->.
  destruct n1; cbn [mark String.append] in Ec.
  - now injection Ec as ->.
  - now subst.
Qed.







End ShellFacts.

(* ================================================================= *)
(** ** The validation loops *)

Module ValidateFacts.

(** Removing the element found at index [i] drops its first
    occurrence, which stands at [i] or before: what follows index [i]
    moves one place down. *)
Lemma list_remove_nth (f : string -> bool) (l : list string) (i : nat)
  (x : string) :
  nth_error l i = Some x ->
  exists l',
    Py.list_remove x l = Some l'
    /\ skipn i l' = skipn (S i) l
    /\ List.length l = S (List.length l')
    /\ (f x = false -> filter f l' = filter f l).
Proof.
  revert i. induction l as [|y l IH]; intros i Hi.
  - destruct i; discriminate.
  - simpl. destruct (String.eqb y x) eqn:E.
    + apply String.eqb_eq in E. subst y. exists l.
      split; [reflexivity|]. split; [reflexivity|]. split; [reflexivity|].
      intros Hf. simpl. now rewrite Hf.
    + destruct i as [|i].
      * simpl in Hi. injection Hi as ->.
        rewrite String.eqb_refl in E. discriminate.
      * simpl in Hi. destruct (IH i Hi) as [r [Hr [Hs [Hl Hf]]]].
        rewrite Hr. exists (y :: r).
        split; [reflexivity|]. split; [exact Hs|].
        split; [simpl; now rewrite Hl|].
        intros Hx. simpl. now rewrite (Hf Hx).
Qed.

Lemma filter_all (f : string -> bool) (l : list string) :
  (forall x, In x l -> f x = true) -> filter f l = l.
Proof.
  induction l as [|y l IH]; intros H; simpl; [reflexivity|].
  rewrite (H y (or_introl eq_refl)). f_equal. apply IH.
  intros x Hx. apply H. now right.
Qed.

(** The reverse iteration with removal leaves exactly the paths that
    fail the test, in their order. *)
Lemma prune_reversed_filter (cwd : string) (n : nat) (l : list string) :
  n <= List.length l ->
  (forall x, In x (skipn n l) -> Spec.stays cwd x = true) ->
  SrcPlugin.prune_reversed cwd n l = Ok (filter (Spec.stays cwd) l).
Proof.
  revert l. induction n as [|i IH]; intros l Hlen Hkept.
  - simpl. now rewrite filter_all.
  - simpl. destruct (nth_error l i) as [path|] eqn:Hnth.
    2:{ apply nth_error_None in Hnth. lia. }
    destruct (list_remove_nth (Spec.stays cwd) l i path Hnth)
      as [l' [Hrem [Hskip [Hl Hf]]]].
    assert (Hcons : skipn i l = path :: skipn (S i) l).
    { clear - Hnth. revert l Hnth. induction i as [|i IHi]; intros l Hnth.
      - destruct l; [discriminate|]. simpl in *. congruence.
      - destruct l as [|y l]; [discriminate|]. simpl in Hnth.
        change (skipn (S i) (y :: l)) with (skipn i l).
        rewrite (IHi l Hnth). reflexivity. }
    destruct (negb (PyStr.nonempty path) || PyStr.startswith path cwd) eqn:E.
    + rewrite Hrem. rewrite IH.
      * rewrite Hf; [reflexivity|]. unfold Spec.stays. now rewrite E.
      * lia.
      * intros x Hx. apply Hkept. now rewrite <- Hskip.
    + apply IH; [lia|]. intros x Hx. rewrite Hcons in Hx.
      destruct Hx as [<-|Hx].
      * unfold Spec.stays. now rewrite E.
      * now apply Hkept.
Qed.

Lemma src_validate_paths (W : world) (paths : list string) :
  SrcPlugin.validate_paths W paths
  = Ok (filter (Spec.stays (Os.getcwd W)) paths).
Proof.
  unfold SrcPlugin.validate_paths. apply prune_reversed_filter.
  - lia.
  - intros x Hx. rewrite skipn_all in Hx. destruct Hx.
Qed.

Lemma material_validate_from (W : world) (paths acc : list string) :
  fold_left (MaterialPlugin.validate_step W) paths acc
  = acc ++ filter (Spec.invalid W) paths.
Proof.
  revert acc. induction paths as [|p paths IH]; intros acc; simpl.
  - now rewrite app_nil_r.
  - rewrite IH. unfold MaterialPlugin.validate_step, Spec.invalid.
    destruct (PyStr.startswith p (Os.getcwd W)); simpl.
    + destruct (Os.path_exists W p); simpl.
      * reflexivity.
      * now rewrite <- app_assoc.
    + now rewrite <- app_assoc.
Qed.

Lemma material_validate_paths (W : world) (paths : list string) :
  MaterialPlugin.validate_paths W paths = filter (Spec.invalid W) paths.
Proof. apply (material_validate_from W paths []). Qed.

Lemma count_occ_filter (f : string -> bool) (l : list string) (p : string) :
  count_occ string_dec (filter f l) p
  = if f p then count_occ string_dec l p else 0.
Proof.
  induction l as [|y l IH]; simpl.
  - now destruct (f p).
  - destruct (f y) eqn:Ey; simpl.
    + destruct (string_dec y p) as [->|Hne].
      * rewrite IH, Ey. reflexivity.
      * rewrite IH. reflexivity.
    + destruct (string_dec y p) as [->|Hne].
      * rewrite IH, Ey. reflexivity.
      * exact IH.
Qed.

Lemma stays_true (cwd p : string) :
  Spec.stays cwd p = true <-> p <> "" /\ PyStr.startswith p cwd = false.
Proof.
  unfold Spec.stays. destruct p as [|a p]; simpl.
  - split; [discriminate | intros [H _]; congruence].
  - destruct (PyStr.startswith (String a p) cwd); simpl; split;
      try discriminate; try (intros [_ H]; discriminate);
      intros _; split; [discriminate | reflexivity].
Qed.

Lemma invalid_true (W : world) (p : string) :
  Spec.invalid W p = true <->
  PyStr.startswith p (Os.getcwd W) = false \/ Os.path_exists W p = false.
Proof.
  unfold Spec.invalid.
  destruct (PyStr.startswith p (Os.getcwd W)), (Os.path_exists W p);
    simpl; intuition congruence.
Qed.

End ValidateFacts.

(* ================================================================= *)
(** ** Paths *)

Module PathFacts.

Import PyStr StrFacts.


Lemma isabs_inv (s : string) :
  PosixPath.isabs s = true <-> exists r, s = String "/" r.
Proof.
  unfold PosixPath.isabs. split.
  - intros H. apply startswith_inv in H as [r ->]. now exists r.
  - intros [r ->]. reflexivity.
Qed.




Lemma isabs_append (a b : string) :
  PosixPath.isabs a = true -> PosixPath.isabs (a +++ b) = true.
Proof. intros H. apply isabs_inv in H as [r ->]. reflexivity. Qed.

(** Joining onto an absolute path gives an absolute path. *)
Lemma join_absolute (a b : string) :
  PosixPath.isabs a = true -> PosixPath.isabs (PosixPath.join a b) = true.
Proof.
  intros Ha. unfold PosixPath.join, PosixPath.joinl. cbn [fold_left].
  unfold PosixPath.join_step.
  destruct (startswith b "/") eqn:Hb; [exact Hb|].
  destruct (negb (nonempty a) || endswith_char a PosixPath.sep);
    now apply isabs_append.
Qed.

(** Normalisation keeps a path absolute. *)
Lemma normpath_absolute (p : string) :
  PosixPath.isabs p = true -> PosixPath.isabs (PosixPath.normpath p) = true.
Proof.
  intros Hp. apply isabs_inv in Hp as [r ->]. unfold PosixPath.normpath.
  cbn [nonempty negb].
  change (startswith (String "/" r) "/") with true. cbv iota.
  destruct (startswith (String "/" r) "//"
            && negb (startswith (String "/" r) "///"));
    reflexivity.
Qed.


End PathFacts.

(* ================================================================= *)
(** ** The configuration loader *)

Module LoaderFacts.

Import Spec.

Lemma or_empty_dict (d : list (pyval * pyval)) :
  Py.or_empty (PDict d) = PDict d.
Proof. now destruct d. Qed.

Lemma or_empty_not_none (v : pyval) : Py.or_empty v <> PNone.
Proof. unfold Py.or_empty. destruct v; simpl; try discriminate.
  - destruct b; discriminate.
  - destruct (negb (Z.eqb z 0)); discriminate.
  - destruct (PyStr.nonempty s); discriminate.
  - destruct l; discriminate.
  - destruct items; discriminate.
Qed.

Lemma or_empty_falsy (v : pyval) :
  Py.truthy v = false -> Py.or_empty v = PDict [].
Proof. unfold Py.or_empty. now intros ->. Qed.

Lemma dict_set_nonempty (key : string) (v : pyval) (d : list (pyval * pyval)) :
  Py.dict_set key v d <> [].
Proof.
  destruct d as [|[k v0] d]; simpl; [discriminate|].
  destruct (Py.eq_str key k); discriminate.
Qed.

Lemma dict_get_set (key : string) (v : pyval) (d : list (pyval * pyval)) :
  Py.dict_get key (Py.dict_set key v d) = Some v.
Proof.
  induction d as [|[k v0] d IH]; simpl.
  - now rewrite String.eqb_refl.
  - destruct (Py.eq_str key k) eqn:E; simpl; now rewrite E.
Qed.

(** The two loaders are one function. *)
Lemma yaml_load_same (W : world) (fuel : nat) (path : string) :
  MaterialPlugin._yaml_load W fuel path = SrcPlugin._load_yaml W fuel path.
Proof. reflexivity. Qed.

(** A file without a parent to follow is loaded at once. *)
Lemma load_without_inherit (W : world) (fuel : nat) (path source : string)
  (d : list (pyval * pyval)) :
  Os.read W path = Ok source ->
  yaml_or_empty W source = PDict d ->
  Py.dict_get "INHERIT" d = None ->
  SrcPlugin._load_yaml W (S fuel) path = Some (Ok (PDict d)).
Proof.
  intros R Y G. simpl. rewrite R, Y. simpl. unfold Py.has_key.
  rewrite G. now rewrite or_empty_dict.
Qed.

(** A file with a parent that exists is loaded after its parent. *)
Lemma load_with_inherit (W : world) (fuel : nat) (path source relpath : string)
  (d : list (pyval * pyval)) :
  Os.read W path = Ok source ->
  yaml_or_empty W source = PDict d ->
  Py.dict_get "INHERIT" d = Some (PStr relpath) ->
  let abspath :=
    PosixPath.normpath (PosixPath.join (PosixPath.dirname path) relpath) in
  Os.path_exists W abspath = true ->
  SrcPlugin._load_yaml W (S fuel) path
  = option_map
      (after (PDict (Py.dict_set "INHERIT" (PStr abspath) d)))
      (SrcPlugin._load_yaml W fuel abspath).
Proof.
  intros R Y G abspath X. simpl. rewrite R, Y. simpl. unfold Py.has_key.
  rewrite G. simpl. fold abspath. rewrite X.
  destruct (SrcPlugin._load_yaml W fuel abspath) as [[parent|e]|];
    reflexivity.
Qed.

(** Every value the loader returns went through [... if result else {}]. *)
Lemma load_returns_or_empty (W : world) (fuel : nat) (path : string)
  (v : pyval) :
  SrcPlugin._load_yaml W fuel path = Some (Ok v) ->
  exists x, v = Py.or_empty x.
Proof.
  destruct fuel as [|fuel]; [discriminate|]. simpl.
  destruct (Os.read W path) as [source|e]; [|discriminate].
  destruct (Py.contains "INHERIT" (yaml_or_empty W source)) as [[|]|e];
    try discriminate.
  - destruct (v0 <- Py.get "INHERIT" (yaml_or_empty W source);; Py.as_path v0)
      as [relpath|e]; [|discriminate].
    destruct (Os.path_exists W _).
    + destruct (Py.setitem _ _ _) as [r|e]; [|discriminate].
      destruct (SrcPlugin._load_yaml W fuel _) as [[parent|e]|];
        try discriminate.
      intros H. injection H as <-. eauto.
    + intros H. injection H as <-. eauto.
  - intros H. injection H as <-. eauto.
Qed.

(** The loader calls itself exactly on [Spec.inherit_target]. *)
Lemma load_step_end (W : world) (path : string) :
  Spec.inherit_target W path = None ->
  exists r, forall fuel, SrcPlugin._load_yaml W (S fuel) path = Some r.
Proof.
  unfold Spec.inherit_target. simpl.
  destruct (Os.read W path) as [source|e]; [|eauto].
  destruct (yaml_or_empty W source) as [| | |s|l|d] eqn:Y; simpl; eauto.
  - destruct (PyStr.contains s "INHERIT"); eauto.
  - destruct (existsb (Py.eq_str "INHERIT") l); eauto.
  - unfold Py.has_key.
    destruct (Py.dict_get "INHERIT" d) as [v|] eqn:G; simpl; [|eauto].
    destruct v; simpl; eauto.
    destruct (Os.path_exists W _); [discriminate | eauto].
Qed.

Lemma load_step_target (W : world) (path parent : string) :
  Spec.inherit_target W path = Some parent ->
  exists fragment, forall fuel,
    SrcPlugin._load_yaml W (S fuel) path
    = option_map (after fragment) (SrcPlugin._load_yaml W fuel parent).
Proof.
  unfold Spec.inherit_target.
  destruct (Os.read W path) as [source|e] eqn:R; [|discriminate].
  destruct (yaml_or_empty W source) as [| | |s|l|d] eqn:Y; simpl;
    try discriminate.
  destruct (Py.dict_get "INHERIT" d) as [v|] eqn:G; simpl; [|discriminate].
  destruct v as [| | |relpath| |]; try discriminate.
  destruct (Os.path_exists W _) eqn:X; [|discriminate].
  intros H. injection H as <-.
  eexists. intros fuel.
  now apply (load_with_inherit W fuel path source relpath d).
Qed.

(** The loader answers with fuel [n] exactly when the chain has no
    [n]-th file, and more fuel does not change the answer. *)
Lemma load_answers (W : world) (n : nat) (path : string) :
  Spec.chain_at W path n = None ->
  exists r, forall k, SrcPlugin._load_yaml W (n + k) path = Some r.
Proof.
  revert path. induction n as [|n IH]; intros path H; [discriminate|].
  simpl in H. destruct (Spec.inherit_target W path) as [parent|] eqn:T.
  - destruct (load_step_target W path parent T) as [fragment Hstep].
    destruct (IH parent H) as [r Hr].
    exists (after fragment r). intros k.
    change (S n + k) with (S (n + k)). rewrite Hstep, Hr. reflexivity.
  - destruct (load_step_end W path T) as [r Hr].
    exists r. intros k. apply Hr.
Qed.

Lemma load_runs_out (W : world) (n : nat) (path : string) :
  Spec.chain_at W path n <> None ->
  SrcPlugin._load_yaml W n path = None.
Proof.
  revert path. induction n as [|n IH]; intros path H; [reflexivity|].
  simpl in H. destruct (Spec.inherit_target W path) as [parent|] eqn:T.
  - destruct (load_step_target W path parent T) as [fragment ->].
    now rewrite (IH parent H).
  - congruence.
Qed.

Lemma chain_at_add (W : world) (path : string) (i k : nat) :
  Spec.chain_at W path (i + k)
  = match Spec.chain_at W path i with
    | Some a => Spec.chain_at W a k
    | None => None
    end.
Proof.
  revert path. induction i as [|i IH]; intros path; simpl; [reflexivity|].
  destruct (Spec.inherit_target W path); [apply IH | reflexivity].
Qed.

Lemma chain_at_ends (W : world) (path : string) (i k : nat) :
  Spec.chain_at W path i = None -> Spec.chain_at W path (i + k) = None.
Proof. intros H. now rewrite chain_at_add, H. Qed.

Lemma chain_at_succ (W : world) (path : string) (n : nat) :
  Spec.chain_at W path (S n)
  = match Spec.chain_at W path n with
    | Some a => Spec.inherit_target W a
    | None => None
    end.
Proof.
  replace (S n) with (n + 1) by lia. rewrite chain_at_add.
  destruct (Spec.chain_at W path n); [|reflexivity].
  simpl. now destruct (Spec.inherit_target W s).
Qed.

(** Every file of the chain but the first was found by
    [os.path.exists], so it has a place in the tree. *)
Lemma get_located (n : node) (l : loc) (m : node) :
  FS.get n l = Some m -> In l (FS.locs n).
Proof.
  revert n. induction l as [|name l IH]; intros n H.
  - destruct n; simpl; now left.
  - destruct n as [| |es]; try discriminate. simpl in H.
    simpl. right.
    induction es as [|[n0 x] es IHes]; [discriminate|].
    simpl in H. apply in_or_app.
    destruct (String.eqb n0 name) eqn:E.
    + apply String.eqb_eq in E. subst n0. left.
      apply in_map. now apply (IH x).
    + right. now apply IHes.
Qed.

Lemma exists_located (W : world) (path : string) :
  Os.path_exists W path = true ->
  exists l, Spec.file_of W path = Some l /\ In l (FS.locs (fs_root W)).
Proof.
  unfold Os.path_exists, Os.lookup, Spec.file_of.
  destruct (FS.resolve (fs_root W) (fs_cwd W) path) as [l|]; [|discriminate].
  destruct (FS.get (fs_root W) l) as [m|] eqn:G; [|discriminate].
  intros _. exists l. split; [reflexivity|]. now apply (get_located _ _ m).
Qed.

Lemma inherit_target_located (W : world) (path parent : string) :
  Spec.inherit_target W path = Some parent ->
  exists l, Spec.file_of W parent = Some l /\ In l (FS.locs (fs_root W)).
Proof.
  unfold Spec.inherit_target.
  destruct (Os.read W path) as [source|e]; [|discriminate].
  destruct (Py.get "INHERIT" (yaml_or_empty W source)) as [[| | |relpath| |]|e];
    try discriminate.
  destruct (Os.path_exists W _) eqn:X; [|discriminate].
  intros H. injection H as <-. now apply exists_located.
Qed.

(** Up to [n], the chain either ends or goes on. *)
Lemma chain_end_or_not (W : world) (path : string) (n : nat) :
  (exists k, k <= n /\ Spec.chain_at W path k = None)
  \/ (forall k, k <= n -> Spec.chain_at W path k <> None).
Proof.
  induction n as [|n [[k [Hk Hnone]]|Hall]].
  - right. intros k Hk. replace k with 0 by lia. discriminate.
  - left. exists k. split; [lia | assumption].
  - destruct (Spec.chain_at W path (S n)) eqn:E.
    + right. intros k Hk. destruct (Nat.eq_dec k (S n)) as [->|Hne].
      * congruence.
      * apply Hall. lia.
    + left. exists (S n). split; [lia | assumption].
Qed.

(** The first index at which the chain has ended *)
Lemma chain_first_end (W : world) (path : string) (n : nat) :
  Spec.chain_at W path n = None ->
  exists m, m <= n /\ Spec.chain_at W path m = None
            /\ forall k, k < m -> Spec.chain_at W path k <> None.
Proof.
  induction n as [|n IH]; intros H; [discriminate|].
  destruct (Spec.chain_at W path n) eqn:E.
  - exists (S n). split; [lia|]. split; [assumption|].
    intros k Hk Hnone.
    assert (Spec.chain_at W path (k + (n - k)) = None) as Habs
      by now apply chain_at_ends.
    replace (k + (n - k)) with n in Habs by lia. congruence.
  - destruct (IH eq_refl) as [m [Hm [Hnone Hmin]]].
    exists m. split; [lia|]. now split.
Qed.

(** A chain that visits no file twice is no longer than the tree has
    places. *)
Lemma acyclic_chain_ends (W : world) (path : string) :
  Spec.acyclic W path ->
  exists n, n <= S (List.length (FS.locs (fs_root W)))
            /\ Spec.chain_at W path n = None.
Proof.
  intros Hacyc.
  set (N := List.length (FS.locs (fs_root W))).
  destruct (chain_end_or_not W path (S N)) as [[k [Hk Hnone]]|Hall].
  - exists k. now split.
  - exfalso.
    set (places := map (place_at W path) (seq 1 (S N))).
    assert (Hincl : incl places (map Some (FS.locs (fs_root W)))).
    { intros x Hx. apply in_map_iff in Hx as [k [<- Hk]].
      apply in_seq in Hk. destruct k as [|k]; [lia|].
      unfold place_at. rewrite chain_at_succ.
      destruct (Spec.chain_at W path k) as [a|] eqn:Ek.
      2:{ exfalso. apply (Hall k); [lia | assumption]. }
      destruct (Spec.inherit_target W a) as [b|] eqn:T.
      2:{ exfalso. apply (Hall (S k)); [lia|].
          rewrite chain_at_succ, Ek. exact T. }
      destruct (inherit_target_located W a b T) as [l [-> Hl]].
      now apply in_map. }
    assert (Hnodup : NoDup places).
    { apply NoDup_map_NoDup_ForallPairs; [|apply seq_NoDup].
      intros i j Hi Hj Heq. apply in_seq in Hi, Hj.
      unfold place_at in Heq.
      destruct (Spec.chain_at W path i) as [a|] eqn:Ei.
      2:{ exfalso. apply (Hall i); [lia | assumption]. }
      destruct (Spec.chain_at W path j) as [b|] eqn:Ej.
      2:{ exfalso. apply (Hall j); [lia | assumption]. }
      destruct (Nat.lt_trichotomy i j) as [Hlt|[Heq'|Hgt]]; [|assumption|].
      - exfalso. now apply (Hacyc i j a b).
      - exfalso. now apply (Hacyc j i b a). }
    pose proof (NoDup_incl_length Hnodup Hincl) as Hlen.
    unfold places in Hlen. rewrite !length_map, length_seq in Hlen.
    fold N in Hlen. lia.
Qed.

(** A chain that comes back to a path it has visited never ends. *)
Lemma cyclic_chain_goes_on (W : world) (path a : string) (i j : nat) :
  i < j ->
  Spec.chain_at W path i = Some a ->
  Spec.chain_at W path j = Some a ->
  forall k, Spec.chain_at W path k <> None.
Proof.
  intros Hij Hi Hj.
  assert (Hloop : Spec.chain_at W a (j - i) = Some a).
  { replace j with (i + (j - i)) in Hj by lia.
    now rewrite chain_at_add, Hi in Hj. }
  assert (Hmany : forall m, Spec.chain_at W a (m * (j - i)) = Some a).
  { induction m as [|m IHm]; [reflexivity|].
    replace (S m * (j - i)) with (m * (j - i) + (j - i)) by lia.
    now rewrite chain_at_add, IHm. }
  intros k Hnone.
  assert (Spec.chain_at W path (k + (i + k * (j - i) - k)) = None) as Habs
    by now apply chain_at_ends.
  replace (k + (i + k * (j - i) - k)) with (i + k * (j - i)) in Habs by nia.
  rewrite chain_at_add, Hi, Hmany in Habs. discriminate.
Qed.

End LoaderFacts.

(* ================================================================= *)
(** ** The walk and the archive *)

Module WalkFacts.

Import Spec.

Lemma bind_ok {A B : Type} (r : result A) (k : A -> result B) (b : B) :
  bind r k = Ok b -> exists a, r = Ok a /\ k a = Ok b.
Proof. destruct r as [a|e]; simpl; [eauto | discriminate]. Qed.

(** *** Pruning *)

Lemma list_remove_first (x : string) (l1 l2 : list string) :
  ~ In x l1 -> Py.list_remove x (l1 ++ x :: l2) = Some (l1 ++ l2).
Proof.
  induction l1 as [|y l1 IH]; intros Hnot; simpl.
  - now rewrite String.eqb_refl.
  - destruct (String.eqb y x) eqn:E.
    + apply String.eqb_eq in E. subst y. exfalso. apply Hnot. now left.
    + rewrite IH; [reflexivity|]. intros H. apply Hnot. now right.
Qed.

Lemma prune_dirnames_from (W : world) (patterns : list string)
  (abs_root : string) (todo done : list string) :
  fold_left
    (fun live name =>
       dn <- live ;;
       let pattern :=
         SrcPlugin._resolve_pattern W (PosixPath.join abs_root name) in
       if SrcPlugin._is_excluded patterns pattern
       then match Py.list_remove name dn with
            | Some dn' => Ok dn'
            | None => Raised ValueError
            end
       else Ok dn)
    todo (Ok (filter (kept W patterns abs_root) done ++ todo))
  = Ok (filter (kept W patterns abs_root) (done ++ todo)).
Proof.
  revert done. induction todo as [|name todo IH]; intros done.
  - simpl. now rewrite !app_nil_r.
  - cbn [fold_left bind].
    replace (done ++ name :: todo) with ((done ++ [name]) ++ todo)
      by now rewrite <- app_assoc.
    rewrite <- IH. f_equal.
    rewrite filter_app. cbn [filter].
    assert (Hk : kept W patterns abs_root name
                 = negb (SrcPlugin._is_excluded patterns
                           (SrcPlugin._resolve_pattern W
                              (PosixPath.join abs_root name))))
      by reflexivity.
    rewrite Hk.
    destruct (SrcPlugin._is_excluded patterns
                (SrcPlugin._resolve_pattern W (PosixPath.join abs_root name)))
      eqn:E; cbn [negb].
    + rewrite list_remove_first.
      * now rewrite app_nil_r.
      * intros Hin. apply filter_In in Hin as [_ Hk'].
        rewrite Hk in Hk'. discriminate.
    + now rewrite <- app_assoc.
Qed.

(** The pruning loop keeps exactly the subdirectories that are not
    excluded, and never fails. *)
Lemma prune_dirnames_filter (W : world) (patterns : list string)
  (abs_root : string) (dirnames : list string) :
  SrcPlugin.prune_dirnames W patterns abs_root dirnames
  = Ok (filter (kept W patterns abs_root) dirnames).
Proof. apply (prune_dirnames_from W patterns abs_root dirnames []). Qed.

(** *** Writing *)

Lemma write_grows (W : world) (path arcname : string)
  (zip zip' : list zip_entry) :
  Zip.write W path arcname zip = Ok zip' ->
  exists e, Zip.entry_of W path arcname = Ok e /\ zip' = zip ++ [e].
Proof.
  unfold Zip.write. intros H. apply bind_ok in H as [e [He H]].
  injection H as <-. eauto.
Qed.

Lemma fold_raised {A : Type} (f : result (list zip_entry) -> A ->
                                  result (list zip_entry))
  (l : list A) (e : exn) :
  (forall a, f (Raised e) a = Raised e) ->
  fold_left f l (Raised e) = Raised e.
Proof. intros Hf. induction l as [|a l IH]; simpl; [|rewrite Hf]; auto. Qed.

Lemma write_file_grows (W : world) (patterns : list string)
  (example abs_root name : string) (zip zip' : list zip_entry) :
  SrcPlugin.write_file W patterns example abs_root (Ok zip) name = Ok zip' ->
  incl zip zip'.
Proof.
  unfold SrcPlugin.write_file. cbn [bind].
  destruct (SrcPlugin._is_excluded _ _).
  - intros H. injection H as <-. apply incl_refl.
  - destruct (PosixPath.relpath _ _ _) as [rel|]; [|discriminate].
    intros H. apply write_grows in H as [e [_ ->]].
    now apply incl_appl, incl_refl.
Qed.

Lemma write_files_spec (W : world) (patterns : list string)
  (example abs_root : string) (filenames : list string)
  (zip zip' : list zip_entry) :
  SrcPlugin.write_files W patterns example abs_root filenames zip = Ok zip' ->
  incl zip zip'
  /\ forall name,
       In name filenames ->
       kept W patterns abs_root name = true ->
       exists e,
         archived W example (PosixPath.join abs_root name) e /\ In e zip'.
Proof.
  unfold SrcPlugin.write_files.
  revert zip. induction filenames as [|name0 names IH]; intros zip H.
  - simpl in H. injection H as <-. split; [apply incl_refl|].
    intros name [].
  - cbn [fold_left] in H.
    destruct (SrcPlugin.write_file W patterns example abs_root (Ok zip) name0)
      as [z1|e] eqn:E.
    2:{ rewrite fold_raised in H; [discriminate | reflexivity]. }
    destruct (IH z1 H) as [Hincl Hall].
    pose proof (write_file_grows _ _ _ _ _ _ _ E) as Hgrow.
    split; [now apply (incl_tran Hgrow)|].
    intros name [<-|Hin] Hk; [|now apply Hall].
    unfold SrcPlugin.write_file in E. cbn [bind] in E.
    unfold kept in Hk. apply negb_true_iff in Hk. rewrite Hk in E.
    destruct (PosixPath.relpath _ _ _) as [rel|] eqn:Hrel; [|discriminate].
    apply write_grows in E as [e [He ->]].
    exists e. split.
    + exists rel. now split.
    + apply Hincl, in_or_app. right. now left.
Qed.

(** *** The walk *)

Lemma walk_dir (W : world) (patterns : list string) (example abs_root : string)
  (es : list (string * node)) (zip : list zip_entry) :
  SrcPlugin.walk W patterns example abs_root (Dir es) zip
  = (dirnames <- SrcPlugin.prune_dirnames W patterns abs_root
                   (SrcPlugin.dirnames_of es) ;;
     zip <- SrcPlugin.write_files W patterns example abs_root
              (SrcPlugin.filenames_of es) zip ;;
     SrcPlugin.walk_children W patterns example abs_root dirnames es zip).
Proof.
  cbn [SrcPlugin.walk].
  destruct (SrcPlugin.prune_dirnames W patterns abs_root
              (SrcPlugin.dirnames_of es)) as [dirnames|e]; [|reflexivity].
  cbn [bind].
  destruct (SrcPlugin.write_files W patterns example abs_root
              (SrcPlugin.filenames_of es) zip) as [z1|e]; [|reflexivity].
  cbn [bind]. revert z1.
  induction es as [|[name m] es IH]; intros z1; [reflexivity|].
  cbn [SrcPlugin.walk_children].
  destruct (FS.is_dir m && existsb (String.eqb name) dirnames);
    [|apply IH].
  destruct (SrcPlugin.walk W patterns example (PosixPath.join abs_root name)
              m z1); cbn [bind]; [apply IH | reflexivity].
Qed.

(** An induction principle that goes through the entries of a
    directory *)
Lemma node_induction (P : node -> Prop) :
  (forall content, P (Reg content)) ->
  (forall present, P (Other present)) ->
  (forall es, Forall (fun e => P (snd e)) es -> P (Dir es)) ->
  forall n, P n.
Proof.
  intros HReg HOther HDir.
  fix IH 1. intros [content|present|es].
  - apply HReg.
  - apply HOther.
  - apply HDir. induction es as [|[name m] es IHes]; constructor.
    + apply IH.
    + exact IHes.
Qed.

Lemma walk_children_grows (W : world) (patterns : list string)
  (example abs_root : string) (dirnames : list string)
  (es : list (string * node)) :
  Forall (fun e => forall abs_root zip zip',
            SrcPlugin.walk W patterns example abs_root (snd e) zip = Ok zip' ->
            incl zip zip') es ->
  forall zip zip',
    SrcPlugin.walk_children W patterns example abs_root dirnames es zip
    = Ok zip' ->
    incl zip zip'.
Proof.
  induction 1 as [|[name m] es Hm _ IH]; intros zip zip' H.
  - simpl in H. injection H as <-. apply incl_refl.
  - cbn [SrcPlugin.walk_children] in H.
    destruct (FS.is_dir m && existsb (String.eqb name) dirnames).
    + apply bind_ok in H as [z1 [H1 H2]].
      apply (incl_tran (Hm _ _ _ H1)). now apply IH.
    + now apply IH.
Qed.

(** The walk only adds to the archive. *)
Lemma walk_grows (W : world) (patterns : list string) (example : string)
  (n : node) :
  forall abs_root zip zip',
    SrcPlugin.walk W patterns example abs_root n zip = Ok zip' ->
    incl zip zip'.
Proof.
  induction n as [content|present|es IH] using node_induction;
    intros abs_root zip zip' H.
  - injection H as <-. apply incl_refl.
  - injection H as <-. apply incl_refl.
  - rewrite walk_dir in H.
    apply bind_ok in H as [dirnames [_ H]].
    apply bind_ok in H as [z1 [Hw H]].
    apply write_files_spec in Hw as [Hincl _].
    apply (incl_tran Hincl).
    now apply (walk_children_grows W patterns example abs_root dirnames es IH).
Qed.

Lemma walk_children_reach (W : world) (patterns : list string)
  (example abs_root : string) (dirnames : list string)
  (es : list (string * node)) (name : string) (m : node) :
  In (name, m) es ->
  FS.is_dir m = true ->
  In name dirnames ->
  forall zip zip',
    SrcPlugin.walk_children W patterns example abs_root dirnames es zip
    = Ok zip' ->
    exists za zb,
      SrcPlugin.walk W patterns example (PosixPath.join abs_root name) m za
      = Ok zb
      /\ incl zb zip'.
Proof.
  intros Hin Hdir Hname.
  assert (Hgrow : forall es0 z z',
             SrcPlugin.walk_children W patterns example abs_root dirnames es0 z
             = Ok z' -> incl z z').
  { intros es0. apply walk_children_grows.
    apply Forall_forall. intros e _ r z z'. apply walk_grows. }
  induction es as [|[name0 m0] es IH]; [destruct Hin|].
  intros zip zip' H. cbn [SrcPlugin.walk_children] in H.
  destruct Hin as [Heq|Hin].
  - injection Heq as -> ->. rewrite Hdir in H.
    assert (existsb (String.eqb name) dirnames = true) as Hex.
    { apply existsb_exists. exists name. split; [assumption|].
      apply String.eqb_refl. }
    rewrite Hex in H. cbn [andb] in H.
    apply bind_ok in H as [z1 [H1 H2]].
    exists zip, z1. split; [assumption|]. now apply (Hgrow es).
  - destruct (FS.is_dir m0 && existsb (String.eqb name0) dirnames).
    + apply bind_ok in H as [z1 [H1 H2]]. now apply (IH Hin z1).
    + now apply (IH Hin zip).
Qed.

(** Every file that the walk comes to and that is not excluded is in
    the archive. *)
Lemma walk_archives (W : world) (patterns : list string) (example : string)
  (top : string) (n : node) (abs_root : string) (es : list (string * node)) :
  walked W patterns top n abs_root es ->
  forall name m zip zip',
    In (name, m) es ->
    FS.is_dir m = false ->
    kept W patterns abs_root name = true ->
    SrcPlugin.walk W patterns example top n zip = Ok zip' ->
    exists e,
      archived W example (PosixPath.join abs_root name) e /\ In e zip'.
Proof.
  induction 1 as [top es|top es dname sub abs_root es' Hin Hkept _ IH];
    intros name m zip zip' Hfile Hnodir Hk H.
  - rewrite walk_dir in H.
    apply bind_ok in H as [dirnames [_ H]].
    apply bind_ok in H as [z1 [Hw H]].
    apply write_files_spec in Hw as [_ Hall].
    destruct (Hall name) as [e [He Hine]]; [|assumption|].
    + unfold SrcPlugin.filenames_of.
      apply in_map_iff. exists (name, m). split; [reflexivity|].
      apply filter_In. split; [assumption|]. simpl. now rewrite Hnodir.
    + exists e. split; [assumption|].
      assert (Hgrow : incl z1 zip').
      { apply (walk_children_grows W patterns example top dirnames es);
          [|assumption].
        apply Forall_forall. intros x _ r z z'. apply walk_grows. }
      now apply Hgrow.
  - rewrite walk_dir in H.
    rewrite prune_dirnames_filter in H. cbn [bind] in H.
    apply bind_ok in H as [z1 [_ H]].
    assert (Hdn : In dname (filter (kept W patterns top)
                              (SrcPlugin.dirnames_of es))).
    { apply filter_In. split; [|assumption].
      unfold SrcPlugin.dirnames_of. apply in_map_iff.
      exists (dname, Dir sub). split; [reflexivity|].
      apply filter_In. now split. }
    destruct (walk_children_reach W patterns example top _ es dname (Dir sub)
                Hin eq_refl Hdn z1 zip' H) as [za [zb [Hwalk Hincl]]].
    destruct (IH name m za zb Hfile Hnodir Hk Hwalk) as [e [He Hine]].
      exists e. split; [assumption|]. now apply Hincl.
Qed.

(** *** What lies beneath a pruned directory does not matter *)

Lemma dirnames_with_contents (name : string) (sub es : list (string * node)) :
  SrcPlugin.dirnames_of (with_contents name sub es) = SrcPlugin.dirnames_of es.
Proof.
  unfold SrcPlugin.dirnames_of, with_contents.
  induction es as [|[n0 m] es IH]; [reflexivity|]. cbn [map filter fst snd].
  destruct (String.eqb n0 name && FS.is_dir m) eqn:E; cbn [snd fst].
  - apply andb_true_iff in E as [_ E]. rewrite E. cbn [FS.is_dir map fst].
    now rewrite IH.
  - destruct (FS.is_dir m); cbn [map fst]; now rewrite IH.
Qed.

Lemma filenames_with_contents (name : string) (sub es : list (string * node)) :
  SrcPlugin.filenames_of (with_contents name sub es)
  = SrcPlugin.filenames_of es.
Proof.
  unfold SrcPlugin.filenames_of, with_contents.
  induction es as [|[n0 m] es IH]; [reflexivity|]. cbn [map filter fst snd].
  destruct (String.eqb n0 name && FS.is_dir m) eqn:E; cbn [snd fst].
  - apply andb_true_iff in E as [_ E]. rewrite E. cbn [FS.is_dir negb].
    exact IH.
  - destruct (FS.is_dir m); cbn [negb map fst]; now rewrite IH.
Qed.

Lemma walk_children_with_contents (W : world) (patterns : list string)
  (example abs_root : string) (dirnames : list string) (name : string)
  (sub es : list (string * node)) :
  existsb (String.eqb name) dirnames = false ->
  forall zip,
    SrcPlugin.walk_children W patterns example abs_root dirnames
      (with_contents name sub es) zip
    = SrcPlugin.walk_children W patterns example abs_root dirnames es zip.
Proof.
  intros Hout. induction es as [|[n0 m] es IH]; intros zip; [reflexivity|].
  cbn [with_contents map fst snd SrcPlugin.walk_children].
  fold (with_contents name sub es).
  destruct (String.eqb n0 name && FS.is_dir m) eqn:E.
  - apply andb_true_iff in E as [En Ed]. apply String.eqb_eq in En. subst n0.
    rewrite Ed, Hout. cbn [FS.is_dir andb]. apply IH.
  - destruct (FS.is_dir m && existsb (String.eqb n0) dirnames).
    + destruct (SrcPlugin.walk W patterns example _ m zip); cbn [bind];
        [apply IH | reflexivity].
    + apply IH.
Qed.

(** The walk of a directory gives the same archive whatever lies
    beneath a subdirectory that the pruning loop removes. *)
Lemma walk_ignores_pruned (W : world) (patterns : list string)
  (example abs_root name : string) (sub es : list (string * node))
  (zip : list zip_entry) :
  kept W patterns abs_root name = false ->
  SrcPlugin.walk W patterns example abs_root
    (Dir (with_contents name sub es)) zip
  = SrcPlugin.walk W patterns example abs_root (Dir es) zip.
Proof.
  intros Hk. rewrite !walk_dir.
  rewrite dirnames_with_contents, filenames_with_contents.
  rewrite prune_dirnames_filter. cbn [bind].
  destruct (SrcPlugin.write_files W patterns example abs_root
              (SrcPlugin.filenames_of es) zip) as [z1|e]; [|reflexivity].
  cbn [bind]. apply walk_children_with_contents.
  destruct (existsb _ _) eqn:E; [|reflexivity].
  apply existsb_exists in E as [x [Hin Hx]].
  apply String.eqb_eq in Hx. subst x.
  apply filter_In in Hin as [_ Hin]. congruence.
Qed.

End WalkFacts.

(* ================================================================= *)
(** ** Paths made of plain names *)

Module PathNames.

Import Spec PyStr StrFacts.

Lemma join_slashed (c : string) (cs : list string) :
  PyStr.join "/" (c :: cs) = c +++ slashed cs.
Proof.
  revert c. induction cs as [|d cs IH]; intros c.
  - simpl. now rewrite append_empty_r.
  - change (PyStr.join "/" (c :: d :: cs))
      with (c +++ "/" +++ PyStr.join "/" (d :: cs)).
    now rewrite IH.
Qed.

Lemma path_of_slashed (l : loc) :
  l <> [] -> path_of l = slashed l.
Proof.
  destruct l as [|c cs]; [congruence|]. intros _.
  unfold path_of. now rewrite join_slashed.
Qed.

Lemma slashed_app (l1 l2 : list string) :
  slashed (l1 ++ l2) = slashed l1 +++ slashed l2.
Proof.
  induction l1 as [|c l1 IH]; simpl; [reflexivity|].
  now rewrite IH, append_assoc.
Qed.

Lemma plain_name_inv (s : string) :
  plain_name s = true ->
  nonempty s = true /\ slash_free s = true /\ s <> "." /\ s <> "..".
Proof.
  unfold plain_name. intros H.
  apply andb_true_iff in H as [H H4]. apply andb_true_iff in H as [H H3].
  apply andb_true_iff in H as [H1 H2].
  apply negb_true_iff, String.eqb_neq in H3, H4. auto.
Qed.

Lemma plain_not_special (s : string) :
  plain_name s = true ->
  String.eqb s "" = false /\ String.eqb s "." = false
  /\ String.eqb s ".." = false.
Proof.
  intros H. apply plain_name_inv in H as [H1 [_ [H3 H4]]].
  repeat split; apply String.eqb_neq; try assumption.
  now apply nonempty_true.
Qed.

Lemma slash_free_startswith (s : string) :
  slash_free s = true -> startswith s "/" = false.
Proof.
  destruct s as [|a s]; [reflexivity|].
  cbn [slash_free startswith]. rewrite Ascii.eqb_sym. unfold PosixPath.sep.
  destruct (Ascii.eqb "/" a); [discriminate | reflexivity].
Qed.

Lemma slash_free_endswith (s : string) :
  slash_free s = true -> endswith_char s PosixPath.sep = false.
Proof.
  induction s as [|a s IH]; [reflexivity|]. simpl. intros H.
  apply andb_true_iff in H as [Ha Hs]. apply negb_true_iff in Ha.
  destruct s; [assumption | now apply IH].
Qed.

Lemma endswith_append (a b : string) (c : ascii) :
  b <> "" -> endswith_char (a +++ b) c = endswith_char b c.
Proof.
  intros Hb. induction a as [|x a IH]; [reflexivity|].
  cbn [String.append endswith_char]. rewrite IH.
  destruct (a +++ b) eqn:E; [|reflexivity].
  destruct a, b; try discriminate. congruence.
Qed.

Lemma slashed_endswith (l : list string) :
  l <> [] ->
  Forall (fun c => plain_name c = true) l ->
  endswith_char (slashed l) PosixPath.sep = false.
Proof.
  intros Hl Hall. induction Hall as [|c l Hc Hall IH]; [congruence|].
  cbn [slashed].
  apply plain_name_inv in Hc as [Hne [Hsf _]].
  destruct l as [|d l].
  - simpl slashed. rewrite append_empty_r.
    change ("/" +++ c) with (String "/" c).
    rewrite (endswith_append "/" c); [now apply slash_free_endswith|].
    now apply nonempty_true.
  - rewrite <- append_assoc. rewrite endswith_append by discriminate.
    apply IH. discriminate.
Qed.

(** *** [split] *)

Lemma split_plain (s : string) :
  slash_free s = true -> split PosixPath.sep s = [s].
Proof.
  induction s as [|a s IH]; [reflexivity|]. simpl. intros H.
  apply andb_true_iff in H as [Ha Hs]. apply negb_true_iff in Ha.
  rewrite Ha, (IH Hs). reflexivity.
Qed.

Lemma split_append (a b : string) :
  slash_free a = true ->
  split PosixPath.sep (a +++ "/" +++ b) = a :: split PosixPath.sep b.
Proof.
  induction a as [|x a IH]; intros H.
  - reflexivity.
  - simpl in H. apply andb_true_iff in H as [Hx Ha].
    apply negb_true_iff in Hx. specialize (IH Ha).
    cbn [String.append split] in IH |- *. rewrite Hx, IH. reflexivity.
Qed.

Lemma split_slashed (l : list string) :
  l <> [] ->
  Forall (fun c => slash_free c = true) l ->
  split PosixPath.sep (slashed l) = "" :: l.
Proof.
  intros Hl Hall. induction Hall as [|c l Hc Hall IH]; [congruence|].
  cbn [slashed]. change ("/" +++ c +++ slashed l) with ("" +++ "/" +++ c +++ slashed l).
  rewrite split_append by reflexivity. f_equal.
  destruct l as [|d l].
  - simpl. rewrite append_empty_r. now apply split_plain.
  - cbn [slashed]. rewrite split_append by assumption. f_equal.
    assert (H : split PosixPath.sep (slashed (d :: l)) = "" :: d :: l)
      by (apply IH; discriminate).
    cbn [slashed] in H.
    change ("/" +++ d +++ slashed l) with ("" +++ "/" +++ d +++ slashed l) in H.
    rewrite split_append in H by reflexivity. now injection H.
Qed.

Lemma split_join (c : string) (cs : list string) :
  Forall (fun c => slash_free c = true) (c :: cs) ->
  split PosixPath.sep (PyStr.join "/" (c :: cs)) = c :: cs.
Proof.
  intros Hall. inversion Hall as [|? ? Hc Hcs]; subst.
  rewrite join_slashed. destruct cs as [|d cs].
  - simpl. rewrite append_empty_r. now apply split_plain.
  - cbn [slashed]. rewrite split_append by assumption. f_equal.
    assert (H : split PosixPath.sep (slashed (d :: cs)) = "" :: d :: cs)
      by (apply split_slashed; [discriminate | assumption]).
    cbn [slashed] in H.
    change ("/" +++ d +++ slashed cs)
      with ("" +++ "/" +++ d +++ slashed cs) in H.
    rewrite split_append in H by reflexivity. now injection H.
Qed.

Lemma split_path_of (l : loc) :
  Forall (fun c => slash_free c = true) l ->
  split PosixPath.sep (path_of l)
  = "" :: match l with [] => [""] | _ => l end.
Proof.
  intros Hall. unfold path_of.
  change ("/" +++ PyStr.join "/" l) with (String "/" (PyStr.join "/" l)).
  cbn [split]. change (Ascii.eqb "/" PosixPath.sep) with true. cbv iota.
  f_equal. destruct l as [|c cs]; [reflexivity|]. now apply split_join.
Qed.

(** *** [normpath] *)

Lemma norm_comps_plain (i : nat) (l rest acc : list string) :
  Forall (fun c => plain_name c = true) l ->
  PosixPath.norm_comps i (l ++ rest) acc
  = PosixPath.norm_comps i rest (rev l ++ acc).
Proof.
  intros Hall. revert acc.
  induction Hall as [|c l Hc Hall IH]; intros acc; [reflexivity|].
  cbn [app PosixPath.norm_comps].
  destruct (plain_not_special c Hc) as [H1 [H2 H3]].
  rewrite H1, H2, H3. cbn [orb negb].
  rewrite IH. cbn [rev]. now rewrite <- app_assoc.
Qed.

Lemma join_relative (l : list string) :
  Forall (fun c => slash_free c = true /\ c <> "") l ->
  startswith (PyStr.join "/" l) "/" = false.
Proof.
  intros Hall. destruct l as [|c cs]; [reflexivity|].
  inversion Hall as [|? ? [Hc Hne] _]; subst.
  rewrite join_slashed. destruct c as [|a c]; [congruence|].
  apply slash_free_startswith in Hc.
  cbn [String.append startswith] in Hc |- *.
  now destruct (Ascii.eqb "/" a).
Qed.

Lemma plain_is_component (l : list string) :
  Forall (fun c => plain_name c = true) l ->
  Forall (fun c => slash_free c = true /\ c <> "") l.
Proof.
  intros H. eapply Forall_impl; [|exact H]. intros c Hc.
  apply plain_name_inv in Hc as [H1 [H2 _]]. split; [assumption|].
  now apply nonempty_true.
Qed.

Lemma plain_is_slash_free (l : list string) :
  Forall (fun c => plain_name c = true) l ->
  Forall (fun c => slash_free c = true) l.
Proof.
  intros H. eapply Forall_impl; [|exact H]. intros c Hc.
  now apply plain_name_inv in Hc as [_ [H2 _]].
Qed.

(** Normalising the path of a place, with or without a final dot
    entry, gives the path of the place. *)
Lemma normpath_path_of (l extra : list string) :
  Forall (fun c => plain_name c = true) l ->
  extra = [] \/ extra = ["."] ->
  PosixPath.normpath (path_of (l ++ extra)) = path_of l.
Proof.
  intros Hall Hextra.
  assert (Hcomp : Forall (fun c => slash_free c = true /\ c <> "")
                    (l ++ extra)).
  { apply Forall_app. split; [now apply plain_is_component|].
    destruct Hextra as [->| ->]; repeat constructor. discriminate. }
  assert (Hsf : Forall (fun c => slash_free c = true) (l ++ extra)).
  { eapply Forall_impl; [|exact Hcomp]. now intros c [H _]. }
  unfold PosixPath.normpath.
  change (nonempty (path_of (l ++ extra))) with true. cbn [negb].
  change (startswith (path_of (l ++ extra)) "/") with true. cbv iota.
  assert (Hone : startswith (path_of (l ++ extra)) "//" = false).
  { unfold path_of.
    change (startswith ("/" +++ PyStr.join "/" (l ++ extra)) "//")
      with (startswith (PyStr.join "/" (l ++ extra)) "/").
    now apply join_relative. }
  rewrite Hone. cbn [andb].
  rewrite split_path_of by assumption.
  assert (Hnorm : PosixPath.norm_comps 1
                    ("" :: match l ++ extra with [] => [""] | _ => l ++ extra end)
                    [] = l).
  { cbn [PosixPath.norm_comps String.eqb orb].
    destruct (l ++ extra) as [|c cs] eqn:E.
    - apply app_eq_nil in E as [-> _]. reflexivity.
    - rewrite <- E. rewrite norm_comps_plain by assumption.
      rewrite app_nil_r.
      destruct Hextra as [->| ->]; cbn; now rewrite rev_involutive. }
  rewrite Hnorm. reflexivity.
Qed.

(** *** [join] *)

Lemma path_of_nonempty (l : loc) : nonempty (path_of l) = true.
Proof. reflexivity. Qed.

Lemma join_path_of (l : loc) (name : string) :
  Forall (fun c => plain_name c = true) l ->
  startswith name "/" = false ->
  PosixPath.join (path_of l) name = path_of (l ++ [name]).
Proof.
  intros Hall Hname. unfold PosixPath.join, PosixPath.joinl.
  cbn [fold_left]. unfold PosixPath.join_step.
  rewrite Hname, path_of_nonempty. cbn [negb orb].
  destruct l as [|c cs].
  - reflexivity.
  - rewrite !path_of_slashed by (try discriminate; now destruct cs).
    rewrite slashed_endswith by (try discriminate; assumption).
    rewrite slashed_app. cbn [slashed]. now rewrite append_empty_r.
Qed.

Lemma plain_relative (name : string) :
  plain_name name = true -> startswith name "/" = false.
Proof.
  intros H. apply plain_name_inv in H as [_ [H _]].
  now apply slash_free_startswith.
Qed.

(** [posixpath.join] of plain names puts slashes between them. *)
Lemma joinl_plain (c : string) (cs : list string) :
  Forall (fun c => plain_name c = true) (c :: cs) ->
  PosixPath.joinl c cs = PyStr.join "/" (c :: cs).
Proof.
  intros Hall. rewrite join_slashed. unfold PosixPath.joinl.
  inversion Hall as [|? ? Hc Hcs]; subst. clear Hall.
  assert (Hacc : nonempty c = true /\ endswith_char c PosixPath.sep = false).
  { apply plain_name_inv in Hc as [H1 [H2 _]]. split; [assumption|].
    now apply slash_free_endswith. }
  clear Hc. revert c Hacc.
  induction Hcs as [|d cs Hd Hcs IH]; intros c [Hne Hend].
  - simpl. now rewrite append_empty_r.
  - cbn [fold_left slashed]. unfold PosixPath.join_step at 2.
    rewrite (plain_relative d Hd), Hne, Hend. cbn [negb orb].
    rewrite IH.
    + now rewrite !append_assoc.
    + apply plain_name_inv in Hd as [H1 [H2 _]]. split.
      * now apply nonempty_append_l.
      * rewrite <- append_assoc. rewrite endswith_append.
        -- now apply slash_free_endswith.
        -- now apply nonempty_true.
Qed.

Lemma normpath_relative (c : string) (cs : list string) :
  Forall (fun c => plain_name c = true) (c :: cs) ->
  PosixPath.normpath (PyStr.join "/" (c :: cs)) = PyStr.join "/" (c :: cs).
Proof.
  intros Hall. unfold PosixPath.normpath.
  assert (Hne : nonempty (PyStr.join "/" (c :: cs)) = true).
  { rewrite join_slashed. apply nonempty_append_l.
    inversion Hall as [|? ? Hc _]; subst.
    now apply plain_name_inv in Hc as [Hc _]. }
  rewrite Hne. cbn [negb].
  rewrite (join_relative (c :: cs)) by now apply plain_is_component.
  rewrite split_join by now apply plain_is_slash_free.
  assert (Hnorm : PosixPath.norm_comps 0 (c :: cs) [] = c :: cs).
  { rewrite <- (app_nil_r (c :: cs)) at 1.
    rewrite norm_comps_plain by assumption.
    cbn [PosixPath.norm_comps]. now rewrite app_nil_r, rev_involutive. }
  rewrite Hnorm. now rewrite Hne.
Qed.

Lemma lstrip_relative (s : string) :
  startswith s "/" = false -> lstrip PosixPath.sep s = s.
Proof.
  destruct s as [|a s]; [reflexivity|]. intros H. cbn [lstrip].
  assert (Ha : Ascii.eqb a PosixPath.sep = false).
  { cbn [startswith] in H. rewrite Ascii.eqb_sym. unfold PosixPath.sep.
    destruct (Ascii.eqb "/" a); [discriminate | reflexivity]. }
  now rewrite Ha.
Qed.

(** The name under which a file of the project is stored *)
Lemma arcname_under (example : string) (rest : list string) :
  plain_name example = true ->
  Forall (fun c => plain_name c = true) rest ->
  rest <> [] ->
  Zip.arcname_of (PosixPath.join example (PyStr.join "/" rest))
  = example +++ "/" +++ PyStr.join "/" rest.
Proof.
  intros Hex Hrest Hne.
  assert (Hjoin : PosixPath.join example (PyStr.join "/" rest)
                  = PyStr.join "/" (example :: rest)).
  { change (PosixPath.join example (PyStr.join "/" rest))
      with (PosixPath.joinl example [PyStr.join "/" rest]).
    unfold PosixPath.joinl. cbn [fold_left]. unfold PosixPath.join_step.
    rewrite (join_relative rest) by now apply plain_is_component.
    pose proof (plain_name_inv example Hex) as [H1 [H2 _]].
    rewrite H1, (slash_free_endswith example H2). cbn [negb orb].
    destruct rest as [|c cs]; [congruence|]. reflexivity. }
  unfold Zip.arcname_of. rewrite Hjoin.
  rewrite normpath_relative by now constructor.
  rewrite lstrip_relative.
  - destruct rest as [|c cs]; [congruence|]. reflexivity.
  - apply join_relative, plain_is_component. now constructor.
Qed.

(** *** [relpath] *)

Lemma filter_nonempty_plain (l : list string) :
  Forall (fun c => plain_name c = true) l -> filter nonempty l = l.
Proof.
  induction 1 as [|c l Hc _ IH]; [reflexivity|]. cbn [filter].
  apply plain_name_inv in Hc as [-> _]. now rewrite IH.
Qed.

Lemma common_len_prefix (l rest : list string) :
  PosixPath.common_len l (l ++ rest) = List.length l.
Proof.
  induction l as [|c l IH]; [reflexivity|]. cbn [app PosixPath.common_len].
  now rewrite String.eqb_refl, IH.
Qed.

Lemma skipn_prefix (l rest : list string) :
  skipn (List.length l) (l ++ rest) = rest.
Proof. induction l as [|c l IH]; [reflexivity | exact IH]. Qed.

(** The path of a file below the working directory, made relative to
    it, is the names from there down, with slashes between them. *)
Lemma relpath_under (cwd rest : list string) :
  Forall (fun c => plain_name c = true) cwd ->
  Forall (fun c => plain_name c = true) rest ->
  rest <> [] ->
  PosixPath.relpath (path_of cwd) (path_of (cwd ++ rest)) "."
  = Some (PyStr.join "/" rest).
Proof.
  intros Hcwd Hrest Hne. unfold PosixPath.relpath.
  rewrite path_of_nonempty. cbn [negb].
  assert (Hpath : PosixPath.abspath (path_of cwd) (path_of (cwd ++ rest))
                  = path_of (cwd ++ rest)).
  { unfold PosixPath.abspath.
    change (PosixPath.isabs (path_of (cwd ++ rest))) with true. cbv iota.
    rewrite <- (app_nil_r (cwd ++ rest)) at 1.
    apply normpath_path_of; [|now left]. apply Forall_app. now split. }
  assert (Hstart : PosixPath.abspath (path_of cwd) "." = path_of cwd).
  { unfold PosixPath.abspath.
    change (PosixPath.isabs ".") with false. cbv iota.
    rewrite join_path_of by (try reflexivity; assumption).
    apply normpath_path_of; [assumption | now right]. }
  rewrite Hpath, Hstart.
  rewrite !split_path_of
    by (apply plain_is_slash_free; try apply Forall_app; auto).
  assert (H1 : filter nonempty
                 ("" :: match cwd with [] => [""] | _ :: _ => cwd end) = cwd).
  { cbn [filter nonempty]. destruct cwd as [|c cs]; [reflexivity|].
    now apply filter_nonempty_plain. }
  assert (H2 : filter nonempty
                 ("" :: match cwd ++ rest with
                        | [] => [""]
                        | _ :: _ => cwd ++ rest
                        end) = cwd ++ rest).
  { cbn [filter nonempty]. destruct (cwd ++ rest) as [|c cs] eqn:E.
    - apply app_eq_nil in E as [_ E]. congruence.
    - rewrite <- E. apply filter_nonempty_plain, Forall_app. now split. }
  rewrite H1, H2, common_len_prefix, Nat.sub_diag, skipn_prefix.
  cbn [repeat app]. destruct rest as [|c cs]; [congruence|].
  now rewrite joinl_plain.
Qed.

(** *** Resolution *)

Lemma get_app (n : node) (l1 l2 : loc) :
  FS.get n (l1 ++ l2)
  = match FS.get n l1 with
    | Some m => FS.get m l2
    | None => None
    end.
Proof.
  revert n. induction l1 as [|c l1 IH]; intros n; [reflexivity|].
  cbn [app FS.get]. destruct n as [| |es]; try reflexivity.
  destruct (FS.assoc c es); [apply IH | reflexivity].
Qed.

Lemma get_through (n : node) (l : loc) (c : string) (rest : loc) (m : node) :
  FS.get n (l ++ c :: rest) = Some m ->
  exists es m1,
    FS.get n l = Some (Dir es) /\ FS.get n (l ++ [c]) = Some m1.
Proof.
  rewrite get_app. destruct (FS.get n l) as [[| |es]|] eqn:G; try discriminate.
  cbn [FS.get]. destruct (FS.assoc c es) as [m1|] eqn:A; [|discriminate].
  intros _. exists es, m1. split; [reflexivity|].
  rewrite get_app, G. cbn [FS.get]. now rewrite A.
Qed.

Lemma resolve_steps (root : node) (rest l : loc) (m : node) :
  Forall (fun c => plain_name c = true) rest ->
  FS.get root (l ++ rest) = Some m ->
  fold_left (FS.step root) rest (Some l) = Some (l ++ rest).
Proof.
  intros Hall. revert l.
  induction Hall as [|c rest Hc _ IH]; intros l Hget.
  - now rewrite app_nil_r.
  - destruct (get_through root l c rest m Hget) as [es [m1 [Hl Hc1]]].
    cbn [fold_left]. unfold FS.step at 2. rewrite Hl.
    destruct (plain_not_special c Hc) as [H1 [H2 H3]].
    rewrite H1, H2, H3, Hc1. cbn [orb].
    replace (l ++ c :: rest) with ((l ++ [c]) ++ rest)
      by now rewrite <- app_assoc.
    apply IH. now rewrite <- app_assoc.
Qed.

Lemma join_nonempty (c : string) (cs : list string) :
  plain_name c = true -> nonempty (PyStr.join "/" (c :: cs)) = true.
Proof.
  intros Hc. rewrite join_slashed. apply nonempty_append_l.
  now apply plain_name_inv in Hc as [Hc _].
Qed.

(** A relative path of plain names leads from the working directory
    to the place they name. *)
Lemma resolve_relative (root : node) (cwd rest : loc) (m : node) :
  Forall (fun c => plain_name c = true) rest ->
  rest <> [] ->
  FS.get root (cwd ++ rest) = Some m ->
  FS.resolve root cwd (PyStr.join "/" rest) = Some (cwd ++ rest).
Proof.
  intros Hall Hne Hget. unfold FS.resolve.
  destruct rest as [|c cs]; [congruence|].
  inversion Hall as [|? ? Hc _]; subst.
  rewrite (join_nonempty c cs Hc). cbn [negb].
  unfold PosixPath.isabs.
  rewrite (join_relative (c :: cs)) by now apply plain_is_component.
  rewrite split_join by now apply plain_is_slash_free.
  now apply (resolve_steps root (c :: cs) cwd m).
Qed.

(** The absolute path of a directory leads to it. *)
Lemma resolve_absolute (root : node) (cwd l : loc)
  (es : list (string * node)) :
  Forall (fun c => plain_name c = true) l ->
  FS.get root l = Some (Dir es) ->
  FS.resolve root cwd (path_of l) = Some l.
Proof.
  intros Hall Hget. unfold FS.resolve.
  rewrite path_of_nonempty. cbn [negb].
  change (PosixPath.isabs (path_of l)) with true. cbv iota.
  rewrite split_path_of by now apply plain_is_slash_free.
  assert (Hroot : exists es0, FS.get root [] = Some (Dir es0)).
  { destruct l as [|c cs].
    - now exists es.
    - destruct (get_through root [] c cs (Dir es) Hget) as [es0 [_ [H _]]].
      now exists es0. }
  destruct Hroot as [es0 Hroot].
  cbn [fold_left]. unfold FS.step at 2. rewrite Hroot.
  cbn [String.eqb orb].
  destruct l as [|c cs].
  - cbn [fold_left]. unfold FS.step. now rewrite Hroot.
  - now apply (resolve_steps root (c :: cs) [] (Dir es)).
Qed.

(** *** Well-formed trees *)

Lemma wf_dir_inv (es : list (string * node)) :
  wf_node (Dir es) = true ->
  distinct (map fst es) = true
  /\ forall name m, In (name, m) es ->
                    plain_name name = true /\ wf_node m = true.
Proof.
  cbn [wf_node]. intros H. apply andb_true_iff in H as [Hd Hall].
  split; [assumption|]. intros name m Hin.
  rewrite forallb_forall in Hall. specialize (Hall (name, m) Hin).
  now apply andb_true_iff in Hall.
Qed.

Lemma assoc_distinct (es : list (string * node)) (name : string) (m : node) :
  distinct (map fst es) = true ->
  In (name, m) es ->
  FS.assoc name es = Some m.
Proof.
  induction es as [|[n0 x] es IH]; intros Hd Hin; [destruct Hin|].
  cbn [map fst distinct] in Hd. apply andb_true_iff in Hd as [Hnot Hd].
  cbn [FS.assoc]. destruct Hin as [Heq|Hin].
  - injection Heq as -> ->. now rewrite String.eqb_refl.
  - destruct (String.eqb n0 name) eqn:E; [|now apply IH].
    apply String.eqb_eq in E. subst n0. exfalso.
    apply negb_true_iff in Hnot.
    assert (existsb (String.eqb name) (map fst es) = true) as Habs.
    { apply existsb_exists. exists name. split; [|apply String.eqb_refl].
      apply in_map_iff. now exists (name, m). }
    congruence.
Qed.

Lemma assoc_in (es : list (string * node)) (name : string) (m : node) :
  FS.assoc name es = Some m -> In (name, m) es.
Proof.
  induction es as [|[n0 x] es IH]; [discriminate|]. cbn [FS.assoc].
  destruct (String.eqb n0 name) eqn:E.
  - apply String.eqb_eq in E. subst n0. intros H. injection H as ->.
    now left.
  - intros H. right. now apply IH.
Qed.

Lemma get_wf (n : node) (l : loc) (m : node) :
  wf_node n = true -> FS.get n l = Some m -> wf_node m = true.
Proof.
  revert n. induction l as [|c l IH]; intros n Hwf Hget.
  - cbn in Hget. now injection Hget as <-.
  - destruct n as [| |es]; try discriminate. cbn [FS.get] in Hget.
    destruct (FS.assoc c es) as [m1|] eqn:A; [|discriminate].
    apply (IH m1); [|assumption].
    apply wf_dir_inv in Hwf as [_ Hall].
    now apply (Hall c m1), assoc_in.
Qed.

Lemma get_child (root : node) (l : loc) (es : list (string * node))
  (name : string) (m : node) :
  wf_node (Dir es) = true ->
  FS.get root l = Some (Dir es) ->
  In (name, m) es ->
  FS.get root (l ++ [name]) = Some m.
Proof.
  intros Hwf Hget Hin. rewrite get_app, Hget. cbn [FS.get].
  apply wf_dir_inv in Hwf as [Hd _].
  now rewrite (assoc_distinct es name m Hd Hin).
Qed.

(** The walk goes down the tree by plain names. *)
Lemma walked_place (W : world) (patterns : list string) (top : string)
  (n : node) (abs_root : string) (es : list (string * node)) :
  walked W patterns top n abs_root es ->
  forall l,
    wf_node n = true ->
    Forall (fun c => plain_name c = true) l ->
    top = path_of l ->
    FS.get (fs_root W) l = Some n ->
    exists trail,
      Forall (fun c => plain_name c = true) trail
      /\ abs_root = path_of (l ++ trail)
      /\ FS.get (fs_root W) (l ++ trail) = Some (Dir es)
      /\ wf_node (Dir es) = true.
Proof.
  induction 1 as [top es|top es name sub abs_root es' Hin Hkept _ IH];
    intros l Hwf Hl Htop Hget.
  - exists []. rewrite app_nil_r. repeat split; auto.
  - destruct (wf_dir_inv es Hwf) as [_ Hall].
    destruct (Hall name (Dir sub) Hin) as [Hname Hsub].
    destruct (IH (l ++ [name])) as [trail [Ht [Hroot [Hg Hw]]]].
    + assumption.
    + apply Forall_app. split; [assumption | now constructor].
    + subst top. apply join_path_of; [assumption|].
      now apply plain_relative.
    + now apply (get_child (fs_root W) l es).
    + exists (name :: trail). rewrite <- app_assoc in Hroot, Hg.
      repeat split; auto.
Qed.

Lemma wf_world_inv (W : world) :
  wf_world W = true ->
  wf_node (fs_root W) = true
  /\ Forall (fun c => plain_name c = true) (fs_cwd W)
  /\ exists es, FS.get (fs_root W) (fs_cwd W) = Some (Dir es).
Proof.
  unfold wf_world. intros H.
  apply andb_true_iff in H as [H H3]. apply andb_true_iff in H as [H1 H2].
  split; [assumption|]. split.
  - apply Forall_forall. now apply forallb_forall.
  - destruct (FS.get (fs_root W) (fs_cwd W)) as [[| |es]|]; try discriminate.
    now exists es.
Qed.

(** [os.walk(os.getcwd())] starts on the working directory of the
    tree. *)
Lemma lookup_cwd (W : world) :
  wf_world W = true ->
  Os.lookup W (Os.getcwd W) = FS.get (fs_root W) (fs_cwd W).
Proof.
  intros Hwf. destruct (wf_world_inv W Hwf) as [_ [Hcwd [es Hget]]].
  unfold Os.lookup. change (Os.getcwd W) with (path_of (fs_cwd W)).
  now rewrite (resolve_absolute (fs_root W) (fs_cwd W) (fs_cwd W) es).
Qed.

(** In a well-formed tree, the entry of a file that the walk comes to
    is named by the folder, then the names from the working directory
    down to the file, and holds the content of the file. *)
Lemma walked_file_entry (W : world) (patterns : list string)
  (example : string) (top : node) (abs_root : string)
  (es : list (string * node)) (name : string) (m : node) (e : zip_entry) :
  wf_world W = true ->
  plain_name example = true ->
  Os.lookup W (Os.getcwd W) = Some top ->
  walked W patterns (Os.getcwd W) top abs_root es ->
  In (name, m) es ->
  FS.is_dir m = false ->
  archived W example (PosixPath.join abs_root name) e ->
  exists trail content,
    abs_root = path_of (fs_cwd W ++ trail)
    /\ m = Reg content
    /\ e = {| filename := example +++ "/" +++ PyStr.join "/" (trail ++ [name]);
              data := content |}.
Proof.
  intros Hwf Hex Htop Hwalked Hin Hnodir [rel [Hrel Hentry]].
  rewrite lookup_cwd in Htop by assumption.
  destruct (wf_world_inv W Hwf) as [Hroot [Hcwd _]].
  destruct (walked_place W patterns _ _ _ _ Hwalked (fs_cwd W))
    as [trail [Htrail [Habs [Hget Hwfes]]]];
    [now apply (get_wf (fs_root W) (fs_cwd W)) | assumption | reflexivity
    | assumption |].
  destruct (wf_dir_inv es Hwfes) as [_ Hall].
  destruct (Hall name m Hin) as [Hname _].
  assert (Hrest : Forall (fun c => plain_name c = true) (trail ++ [name])).
  { apply Forall_app. split; [assumption | now constructor]. }
  assert (Hm : FS.get (fs_root W) (fs_cwd W ++ trail ++ [name]) = Some m).
  { rewrite app_assoc.
    now apply (get_child (fs_root W) (fs_cwd W ++ trail) es). }
  assert (Hrel' : rel = PyStr.join "/" (trail ++ [name])).
  { subst abs_root.
    rewrite join_path_of in Hrel
      by (try apply Forall_app; auto using plain_relative).
    rewrite <- app_assoc in Hrel.
    change (Os.getcwd W) with (path_of (fs_cwd W)) in Hrel.
    rewrite relpath_under in Hrel; try assumption.
    - now injection Hrel.
    - now destruct trail. }
  subst rel. exists trail.
  unfold Zip.entry_of, Os.read, Os.lookup in Hentry.
  rewrite (resolve_relative (fs_root W) (fs_cwd W) (trail ++ [name]) m)
    in Hentry; try assumption; [|now destruct trail].
  rewrite Hm in Hentry.
  destruct m as [content|present|sub]; [|destruct present|]; try discriminate.
  exists content. split; [assumption|]. split; [reflexivity|].
  cbn [bind] in Hentry. injection Hentry as <-.
  rewrite arcname_under; try assumption; [reflexivity | now destruct trail].
Qed.

End PathNames.

(* ================================================================= *)
(** ** The entries of metadata *)

Module ArchiveFacts.

Import Spec.

(** The entry written last under a name is the one that is read. *)
Lemma read_last (name : string) (zip : list zip_entry) (e : zip_entry) :
  Zip.read name (zip ++ [e])
  = if String.eqb (filename e) name then Some (data e) else Zip.read name zip.
Proof.
  induction zip as [|e0 zip IH]; simpl.
  - reflexivity.
  - rewrite IH. destruct (String.eqb (filename e) name); reflexivity.
Qed.

Lemma append_cancel (a x y : string) : a +++ x = a +++ y -> x = y.
Proof.
  induction a as [|c a IH]; simpl; intros H; [assumption|].
  injection H as H. now apply IH.
Qed.

Lemma metadata_names_differ (example : string) :
  PosixPath.join example "platform.json"
  <> PosixPath.join example "requirements.lock.txt".
Proof.
  unfold PosixPath.join, PosixPath.joinl. cbn [fold_left].
  unfold PosixPath.join_step.
  change (PyStr.startswith "platform.json" "/") with false.
  change (PyStr.startswith "requirements.lock.txt" "/") with false.
  cbv iota.
  destruct (negb (PyStr.nonempty example)
            || PyStr.endswith_char example PosixPath.sep);
    intros H; apply append_cancel in H; discriminate.
Qed.

Lemma read_lock (I : interpreter) (example : string) (zip : list zip_entry) :
  Zip.read (PosixPath.join example "requirements.lock.txt")
    (write_metadata I example zip)
  = Some (PyStr.join newline (lock_lines I)).
Proof.
  unfold write_metadata, Zip.writestr. rewrite !read_last. cbn [filename data].
  destruct (String.eqb_spec (PosixPath.join example "platform.json")
              (PosixPath.join example "requirements.lock.txt")) as [E|_].
  - now apply metadata_names_differ in E.
  - now rewrite String.eqb_refl.
Qed.

Lemma read_platform (I : interpreter) (example : string)
  (zip : list zip_entry) :
  Zip.read (PosixPath.join example "platform.json")
    (write_metadata I example zip)
  = Some (platform_json I).
Proof.
  unfold write_metadata, Zip.writestr. rewrite read_last. cbn [filename data].
  now rewrite String.eqb_refl.
Qed.

(** [sorted] *)









Lemma src_archive_ends (W : world) (I : interpreter) (patterns : list string)
  (zip : list zip_entry) :
  SrcPlugin.create_archive W I patterns = Ok zip ->
  exists files,
    zip = write_metadata I (example_name I) files
    /\ match Os.lookup W (Os.getcwd W) with
       | Some n =>
           SrcPlugin.walk W patterns (example_name I) (Os.getcwd W) n []
           = Ok files
       | None => files = []
       end.
Proof.
  unfold SrcPlugin.create_archive. intros H.
  apply WalkFacts.bind_ok in H as [files [Hw H]].
  injection H as <-. exists files. split; [reflexivity|].
  destruct (Os.lookup W (Os.getcwd W)); [assumption | congruence].
Qed.

Lemma metadata_keeps (I : interpreter) (example : string)
  (zip : list zip_entry) :
  incl zip (write_metadata I example zip).
Proof.
  unfold write_metadata, Zip.writestr. intros e He.
  apply in_or_app. left. apply in_or_app. now left.
Qed.

End ArchiveFacts.

(* ================================================================= *)
(** ** The lines of [info.gitignore] *)

Module LineFacts.

Import PyStr SrcPlugin.

Lemma lstrip_space_head (s : string) :
  match lstrip_space s with
  | EmptyString => True
  | String a _ => is_space a = false
  end.
Proof.
  induction s as [|a s IH]; simpl; [exact I|].
  destruct (is_space a) eqn:E; [exact IH | exact E].
Qed.

Lemma lstrip_space_fixed (s : string) :
  match s with
  | EmptyString => True
  | String a _ => is_space a = false
  end ->
  lstrip_space s = s.
Proof. destruct s as [|a s]; simpl; [reflexivity|]. now intros ->. Qed.

Lemma rstrip_space_head (s : string) :
  match s with
  | EmptyString => True
  | String a _ => is_space a = false
  end ->
  match rstrip_space s with
  | EmptyString => True
  | String a _ => is_space a = false
  end.
Proof.
  destruct s as [|a s]; simpl; [trivial|]. intros Ha.
  destruct (rstrip_space s); [now rewrite Ha | exact Ha].
Qed.

Lemma rstrip_space_idem (s : string) :
  rstrip_space (rstrip_space s) = rstrip_space s.
Proof.
  induction s as [|a s IH]; simpl; [reflexivity|].
  destruct (rstrip_space s) as [|b r] eqn:E.
  - destruct (is_space a) eqn:Ea; simpl; [reflexivity | now rewrite Ea].
  - change (rstrip_space (String a (String b r)) = String a (String b r)).
    cbn [rstrip_space] in IH |- *.
    destruct (rstrip_space r) as [|c r'] eqn:Er.
    + destruct (is_space b) eqn:Eb; [discriminate IH | congruence].
    + congruence.
Qed.

(** [strip] does nothing the second time. *)
Lemma strip_idem (s : string) :
  rstrip_space (lstrip_space (rstrip_space (lstrip_space s)))
  = rstrip_space (lstrip_space s).
Proof.
  rewrite (lstrip_space_fixed (rstrip_space (lstrip_space s))).
  - apply rstrip_space_idem.
  - apply rstrip_space_head, lstrip_space_head.
Qed.

Lemma lstrip_space_chars (c : ascii) (s : string) :
  In c (list_ascii_of_string (lstrip_space s)) ->
  In c (list_ascii_of_string s).
Proof.
  induction s as [|a s IH]; simpl; [trivial|].
  destruct (is_space a); simpl; [intros H; right; now apply IH | trivial].
Qed.

Lemma rstrip_space_chars (c : ascii) (s : string) :
  In c (list_ascii_of_string (rstrip_space s)) ->
  In c (list_ascii_of_string s).
Proof.
  induction s as [|a s IH]; simpl; [trivial|].
  destruct (rstrip_space s) as [|b r].
  - destruct (is_space a); simpl; [contradiction|].
    intros [H|[]]; now left.
  - simpl. intros [H|H]; [now left|right]. apply IH. exact H.
Qed.

(** The pieces of [split] are free of the separator. *)
Lemma split_pieces (c : ascii) (s w : string) :
  In w (split c s) -> ~ In c (list_ascii_of_string w).
Proof.
  revert w. induction s as [|a s IH]; simpl; intros w.
  - intros [<-|[]]. simpl. tauto.
  - destruct (Ascii.eqb a c) eqn:E.
    + intros [<-|H]; [simpl; tauto | now apply IH].
    + destruct (split c s) as [|w0 ws] eqn:Es.
      * intros [<-|[]]. simpl. intros [->|[]].
        now rewrite Ascii.eqb_refl in E.
      * intros [<-|H].
        -- simpl. intros [->|H]; [now rewrite Ascii.eqb_refl in E|].
           apply (IH w0); [now left | exact H].
        -- apply IH. now right.
Qed.

Lemma split_nonempty (c : ascii) (s : string) : split c s <> [].
Proof.
  destruct s as [|a s]; simpl; [discriminate|].
  destruct (Ascii.eqb a c); [discriminate|].
  destruct (split c s); discriminate.
Qed.

(** Splitting a text made of two parts around a separator *)
Lemma split_around (c : ascii) (a b : string) :
  split c (a +++ String c b) = split c a ++ split c b.
Proof.
  induction a as [|x a IH]; simpl.
  - now rewrite Ascii.eqb_refl.
  - destruct (Ascii.eqb x c); [now rewrite IH|].
    rewrite IH.
    destruct (split c a) as [|w ws] eqn:E; [|reflexivity].
    now apply split_nonempty in E.
Qed.

(** A text without the separator is one piece. *)
Lemma split_one (c : ascii) (s : string) :
  ~ In c (list_ascii_of_string s) -> split c s = [s].
Proof.
  induction s as [|a s IH]; simpl; [reflexivity|]. intros H.
  destruct (Ascii.eqb a c) eqn:E.
  - apply Ascii.eqb_eq in E. exfalso. apply H. now left.
  - rewrite IH; [reflexivity|]. intros Hin. apply H. now right.
Qed.

Lemma load_app (a b : string) :
  _load_exclusion_patterns (a +++ newline +++ b)
  = _load_exclusion_patterns a ++ _load_exclusion_patterns b.
Proof.
  unfold _load_exclusion_patterns, newline.
  change (String (ascii_of_nat 10) "" +++ b) with (String (ascii_of_nat 10) b).
  now rewrite split_around, map_app, filter_app.
Qed.

Lemma load_line (line : string) :
  Spec.pattern_line line -> _load_exclusion_patterns line = [line].
Proof.
  intros (Hne & Hc & Hs & Hn). unfold _load_exclusion_patterns.
  rewrite (split_one _ _ Hn). cbn [map filter]. rewrite Hs, Hc.
  destruct line; [contradiction|reflexivity].
Qed.

Lemma load_empty : _load_exclusion_patterns "" = [].
Proof. reflexivity. Qed.

Lemma loaded_lines (text : string) :
  Forall Spec.pattern_line (_load_exclusion_patterns text).
Proof.
  unfold _load_exclusion_patterns.
  apply Forall_forall. intros line Hin.
  apply filter_In in Hin. destruct Hin as [Hin Hkeep].
  apply in_map_iff in Hin. destruct Hin as (w & <- & Hw).
  apply andb_true_iff in Hkeep. destruct Hkeep as [Hne Hc].
  repeat split.
  - intros E. now rewrite E in Hne.
  - now apply negb_true_iff in Hc.
  - apply strip_idem.
  - intros H. apply rstrip_space_chars, lstrip_space_chars in H.
    exact (split_pieces _ _ _ Hw H).
Qed.

End LineFacts.

(* ================================================================= *)
(** ** Patterns of the entries of the project *)

Module ShapeFacts.

Import PyStr Spec PathNames.

(** The absolute path of any entry leads to it. *)
Lemma resolve_path_of (root : node) (cwd l : loc) (m : node) :
  Forall (fun c => plain_name c = true) l ->
  l <> [] ->
  FS.get root l = Some m ->
  FS.resolve root cwd (path_of l) = Some l.
Proof.
  intros Hall Hne Hget. unfold FS.resolve.
  rewrite path_of_nonempty. cbn [negb].
  change (PosixPath.isabs (path_of l)) with true. cbv iota.
  rewrite split_path_of by now apply plain_is_slash_free.
  destruct l as [|c cs]; [contradiction|].
  destruct (get_through root [] c cs m Hget) as [es0 [_ [Hroot _]]].
  assert (H0 : FS.step root (Some []) "" = Some []).
  { unfold FS.step. now rewrite Hroot. }
  change (fold_left (FS.step root) ("" :: c :: cs) (Some []))
    with (fold_left (FS.step root) (c :: cs) (FS.step root (Some []) "")).
  rewrite H0.
  now apply (resolve_steps root (c :: cs) [] m).
Qed.

Lemma lookup_path_of (W : world) (l : loc) (m : node) :
  Forall (fun c => plain_name c = true) l ->
  l <> [] ->
  FS.get (fs_root W) l = Some m ->
  Os.lookup W (path_of l) = Some m.
Proof.
  intros Hall Hne Hget. unfold Os.lookup.
  now rewrite (resolve_path_of _ _ _ m Hall Hne Hget).
Qed.

Lemma slashed_nonempty (l : list string) : l <> [] -> slashed l <> "".
Proof. destruct l; [contradiction|discriminate]. Qed.

(** The path of an entry beneath a directory: the path of the
    directory, then the way down. *)
Lemma path_of_under (cwd trail : loc) :
  trail <> [] ->
  path_of (cwd ++ trail)
  = path_of cwd
    +++ match cwd with
        | [] => PyStr.join "/" trail
        | _ => slashed trail
        end.
Proof.
  intros Hne. destruct cwd as [|c cwd]; [reflexivity|].
  rewrite !path_of_slashed by (try discriminate; now destruct trail).
  rewrite slashed_app. symmetry. apply StrFacts.append_assoc.
Qed.

Lemma under_nonempty (cwd trail : loc) :
  Forall (fun c => plain_name c = true) trail ->
  trail <> [] ->
  match cwd with
  | [] => PyStr.join "/" trail
  | _ => slashed trail
  end <> "".
Proof.
  intros Hall Hne. destruct cwd.
  - destruct trail as [|c cs]; [contradiction|].
    apply StrFacts.nonempty_true, join_nonempty.
    now inversion Hall.
  - now apply slashed_nonempty.
Qed.

Lemma endswith_slash (s : string) :
  endswith_char (s +++ "/") PosixPath.sep = true.
Proof. now rewrite endswith_append by discriminate. Qed.

Lemma resolve_pattern_nonempty (W : world) (abspath : string) :
  SrcPlugin._resolve_pattern W abspath <> "".
Proof.
  unfold SrcPlugin._resolve_pattern.
  destruct (replace (replace abspath (Os.getcwd W) "" (Some 1)) (os_sep W) "/" None)
    as [|c r]; cbn [nonempty negb]; [discriminate|].
  destruct (Os.isfile W abspath); discriminate.
Qed.

Lemma resolve_pattern_directory (W : world) (abspath : string) :
  Os.isfile W abspath = false ->
  endswith_char (SrcPlugin._resolve_pattern W abspath) PosixPath.sep = true.
Proof.
  intros Hfile. unfold SrcPlugin._resolve_pattern. rewrite Hfile.
  destruct (replace (replace abspath (Os.getcwd W) "" (Some 1)) (os_sep W) "/" None)
    as [|c r] eqn:E; cbn [nonempty negb]; [reflexivity|].
  apply endswith_slash.
Qed.

End ShapeFacts.

(* ================================================================= *)
(** ** The fragments of an inheritance chain *)

Module ChainFacts.

Import Spec LoaderFacts.

(** The fragment of a file that has a parent to follow: its mapping
    with the absolute path of the parent under [INHERIT]. *)
Lemma load_step_fragment (W : world) (path parent : string) :
  inherit_target W path = Some parent ->
  exists d, forall fuel,
    SrcPlugin._load_yaml W (S fuel) path
    = option_map
        (after (PDict (Py.dict_set "INHERIT" (PStr parent) d)))
        (SrcPlugin._load_yaml W fuel parent).
Proof.
  unfold inherit_target.
  destruct (Os.read W path) as [source|e] eqn:R; [|discriminate].
  destruct (yaml_or_empty W source) as [| | |s|l|d] eqn:Y; simpl;
    try discriminate.
  destruct (Py.dict_get "INHERIT" d) as [v|] eqn:G; simpl; [|discriminate].
  destruct v as [| | |relpath| |]; try discriminate.
  destruct (Os.path_exists W _) eqn:X; [|discriminate].
  intros H. injection H as <-.
  exists d. intros fuel.
  now apply (load_with_inherit W fuel path source relpath d).
Qed.

(** A file that parses to a mapping and has no parent to follow
    contributes that mapping alone. *)
Lemma load_last_fragment (W : world) (fuel : nat) (path : string) (v : pyval) :
  (forall source, exists d, yaml_or_empty W source = PDict d) ->
  inherit_target W path = None ->
  SrcPlugin._load_yaml W (S fuel) path = Some (Ok v) ->
  exists d, v = PDict d.
Proof.
  intros Hmap. unfold inherit_target. simpl.
  destruct (Os.read W path) as [source|e]; [|discriminate].
  destruct (Hmap source) as [d ->]. simpl. unfold Py.has_key.
  destruct (Py.dict_get "INHERIT" d) as [x|] eqn:G; simpl.
  - destruct x; simpl; try discriminate.
    destruct (Os.path_exists W _); [discriminate|].
    intros _ H. injection H as <-. rewrite or_empty_dict. eauto.
  - intros _ H. injection H as <-. rewrite or_empty_dict. eauto.
Qed.

Lemma extend_list (fragment parent : pyval) :
  (exists d, parent = PDict d) \/ (exists l, parent = PList l) ->
  extend fragment parent = PList (fragment :: as_list parent).
Proof. intros [[d ->]|[l ->]]; reflexivity. Qed.

(** The loader returns one fragment per file of the chain, each a
    mapping whose [INHERIT] is the next file of the chain. *)
Lemma load_chain (W : world) :
  (forall source, exists d, yaml_or_empty W source = PDict d) ->
  forall fuel path v,
    SrcPlugin._load_yaml W fuel path = Some (Ok v) ->
    exists n,
      chain_at W path n <> None
      /\ chain_at W path (S n) = None
      /\ List.length (as_list v) = S n
      /\ match n with
         | O => exists d, v = PDict d
         | S _ => exists l, v = PList l
         end
      /\ Forall (fun f => exists d, f = PDict d) (as_list v)
      /\ forall k a,
           chain_at W path (S k) = Some a ->
           exists d,
             nth_error (as_list v) k = Some (PDict d)
             /\ Py.dict_get "INHERIT" d = Some (PStr a).
Proof.
  intros Hmap. induction fuel as [|fuel IH]; intros path v Hload;
    [discriminate|].
  destruct (inherit_target W path) as [parent|] eqn:T.
  - destruct (load_step_fragment W path parent T) as [d Hstep].
    rewrite Hstep in Hload.
    destruct (SrcPlugin._load_yaml W fuel parent) as [[pv|e]|] eqn:Hp;
      try discriminate.
    simpl in Hload. injection Hload as <-.
    destruct (IH parent pv Hp) as (n & Hn & Hend & Hlen & Hshape & Hall & Hk).
    assert (Hext : extend (PDict (Py.dict_set "INHERIT" (PStr parent) d)) pv
                   = PList (PDict (Py.dict_set "INHERIT" (PStr parent) d)
                            :: as_list pv)).
    { apply extend_list. destruct n; [now left | now right]. }
    rewrite Hext. exists (S n). cbn [as_list].
    repeat split.
    + cbn [chain_at]. now rewrite T.
    + cbn [chain_at]. now rewrite T.
    + cbn [List.length]. now rewrite Hlen.
    + eauto.
    + constructor; [eauto | exact Hall].
    + intros k a Hc. cbn [chain_at] in Hc. rewrite T in Hc.
      destruct k as [|k].
      * cbn [chain_at] in Hc. injection Hc as <-.
        eexists. split; [reflexivity|]. apply dict_get_set.
      * cbn [nth_error]. now apply Hk.
  - destruct (load_last_fragment W fuel path v Hmap T Hload) as [d ->].
    exists 0. cbn [as_list chain_at]. rewrite T.
    repeat split; eauto; try discriminate.
Qed.

(** What a file raises on its own, every file that inherits from it
    raises. *)
Lemma load_own_error (W : world) (path : string) (r : result pyval) :
  SrcPlugin._load_yaml W 1 path = Some r ->
  forall fuel, SrcPlugin._load_yaml W (S fuel) path = Some r.
Proof.
  intros H1. destruct (inherit_target W path) as [parent|] eqn:T.
  - destruct (load_step_target W path parent T) as [fragment Hstep].
    rewrite Hstep in H1. discriminate.
  - destruct (load_step_end W path T) as [r' Hr]. intros fuel.
    rewrite Hr. rewrite Hr in H1. exact H1.
Qed.

Lemma load_error_up (W : world) (k : nat) :
  forall path a e fuel,
    chain_at W path k = Some a ->
    SrcPlugin._load_yaml W 1 a = Some (Raised e) ->
    k < fuel ->
    SrcPlugin._load_yaml W fuel path = Some (Raised e).
Proof.
  induction k as [|k IH]; intros path a e fuel Hc Ha Hlt.
  - injection Hc as <-. destruct fuel as [|fuel]; [lia|].
    now apply load_own_error.
  - cbn [chain_at] in Hc.
    destruct (inherit_target W path) as [parent|] eqn:T; [|discriminate].
    destruct fuel as [|fuel]; [lia|].
    destruct (load_step_target W path parent T) as [fragment ->].
    rewrite (IH parent a e fuel Hc Ha); [reflexivity | lia].
Qed.

End ChainFacts.

(* ================================================================= *)
(** ** Where the entries of the archive come from *)

Module SoundFacts.

Import Spec WalkFacts PathNames.

Lemma filenames_in (es : list (string * node)) (name : string) :
  In name (SrcPlugin.filenames_of es) ->
  exists m, In (name, m) es /\ FS.is_dir m = false.
Proof.
  unfold SrcPlugin.filenames_of. intros H.
  apply in_map_iff in H as [[name0 m] [Hn H]]. simpl in Hn. subst name0.
  apply filter_In in H as [Hin Hd]. simpl in Hd.
  exists m. split; [assumption | now apply negb_true_iff].
Qed.

(** Every entry that the loop over the file names adds stands for one
    of the names, and that name is not excluded. *)
Lemma write_files_sound (W : world) (patterns : list string)
  (example abs_root : string) (filenames : list string) :
  forall zip zip',
    SrcPlugin.write_files W patterns example abs_root filenames zip = Ok zip' ->
    forall e,
      In e zip' ->
      In e zip
      \/ exists name,
           In name filenames
           /\ kept W patterns abs_root name = true
           /\ archived W example (PosixPath.join abs_root name) e.
Proof.
  unfold SrcPlugin.write_files.
  induction filenames as [|name0 names IH]; intros zip zip' H e Hin.
  - simpl in H. injection H as <-. now left.
  - cbn [fold_left] in H.
    destruct (SrcPlugin.write_file W patterns example abs_root (Ok zip) name0)
      as [z1|x] eqn:E.
    2:{ rewrite fold_raised in H; [discriminate | reflexivity]. }
    destruct (IH z1 zip' H e Hin) as [Hz1|[name [Hn [Hk Ha]]]].
    + unfold SrcPlugin.write_file in E. cbn [bind] in E.
      destruct (SrcPlugin._is_excluded _ _) eqn:X.
      * injection E as <-. now left.
      * destruct (PosixPath.relpath _ _ _) as [rel|] eqn:Hrel; [|discriminate].
        apply write_grows in E as [e0 [He0 ->]].
        apply in_app_or in Hz1 as [Hz|[<-|[]]]; [now left|].
        right. exists name0. split; [now left|]. split.
        -- unfold kept. now rewrite X.
        -- exists rel. now split.
    + right. exists name. split; [now right | now split].
Qed.

Lemma walk_children_sound (W : world) (patterns : list string)
  (example abs_root : string) (dirnames : list string)
  (Q : string -> node -> zip_entry -> Prop) (es : list (string * node)) :
  Forall (fun x => forall abs_root zip zip',
            SrcPlugin.walk W patterns example abs_root (snd x) zip = Ok zip' ->
            forall e, In e zip' -> In e zip \/ Q abs_root (snd x) e) es ->
  forall zip zip',
    SrcPlugin.walk_children W patterns example abs_root dirnames es zip
    = Ok zip' ->
    forall e,
      In e zip' ->
      In e zip
      \/ exists name m,
           In (name, m) es
           /\ FS.is_dir m = true
           /\ In name dirnames
           /\ Q (PosixPath.join abs_root name) m e.
Proof.
  induction 1 as [|[name m] es Hm _ IH]; intros zip zip' H e Hin.
  - simpl in H. injection H as <-. now left.
  - cbn [SrcPlugin.walk_children] in H.
    destruct (FS.is_dir m && existsb (String.eqb name) dirnames) eqn:D.
    + apply bind_ok in H as [z1 [H1 H2]].
      destruct (IH z1 zip' H2 e Hin) as [Hz1|(n0 & m0 & Hn & Hd & Hdn & Hq)].
      * destruct (Hm _ _ _ H1 e Hz1) as [Hz|Hq]; [now left|].
        right. exists name, m.
        apply andb_true_iff in D as [Hd Hex].
        apply existsb_exists in Hex as [x [Hx Heq]].
        apply String.eqb_eq in Heq. subst x.
        repeat split; auto. now left.
      * right. exists n0, m0. repeat split; auto. now right.
    + destruct (IH zip zip' H e Hin) as [Hz|(n0 & m0 & Hn & Hd & Hdn & Hq)];
        [now left|].
      right. exists n0, m0. repeat split; auto. now right.
Qed.

(** Every entry that the walk adds stands for a file it came to and
    did not exclude. *)
Lemma walk_sound (W : world) (patterns : list string) (example : string)
  (n : node) :
  forall top zip zip',
    SrcPlugin.walk W patterns example top n zip = Ok zip' ->
    forall e, In e zip' -> In e zip \/ from_walk W patterns example top n e.
Proof.
  induction n as [content|present|es IH] using node_induction;
    intros top zip zip' H e Hin.
  - injection H as <-. now left.
  - injection H as <-. now left.
  - rewrite walk_dir, prune_dirnames_filter in H. cbn [bind] in H.
    apply bind_ok in H as [z1 [Hw H]].
    destruct (walk_children_sound W patterns example top _
                (from_walk W patterns example) es IH z1 zip' H e Hin)
      as [Hz1|(name & m & Hn & Hd & Hdn & Hq)].
    + destruct (write_files_sound _ _ _ _ _ _ _ Hw e Hz1)
        as [Hz|(name & Hn & Hk & Ha)]; [now left|].
      right. apply filenames_in in Hn as [m [Hn Hd]].
      exists top, es, name, m. repeat split; auto. constructor.
    + right. apply filter_In in Hdn as [_ Hk].
      destruct m as [| |sub]; try discriminate.
      destruct Hq as (abs_root & es' & name' & m' & Hwalked & Hrest).
      exists abs_root, es', name', m'. split; [|exact Hrest].
      now apply (walked_sub W patterns top es name sub).
Qed.

Lemma in_metadata (I : interpreter) (example : string) (zip : list zip_entry)
  (e : zip_entry) :
  In e (write_metadata I example zip) ->
  In e zip
  \/ e = {| filename := PosixPath.join example "requirements.lock.txt";
            data := PyStr.join newline (lock_lines I) |}
  \/ e = {| filename := PosixPath.join example "platform.json";
            data := platform_json I |}.
Proof.
  unfold write_metadata, Zip.writestr. intros H.
  apply in_app_or in H as [H|[<-|[]]]; [|now right; right].
  apply in_app_or in H as [H|[<-|[]]]; [now left | now right; left].
Qed.

(** *** More patterns, fewer entries *)

Lemma is_excluded_incl (patterns patterns' : list string) (path : string) :
  incl patterns patterns' ->
  SrcPlugin._is_excluded patterns path = true ->
  SrcPlugin._is_excluded patterns' path = true.
Proof.
  intros Hincl H. apply PatternFacts.is_excluded_true in H as [p [Hp Hm]].
  apply PatternFacts.is_excluded_true. exists p. split; [now apply Hincl|assumption].
Qed.

Lemma kept_incl (W : world) (patterns patterns' : list string)
  (abs_root name : string) :
  incl patterns patterns' ->
  kept W patterns' abs_root name = true ->
  kept W patterns abs_root name = true.
Proof.
  unfold kept. intros Hincl H. apply negb_true_iff in H.
  apply negb_true_iff.
  destruct (SrcPlugin._is_excluded patterns _) eqn:E; [|reflexivity].
  now rewrite (is_excluded_incl _ _ _ Hincl E) in H.
Qed.

Lemma walked_incl (W : world) (patterns patterns' : list string)
  (top : string) (n : node) (abs_root : string) (es : list (string * node)) :
  incl patterns patterns' ->
  walked W patterns' top n abs_root es ->
  walked W patterns top n abs_root es.
Proof.
  intros Hincl. induction 1 as [top es|top es name sub abs_root es' Hin Hk _ IH].
  - constructor.
  - apply (walked_sub W patterns top es name sub); auto.
    now apply (kept_incl W patterns patterns').
Qed.

Lemma archived_one (W : world) (example path : string) (e1 e2 : zip_entry) :
  archived W example path e1 -> archived W example path e2 -> e1 = e2.
Proof.
  intros [r1 [H1 E1]] [r2 [H2 E2]]. congruence.
Qed.

(** *** Patterns that exclude every entry *)

Lemma star_matches_all (name : string) :
  Fnmatch.fnmatchcase name "*" = true.
Proof.
  unfold Fnmatch.fnmatchcase.
  change (Fnmatch.translate "*") with [Fnmatch.TStar].
  induction name as [|c name IH].
  - reflexivity.
  - rewrite PatternFacts.star_matches. rewrite IH. apply orb_true_r.
Qed.

Lemma write_files_none (W : world) (patterns : list string)
  (example abs_root : string) (filenames : list string) (zip : list zip_entry) :
  (forall name, In name filenames -> kept W patterns abs_root name = false) ->
  SrcPlugin.write_files W patterns example abs_root filenames zip = Ok zip.
Proof.
  unfold SrcPlugin.write_files. revert zip.
  induction filenames as [|name names IH]; intros zip Hall; [reflexivity|].
  cbn [fold_left]. unfold SrcPlugin.write_file at 2. cbn [bind].
  assert (Hk : kept W patterns abs_root name = false) by (apply Hall; now left).
  unfold kept in Hk. apply negb_false_iff in Hk. rewrite Hk.
  apply IH. intros n Hn. apply Hall. now right.
Qed.

Lemma walk_children_none (W : world) (patterns : list string)
  (example abs_root : string) (es : list (string * node)) (zip : list zip_entry) :
  SrcPlugin.walk_children W patterns example abs_root [] es zip = Ok zip.
Proof.
  induction es as [|[name m] es IH]; [reflexivity|].
  cbn [SrcPlugin.walk_children existsb]. now rewrite andb_false_r.
Qed.

Lemma filter_none {A : Type} (f : A -> bool) (l : list A) :
  (forall x, In x l -> f x = false) -> filter f l = [].
Proof.
  induction l as [|x l IH]; intros H; [reflexivity|]. simpl.
  rewrite (H x) by now left. apply IH. intros y Hy. apply H. now right.
Qed.

(** A directory all of whose entries are excluded adds nothing. *)
Lemma walk_none (W : world) (patterns : list string) (example abs_root : string)
  (n : node) (zip : list zip_entry) :
  (forall name, kept W patterns abs_root name = false) ->
  SrcPlugin.walk W patterns example abs_root n zip = Ok zip.
Proof.
  intros Hall. destruct n as [| |es]; try reflexivity.
  rewrite walk_dir, prune_dirnames_filter. cbn [bind].
  rewrite write_files_none by (intros; apply Hall). cbn [bind].
  rewrite filter_none by (intros; apply Hall).
  apply walk_children_none.
Qed.

(** *** The entries of the whole archive *)

Lemma archive_entry_cases (W : world) (I : interpreter)
  (patterns : list string) (zip : list zip_entry) :
  SrcPlugin.create_archive W I patterns = Ok zip ->
  forall e,
    In e zip ->
    e = {| filename := PosixPath.join (example_name I) "requirements.lock.txt";
           data := PyStr.join newline (lock_lines I) |}
    \/ e = {| filename := PosixPath.join (example_name I) "platform.json";
              data := platform_json I |}
    \/ exists top,
         Os.lookup W (Os.getcwd W) = Some top
         /\ from_walk W patterns (example_name I) (Os.getcwd W) top e.
Proof.
  intros H e Hin.
  apply ArchiveFacts.src_archive_ends in H as [files [-> Hfiles]].
  apply in_metadata in Hin as [Hin|[Heq|Heq]];
    [|subst e; now left|subst e; right; now left].
  right. right.
  destruct (Os.lookup W (Os.getcwd W)) as [top|]; [|now subst files].
  exists top. split; [reflexivity|].
  destruct (walk_sound _ _ _ _ _ _ _ Hfiles e Hin) as [[]|Hw]. exact Hw.
Qed.

End SoundFacts.

(* ================================================================= *)
(** ** When the walk goes through *)

Module ProgressFacts.

Import Spec WalkFacts PathNames.



Section Progress.

Variable W : world.
Variable patterns : list string.
Variable example : string.
Hypothesis Hcwd : Forall (fun c => plain_name c = true) (fs_cwd W).





End Progress.

(** *** Names inside the archive *)

Lemma join_under (example b : string) :
  plain_name example = true ->
  PyStr.startswith b "/" = false ->
  PosixPath.join example b = example +++ "/" +++ b.
Proof.
  intros Hex Hb. apply plain_name_inv in Hex as (Hne & Hsf & _).
  unfold PosixPath.join, PosixPath.joinl. cbn [fold_left].
  unfold PosixPath.join_step. rewrite Hb, Hne.
  now rewrite (slash_free_endswith _ Hsf).
Qed.

Lemma startswith_folder (example rest : string) :
  PyStr.startswith (example +++ "/" +++ rest) (example +++ "/") = true.
Proof.
  rewrite <- StrFacts.append_assoc. apply StrFacts.startswith_append.
Qed.

(** *** The archive of [material/plugins] *)




End ProgressFacts.

(* ================================================================= *)
(** ** A pattern made from a path matches that path *)

Module SiteFacts.

Import Spec.

Lemma star_absorbs (res : list Fnmatch.tok) (c : ascii) (name : string) :
  Fnmatch.matches (Fnmatch.TStar :: res) name = true ->
  Fnmatch.matches (Fnmatch.TStar :: res) (String c name) = true.
Proof.
  intros H. rewrite PatternFacts.star_matches, H. apply orb_true_r.
Qed.

Lemma star_first (res : list Fnmatch.tok) (name : string) :
  Fnmatch.matches res name = true ->
  Fnmatch.matches (Fnmatch.TStar :: res) name = true.
Proof. intros H. now rewrite PatternFacts.star_matches, H. Qed.

(** Without an opening bracket, a pattern matches the text it is made
    of: a star and a question mark stand for themselves too. *)
Lemma translate_self (s : string) :
  bracket_free s = true ->
  Fnmatch.matches (Fnmatch.translate_from 0 s) s = true.
Proof.
  induction s as [|c s IH]; [reflexivity|].
  cbn [bracket_free]. intros H. apply andb_true_iff in H as [Hc Hs].
  apply negb_true_iff in Hc. specialize (IH Hs).
  cbn [Fnmatch.translate_from]. rewrite Hc.
  destruct (Ascii.eqb c "*").
  - destruct (Fnmatch.translate_from 0 s) as [|[| | |] res] eqn:T;
      try (apply star_absorbs, star_first; exact IH).
    apply star_absorbs. exact IH.
  - destruct (Ascii.eqb c "?").
    + exact IH.
    + cbn [Fnmatch.matches]. now rewrite Ascii.eqb_refl, IH.
Qed.

Lemma fnmatch_self (s : string) :
  bracket_free s = true -> Fnmatch.fnmatchcase s s = true.
Proof. apply translate_self. Qed.

(** The patterns that [on_config] adds to those of [info.gitignore] *)
Lemma added_pattern (W : world) (C : mkdocs_config) (I : interpreter)
  (gitignore path : string) :
  (path = site_dir C /\ PyStr.startswith path (Os.getcwd W) = true)
  \/ (In path (sitepackages I) /\ PyStr.startswith path (Os.getcwd W) = true)
  \/ (projects_dir C <> None /\ In path (project_site_dirs C)) ->
  In (SrcPlugin._resolve_pattern W path)
    (SrcPlugin.exclusion_patterns W C I gitignore).
Proof.
  unfold SrcPlugin.exclusion_patterns.
  intros [[-> Hin]|[[Hp Hin]|[Hproj Hp]]].
  - rewrite Hin. apply in_or_app. right. now left.
  - apply in_or_app. right. apply in_or_app. right.
    apply in_or_app. left. apply in_map, filter_In. now split.
  - apply in_or_app. right. apply in_or_app. right.
    apply in_or_app. right.
    destruct (projects_dir C); [now apply in_map | contradiction].
Qed.

(** The entry whose path is one of these is excluded. *)
Lemma added_pattern_excludes (W : world) (C : mkdocs_config) (I : interpreter)
  (gitignore path abs_root name : string) :
  (path = site_dir C /\ PyStr.startswith path (Os.getcwd W) = true)
  \/ (In path (sitepackages I) /\ PyStr.startswith path (Os.getcwd W) = true)
  \/ (projects_dir C <> None /\ In path (project_site_dirs C)) ->
  PosixPath.join abs_root name = path ->
  bracket_free (SrcPlugin._resolve_pattern W path) = true ->
  kept W (SrcPlugin.exclusion_patterns W C I gitignore) abs_root name = false.
Proof.
  intros Hadded Hpath Hfree. unfold kept. apply negb_false_iff.
  rewrite Hpath. apply PatternFacts.is_excluded_true.
  exists (SrcPlugin._resolve_pattern W path).
  split; [now apply added_pattern | now apply fnmatch_self].
Qed.

End SiteFacts.

(* ================================================================= *)
(** ** The course of [on_config] *)

Module FlowFacts.

Import Spec.

(** How a run made of two parts went. *)
Lemma and_then_cases {A B : Type} (m : run A) (k : A -> run B)
  (log : list event) (o : outcome B) :
  and_then m k = (log, o) ->
  (exists l1 a l2, m = (l1, Goes a) /\ k a = (l2, o) /\ log = l1 ++ l2)
  \/ (exists e, m = (log, Ends e) /\ o = Ends e)
  \/ (m = (log, Unfinished) /\ o = Unfinished).
Proof.
  destruct m as [l1 [a|e|]]; cbn [and_then].
  - destruct (k a) as [l2 o2] eqn:K. intros H. injection H as <- <-.
    left. now exists l1, a, l2.
  - intros H. injection H as <- <-. right. left. now exists e.
  - intros H. injection H as <- <-. right. now right.
Qed.

Lemma raising_cases {A : Type} (r : result A) (log : list event)
  (o : outcome A) :
  raising r = (log, o) ->
  log = []
  /\ ((exists a, r = Ok a /\ o = Goes a)
      \/ (exists e, r = Raised e /\ o = Ends (Raises e))).
Proof.
  destruct r as [a|e]; intros H; injection H as <- <-;
    (split; [reflexivity|]); eauto.
Qed.

Lemma loading_cases {A : Type} (r : option (result A)) (log : list event)
  (o : outcome A) :
  loading r = (log, o) ->
  log = []
  /\ ((exists a, r = Some (Ok a) /\ o = Goes a)
      \/ (exists e, r = Some (Raised e) /\ o = Ends (Raises e))
      \/ (r = None /\ o = Unfinished)).
Proof.
  destruct r as [[a|e]|]; intros H; injection H as <- <-;
    (split; [reflexivity|]); eauto.
Qed.

(** A help page is printed, and the process exits unless it was told
    not to. *)
Lemma help_cases (self : plugin) (page : help) (log : list event)
  (o : outcome unit) :
  (emit (Help page) ;;; exit_unless_told_not_to self) = (log, o) ->
  log = [Help page]
  /\ o = if archive_stop_on_violation (config self)
         then Ends (Exits 1) else Goes tt.
Proof.
  unfold exit_unless_told_not_to.
  destruct (archive_stop_on_violation (config self)); intros H;
    injection H as <- <-; now split.
Qed.

(** A complaint: the error is logged, the help page is printed, and
    the process exits unless it was told not to. *)
Lemma complaint_cases (self : plugin) (message : string) (page : help)
  (log : list event) (o : outcome unit) :
  (emit (LogError message) ;;; emit (Help page) ;;;
   exit_unless_told_not_to self) = (log, o) ->
  log = [LogError message; Help page]
  /\ o = if archive_stop_on_violation (config self)
         then Ends (Exits 1) else Goes tt.
Proof.
  unfold exit_unless_told_not_to.
  destruct (archive_stop_on_violation (config self)); intros H;
    injection H as <- <-; now split.
Qed.

(** The end of a run *)
Lemma save_and_exit_ok (E : surroundings) (I : interpreter)
  (zip : list zip_entry) :
  save_and_exit E I (Ok zip)
  = (Saved (example_name I +++ ".zip") zip
     :: LogInfo "Archive successfully created:" :: size_warning E zip,
     Ends (Exits 1)).
Proof.
  unfold save_and_exit, size_warning. cbn [raising pure and_then].
  destruct (1000000 <? nbytes E zip)%Z; reflexivity.
Qed.

Lemma size_warning_in (E : surroundings) (zip : list zip_entry) (ev : event) :
  In ev (size_warning E zip) ->
  ev = LogWarning "Archive exceeds recommended maximum size of 1 MB".
Proof.
  unfold size_warning. destruct (1000000 <? nbytes E zip)%Z.
  - now intros [<-|[]].
  - intros [].
Qed.

Lemma save_and_exit_cases (E : surroundings) (I : interpreter)
  (written : result (list zip_entry)) (log : list event) (o : outcome unit) :
  save_and_exit E I written = (log, o) ->
  (exists zip,
     written = Ok zip
     /\ log = Saved (example_name I +++ ".zip") zip
              :: LogInfo "Archive successfully created:" :: size_warning E zip
     /\ o = Ends (Exits 1))
  \/ (exists e, written = Raised e /\ log = [] /\ o = Ends (Raises e)).
Proof.
  destruct written as [zip|e].
  - rewrite save_and_exit_ok. intros H. injection H as <- <-. left. eauto.
  - intros H. injection H as <- <-. right. eauto.
Qed.

(** The checks between the validation of the paths and the archive:
    what they log, and how they end. *)
Lemma checks_cases (self : plugin) (E : surroundings) (I : interpreter)
  (log : list event) (o : outcome unit) :
  checks_before_archive self E I = (log, o) ->
  existsb is_saved log = false
  /\ o <> Ends Returns
  /\ o <> Unfinished
  /\ (o = Goes tt ->
      archive (config self) = true
      /\ (archive_stop_on_violation (config self) = true ->
          log = [LogInfo "Started archive creation for bug report"]))
  /\ (forall status,
        o = Ends (Exits status) ->
        status = 1%Z
        /\ (archive_stop_on_violation (config self) = false ->
            archive (config self) = false)).
Proof.
  unfold checks_before_archive, _help_on_versions_and_exit,
    _help_on_customizations_and_exit, exit_unless_told_not_to.
  destruct (latest_release E) as [current|e]; cbn [raising and_then pure].
  2:{ intros H. injection H as <- <-. repeat split; try discriminate. }
  destruct (PyStr.startswith (present I) current);
    destruct (archive_stop_on_violation (config self));
    destruct (archive (config self));
    destruct (Py.index (theme_dir E) (theme_dirs E)) as [[|position]|e];
    destruct (hooks E) as [|hook hooks];
    cbn; intros H; injection H as <- <-;
    (split; [reflexivity|]);
    (split; [discriminate|]);
    (split; [discriminate|]);
    (split;
     [ intros Hgo;
       first [ discriminate Hgo
             | split; [reflexivity
                      | intros Hs; first [discriminate Hs | reflexivity]] ]
     | intros status Hex;
       first [ discriminate Hex
             | injection Hex as <-;
               split; [reflexivity
                      | intros Hs; first [discriminate Hs | reflexivity]] ] ]).
Qed.

(** *** Parts that come before the archive *)

Lemma unsaved_in (log : list event) (name : string) (zip : list zip_entry) :
  existsb is_saved log = false -> ~ In (Saved name zip) log.
Proof.
  intros H Hin.
  assert (existsb is_saved log = true) as Ht.
  { apply existsb_exists. now exists (Saved name zip). }
  congruence.
Qed.

Ltac no_saved Hs :=
  intros; exfalso;
  match goal with
  | H : In (Saved _ _) _ |- _ => exact (unsaved_in _ _ _ Hs H)
  end.

Lemma prelude_raising {A : Type} (self : plugin) (r : result A) :
  prelude self (raising r).
Proof. destruct r; now split. Qed.

Lemma prelude_loading {A : Type} (self : plugin) (r : option (result A)) :
  prelude self (loading r).
Proof. destruct r as [[a|e]|]; now split. Qed.

Lemma prelude_pure {A : Type} (self : plugin) (a : A) : prelude self (pure a).
Proof. now split. Qed.

Lemma prelude_complaint (self : plugin) (message : string) (page : help) :
  prelude self
    (emit (LogError message) ;;; emit (Help page) ;;;
     exit_unless_told_not_to self).
Proof.
  unfold prelude, exit_unless_told_not_to.
  destruct (archive_stop_on_violation (config self)) eqn:S; cbn.
  - split; [reflexivity|]. split; [reflexivity | now left].
  - split; [reflexivity | discriminate].
Qed.

Lemma prelude_complaint_then {A : Type} (self : plugin) (message : string)
  (page : help) (a : A) :
  prelude self
    (emit (LogError message) ;;;
     (emit (Help page) ;;; exit_unless_told_not_to self) ;;; pure a).
Proof.
  unfold prelude, exit_unless_told_not_to.
  destruct (archive_stop_on_violation (config self)) eqn:S; cbn.
  - split; [reflexivity|]. split; [reflexivity | now left].
  - split; [reflexivity | discriminate].
Qed.

Lemma prelude_then {A B : Type} (self : plugin) (m : run A) (k : A -> run B) :
  prelude self m ->
  (forall a, prelude self (k a)) ->
  prelude self (and_then m k).
Proof.
  destruct m as [l1 [a|e|]]; intros [Hs Hm] Hk; cbn [and_then fst snd] in *.
  - specialize (Hk a). destruct (k a) as [l2 o2]. destruct Hk as [Hs2 Hk].
    unfold prelude. cbn [fst snd] in *. split.
    + rewrite existsb_app, Hs, Hs2. reflexivity.
    + destruct o2 as [b|[|status|x]|]; auto.
      intros Hstop. now rewrite (Hm Hstop), (Hk Hstop).
  - now split.
  - now split.
Qed.

(** *** From the checks to the end *)

Lemma verdict_then {A : Type} (self : plugin) (I : interpreter) (m : run A)
  (k : A -> run unit) :
  prelude self m ->
  (forall a, verdict self I (k a)) ->
  verdict self I (and_then m k).
Proof.
  destruct m as [l1 [a|e|]]; intros [Hs Hm] Hk; cbn [and_then fst snd] in *.
  - specialize (Hk a). destruct (k a) as [l2 o2].
    destruct Hk as (H1 & H2 & H3 & H4). unfold verdict. cbn [fst snd] in *.
    repeat split.
    + exact H1.
    + apply (H2 name zip).
      apply in_app_or in H as [H|H]; [|exact H].
      exfalso. exact (unsaved_in _ _ _ Hs H).
    + apply (H2 name zip).
      apply in_app_or in H as [H|H]; [|exact H].
      exfalso. exact (unsaved_in _ _ _ Hs H).
    + apply (H2 name zip).
      apply in_app_or in H as [H|H]; [|exact H].
      exfalso. exact (unsaved_in _ _ _ Hs H).
    + intros Hstop name zip Hin. rewrite (Hm Hstop) in *.
      cbn [app] in *. now apply (H3 Hstop name zip).
    + intros Hstop Hroot status Ho Harch.
      destruct (H4 Hstop Hroot status Ho Harch) as [zip Hin].
      exists zip. apply in_or_app. now right.
  - repeat split; try (now no_saved Hs).
    + destruct e as [|status|x]; [contradiction | apply Hm | constructor].
    + intros Hstop Hroot status Ho Harch.
      destruct e as [|s|x]; try discriminate.
      destruct Hm as [_ [Hm|Hm]]; congruence.
  - repeat split; try (now no_saved Hs); discriminate.
Qed.

Lemma saved_at_end (E : surroundings) (I : interpreter) (l1 : list event)
  (zip : list zip_entry) (name : string) (zip0 : list zip_entry) :
  existsb is_saved l1 = false ->
  In (Saved name zip0)
    (l1 ++ Saved (example_name I +++ ".zip") zip
        :: LogInfo "Archive successfully created:" :: size_warning E zip) ->
  name = example_name I +++ ".zip" /\ zip0 = zip.
Proof.
  intros Hs H. apply in_app_or in H as [H|[H|[H|H]]].
  - exfalso. exact (unsaved_in _ _ _ Hs H).
  - now injection H as <- <-.
  - discriminate H.
  - apply size_warning_in in H. discriminate H.
Qed.

Lemma size_warning_quiet (E : surroundings) (zip : list zip_entry) :
  existsb is_complaint (size_warning E zip) = false.
Proof. unfold size_warning. now destruct (1000000 <? nbytes E zip)%Z. Qed.

Lemma verdict_end (self : plugin) (I : interpreter) (E : surroundings)
  (written : result (list zip_entry)) :
  verdict self I (checks_before_archive self E I ;;; save_and_exit E I written).
Proof.
  destruct (checks_before_archive self E I) as [l1 o1] eqn:C.
  destruct (checks_cases self E I l1 o1 C) as (Hs & Hr & Hu & Hg & Hx).
  destruct o1 as [[]|e|]; cbn [and_then].
  - destruct (Hg eq_refl) as [Harch Hlog].
    destruct written as [zip|x].
    + rewrite save_and_exit_ok. unfold verdict. cbn [fst snd stops].
      repeat split; auto.
      * now destruct (saved_at_end E I l1 zip name zip0 Hs H).
      * intros Hstop name zip0 H. rewrite (Hlog Hstop).
        cbn [app existsb is_complaint orb]. apply size_warning_quiet.
      * intros _ _ status _ _. exists zip. apply in_or_app. right. now left.
    + cbn [save_and_exit raising and_then pure emit sys_exit app fst snd].
      unfold verdict. cbn [fst snd stops]. rewrite app_nil_r.
      repeat split; try (now no_saved Hs).
      discriminate.
  - unfold verdict. cbn [fst snd].
    repeat split; try (now no_saved Hs).
    + destruct e as [|status|x]; [congruence | | constructor].
      now destruct (Hx status eq_refl).
    + intros Hstop _ status Ho Harch. injection Ho as ->.
      destruct (Hx status eq_refl) as [_ Hno]. rewrite (Hno Hstop) in Harch.
      discriminate.
  - congruence.
Qed.

(** The same, with a computation between the checks and the archive
    that returns or raises *)
Lemma verdict_end_after {A : Type} (self : plugin) (I : interpreter)
  (E : surroundings) (r : result A) (written : A -> result (list zip_entry)) :
  verdict self I
    (checks_before_archive self E I ;;;
     x <~ raising r ;; save_and_exit E I (written x)).
Proof.
  destruct r as [a|e].
  - assert (H : (x <~ raising (Ok a) ;; save_and_exit E I (written x))
                = save_and_exit E I (written a)).
    { cbn [raising pure and_then].
      now destruct (save_and_exit E I (written a)). }
    rewrite H. apply verdict_end.
  - assert (H : (x <~ raising (Raised e) ;; save_and_exit E I (written x))
                = save_and_exit E I (Raised e)) by reflexivity.
    rewrite H. apply verdict_end.
Qed.

(** *** The two [on_config] *)

Lemma switched_off_returns (W : world) (self : plugin) (C : mkdocs_config)
  (E : surroundings) (I : interpreter) (fuel : nat) :
  switched_off self = true ->
  SrcPlugin.on_config W self C E I fuel = ([], Ends Returns)
  /\ MaterialPlugin.on_config W self C E I fuel = ([], Ends Returns).
Proof.
  unfold switched_off, SrcPlugin.on_config, MaterialPlugin.on_config.
  destruct (negb (enabled (config self))); [now split|].
  cbn [orb]. now intros ->.
Qed.

Lemma src_verdict (W : world) (self : plugin) (C : mkdocs_config)
  (E : surroundings) (I : interpreter) (fuel : nat) :
  switched_off self = false ->
  verdict self I (SrcPlugin.on_config W self C E I fuel).
Proof.
  unfold switched_off, SrcPlugin.on_config. intros H.
  apply orb_false_iff in H as [-> ->].
  apply verdict_then; [apply prelude_loading|]. intros loaded_configs.
  apply verdict_then; [apply prelude_raising|]. intros paths.
  apply verdict_then; [apply prelude_raising|]. intros paths_to_validate.
  apply verdict_then; [|intros _; apply verdict_end].
  destruct paths_to_validate; [apply prelude_pure|].
  apply prelude_complaint.
Qed.

Lemma prelude_change_cwd (W : world) (self : plugin) (config_dir : string) :
  PyStr.nonempty (root_dir (config self)) = true ->
  prelude self (MaterialPlugin._change_cwd W self config_dir).
Proof.
  intros Hroot. unfold MaterialPlugin._change_cwd.
  destruct (Os.path_exists W _); [apply prelude_raising|].
  split; [reflexivity|]. cbn. split; [reflexivity|]. right.
  intros E. now rewrite E in Hroot.
Qed.

Lemma material_verdict (W : world) (self : plugin) (C : mkdocs_config)
  (E : surroundings) (I : interpreter) (fuel : nat) :
  switched_off self = false ->
  verdict self I (MaterialPlugin.on_config W self C E I fuel).
Proof.
  unfold switched_off, MaterialPlugin.on_config. intros H.
  apply orb_false_iff in H as [-> ->].
  apply verdict_then.
  { destruct (negb (PyStr.nonempty (root_dir (config self)))
              && negb (PyStr.startswith _ _)).
    - apply prelude_complaint_then.
    - destruct (PyStr.nonempty (root_dir (config self))) eqn:R;
        [now apply prelude_change_cwd | apply prelude_pure]. }
  intros W1.
  apply verdict_then; [apply prelude_raising|]. intros invalid_extensions.
  apply verdict_then.
  { destruct invalid_extensions; [apply prelude_pure|].
    apply prelude_complaint. }
  intros _.
  apply verdict_then; [apply prelude_loading|]. intros loaded_config.
  apply verdict_then; [apply prelude_raising|]. intros paths_to_validate.
  apply verdict_then.
  { destruct (MaterialPlugin.validate_paths W1 paths_to_validate);
      [apply prelude_pure|].
    apply prelude_complaint. }
  intros _. apply verdict_end_after.
Qed.

(** *** What a saved archive tells *)

(** The checks went through: the release could be looked up and
    archives are asked for; when violations stop the run, nothing was
    found. *)
Lemma checks_passed (self : plugin) (E : surroundings) (I : interpreter)
  (log : list event) :
  checks_before_archive self E I = (log, Goes tt) ->
  archive (config self) = true
  /\ exists current,
       latest_release E = Ok current
       /\ (archive_stop_on_violation (config self) = true ->
           PyStr.startswith (present I) current = true
           /\ Py.index (theme_dir E) (theme_dirs E) = Ok 0
           /\ hooks E = []).
Proof.
  unfold checks_before_archive, _help_on_versions_and_exit,
    _help_on_customizations_and_exit, exit_unless_told_not_to.
  destruct (latest_release E) as [current|e]; cbn [raising and_then pure];
    [|discriminate].
  destruct (PyStr.startswith (present I) current) eqn:Sw;
    destruct (archive_stop_on_violation (config self));
    destruct (archive (config self));
    destruct (Py.index (theme_dir E) (theme_dirs E)) as [[|position]|e];
    destruct (hooks E) as [|hook hooks];
    cbn; intros H; try discriminate H;
    (split; [reflexivity|]); exists current; (split; [reflexivity|]);
    intros Hs; try discriminate Hs; repeat split; assumption.
Qed.

Lemma bind_first {A B : Type} (r : result A) (k : A -> run B)
  (log : list event) (o : outcome B) (ev : event) :
  and_then (raising r) k = (log, o) ->
  In ev log ->
  exists a, r = Ok a /\ k a = (log, o).
Proof.
  destruct r as [a|e]; cbn [raising and_then pure].
  - destruct (k a) as [l2 o2] eqn:K. cbn [app]. intros H _.
    injection H as <- <-. now exists a.
  - intros H. injection H as <- <-. intros [].
Qed.

Lemma load_first {A B : Type} (r : option (result A)) (k : A -> run B)
  (log : list event) (o : outcome B) (ev : event) :
  and_then (loading r) k = (log, o) ->
  In ev log ->
  exists a, r = Some (Ok a) /\ k a = (log, o).
Proof.
  destruct r as [[a|e]|]; cbn [loading raising and_then pure].
  - destruct (k a) as [l2 o2] eqn:K. cbn [app]. intros H _.
    injection H as <- <-. now exists a.
  - intros H. injection H as <- <-. intros [].
  - intros H. injection H as <- <-. intros [].
Qed.

(** A complaint that lets the run go on, or none *)
Lemma complaint_first (self : plugin) (silent : bool) (message : string)
  (page : help) (k : unit -> run unit) (log : list event) (o : outcome unit)
  (name : string) (zip : list zip_entry) :
  and_then
    (if silent then pure tt
     else emit (LogError message) ;;; emit (Help page) ;;;
          exit_unless_told_not_to self) k = (log, o) ->
  In (Saved name zip) log ->
  (archive_stop_on_violation (config self) = true -> silent = true)
  /\ exists l2, k tt = (l2, o) /\ In (Saved name zip) l2.
Proof.
  unfold exit_unless_told_not_to.
  destruct silent; [|destruct (archive_stop_on_violation (config self))];
    cbn [and_then pure emit sys_exit app].
  - destruct (k tt) as [l2 o2] eqn:K. cbn [app]. intros H Hin.
    injection H as <- <-. split; [reflexivity|]. now exists l2.
  - intros H. injection H as <- <-. intros [H|[H|[]]]; discriminate H.
  - destruct (k tt) as [l2 o2] eqn:K. cbn [app]. intros H.
    injection H as <- <-.
    intros [H|[H|H]]; try discriminate H.
    split; [discriminate|]. now exists l2.
Qed.

Lemma save_last (self : plugin) (E : surroundings) (I : interpreter)
  (written : result (list zip_entry)) (log : list event) (o : outcome unit)
  (name : string) (zip : list zip_entry) :
  (checks_before_archive self E I ;;; save_and_exit E I written) = (log, o) ->
  In (Saved name zip) log ->
  written = Ok zip
  /\ exists l1, checks_before_archive self E I = (l1, Goes tt).
Proof.
  intros H Hin.
  destruct (checks_before_archive self E I) as [l1 o1] eqn:C.
  destruct (checks_cases self E I l1 o1 C) as (Hs & _).
  destruct o1 as [[]|e|]; cbn [and_then] in H.
  - destruct written as [z|x].
    + rewrite save_and_exit_ok in H. injection H as <- <-.
      destruct (saved_at_end E I l1 z name zip Hs Hin) as [_ ->]. eauto.
    + cbn in H. injection H as <- <-. rewrite app_nil_r in Hin. exfalso. exact (unsaved_in _ _ _ Hs Hin).
  - injection H as <- <-. exfalso. exact (unsaved_in _ _ _ Hs Hin).
  - injection H as <- <-. exfalso. exact (unsaved_in _ _ _ Hs Hin).
Qed.

(** *** Where a help page comes from *)

Lemma and_then_in {A B : Type} (m : run A) (k : A -> run B) (ev : event) :
  In ev (fst (and_then m k)) ->
  In ev (fst m) \/ exists a, snd m = Goes a /\ In ev (fst (k a)).
Proof.
  destruct m as [l1 [a|e|]]; cbn [and_then fst snd]; auto.
  destruct (k a) as [l2 o2] eqn:K. cbn [fst]. intros H.
  apply in_app_or in H as [H|H]; [now left|].
  right. exists a. rewrite K. now split.
Qed.

Lemma raising_in {A B : Type} (r : result A) (k : A -> run B) (ev : event) :
  In ev (fst (and_then (raising r) k)) ->
  exists a, r = Ok a /\ In ev (fst (k a)).
Proof.
  intros H. apply and_then_in in H as [H|[a [Ha H]]].
  - destruct r; destruct H.
  - destruct r as [a0|e]; [|discriminate]. injection Ha as ->. eauto.
Qed.

Lemma loading_in {A B : Type} (r : option (result A)) (k : A -> run B)
  (ev : event) :
  In ev (fst (and_then (loading r) k)) ->
  exists a, r = Some (Ok a) /\ In ev (fst (k a)).
Proof.
  intros H. apply and_then_in in H as [H|[a [Ha H]]].
  - destruct r as [[a|e]|]; destruct H.
  - destruct r as [[a0|e]|]; try discriminate. injection Ha as ->. eauto.
Qed.

(** The help pages of the shared checks, each with its cause *)
Lemma checks_helps (self : plugin) (E : surroundings) (I : interpreter)
  (page : help) :
  In (Help page) (fst (checks_before_archive self E I)) ->
  (exists need,
     page = OnVersions (present I) need
     /\ latest_release E = Ok need
     /\ PyStr.startswith (present I) need = false)
  \/ (page = OnCustomizations
      /\ (Py.index (theme_dir E) (theme_dirs E) <> Ok 0 \/ hooks E <> [])).
Proof.
  unfold checks_before_archive, _help_on_versions_and_exit,
    _help_on_customizations_and_exit, exit_unless_told_not_to.
  destruct (latest_release E) as [current|e]; cbn [raising and_then pure];
    [|intros []].
  destruct (PyStr.startswith (present I) current) eqn:Sw;
    destruct (archive_stop_on_violation (config self));
    destruct (archive (config self));
    destruct (Py.index (theme_dir E) (theme_dirs E)) as [[|position]|e];
    destruct (hooks E) as [|hook hooks];
    cbn; intros H;
    repeat match goal with
      | H : _ \/ _ |- _ => destruct H as [H|H]
      | H : False |- _ => destruct H
      | H : LogError _ = Help _ |- _ => discriminate H
      | H : LogInfo _ = Help _ |- _ => discriminate H
      | H : Help _ = Help _ |- _ => injection H as <-
      end;
    first [ left; exists current; repeat split; assumption
          | right; split; [reflexivity|];
            first [ left; discriminate | right; discriminate ] ].
Qed.

Lemma save_and_exit_helps (E : surroundings) (I : interpreter)
  (written : result (list zip_entry)) (page : help) :
  ~ In (Help page) (fst (save_and_exit E I written)).
Proof.
  destruct written as [zip|e].
  - rewrite save_and_exit_ok. cbn [fst].
    intros [H|[H|H]]; try discriminate H.
    apply size_warning_in in H. discriminate H.
  - intros [].
Qed.

End FlowFacts.

(* ================================================================= *)
(** ** The working directory and the paths of the configuration *)

Module CwdFacts.

Import PyStr Spec PathNames.

(** *** Relative paths *)

Lemma upto_last_head (c a : ascii) (s : string) :
  upto_last c (String a s) = ""
  \/ exists r, upto_last c (String a s) = String a r.
Proof.
  cbn [upto_last]. destruct (upto_last c s).
  - destruct (Ascii.eqb a c); eauto.
  - eauto.
Qed.

Lemma rstrip_head (c a : ascii) (s : string) :
  rstrip c (String a s) = ""
  \/ exists r, rstrip c (String a s) = String a r.
Proof.
  cbn [rstrip]. destruct (rstrip c s).
  - destruct (Ascii.eqb a c); eauto.
  - eauto.
Qed.

(** The directory of a relative path is relative. *)
Lemma dirname_relative (p : string) :
  PosixPath.isabs p = false -> PosixPath.isabs (PosixPath.dirname p) = false.
Proof.
  destruct p as [|a p]; [reflexivity|]. intros Hrel.
  assert (Ha : Ascii.eqb "/" a = false).
  { unfold PosixPath.isabs in Hrel. cbn [startswith] in Hrel.
    now apply andb_false_iff in Hrel as [H|H]. }
  unfold PosixPath.dirname.
  destruct (upto_last_head PosixPath.sep a p) as [->|[r ->]]; [reflexivity|].
  assert (Hr : forall t, PosixPath.isabs (String a t) = false).
  { intros t. unfold PosixPath.isabs. cbn [startswith]. now rewrite Ha. }
  destruct (nonempty (String a r) && negb (all_char PosixPath.sep (String a r)));
    [|apply Hr].
  destruct (rstrip_head PosixPath.sep a r) as [->|[t ->]];
    [reflexivity | apply Hr].
Qed.

Lemma relative_outside (W : world) (p : string) :
  PosixPath.isabs p = false -> startswith p (Os.getcwd W) = false.
Proof.
  intros Hrel. destruct (startswith p (Os.getcwd W)) eqn:S; [|reflexivity].
  apply StrFacts.startswith_inv in S as [r ->].
  unfold Os.getcwd in Hrel. discriminate Hrel.
Qed.

(** A relative path of plain names, joined to the working directory,
    is the path of the place it names. *)
Lemma path_of_joined (l : loc) (c : string) (cs : list string) :
  path_of (l ++ [PyStr.join "/" (c :: cs)]) = path_of (l ++ c :: cs).
Proof.
  rewrite !path_of_slashed by (now destruct l).
  rewrite !slashed_app. cbn [slashed]. rewrite join_slashed.
  now rewrite StrFacts.append_assoc, StrFacts.append_empty_r.
Qed.

Lemma absolute_config_path_inside (W : world) (C : mkdocs_config)
  (names : list string) :
  Forall (fun c => plain_name c = true) (fs_cwd W) ->
  Forall (fun c => plain_name c = true) names ->
  names <> [] ->
  config_file_path C = PyStr.join "/" names ->
  SrcPlugin.absolute_config_path W C = path_of (fs_cwd W ++ names).
Proof.
  intros Hcwd Hnames Hne Hpath. unfold SrcPlugin.absolute_config_path.
  destruct names as [|c cs]; [contradiction|].
  assert (Hrel : startswith (PyStr.join "/" (c :: cs)) "/" = false)
    by now apply join_relative, plain_is_component.
  rewrite Hpath. unfold PosixPath.isabs. rewrite Hrel.
  change (Os.getcwd W) with (path_of (fs_cwd W)).
  rewrite join_path_of by assumption.
  rewrite path_of_joined.
  rewrite <- (app_nil_r (fs_cwd W ++ c :: cs)) at 1.
  apply normpath_path_of; [|now left].
  apply Forall_app. now split.
Qed.

Lemma inside_startswith (W : world) (names : list string) :
  startswith (path_of (fs_cwd W ++ names)) (Os.getcwd W) = true.
Proof.
  destruct names as [|c cs].
  - rewrite app_nil_r. change (path_of (fs_cwd W)) with (Os.getcwd W).
    rewrite <- (StrFacts.append_empty_r (Os.getcwd W)) at 1.
    apply StrFacts.startswith_append.
  - rewrite ShapeFacts.path_of_under by discriminate.
    apply StrFacts.startswith_append.
Qed.

(** *** [os.chdir] *)

Lemma steps_from_nowhere (root : node) (comps : list string) :
  fold_left (FS.step root) comps None = None.
Proof. induction comps; [reflexivity | assumption]. Qed.

(** The two resolutions lead to the same place. *)
Lemma reach_resolve (root : node) (comps : list string) :
  forall here l,
    FS.reach root here comps = Ok l
    <-> fold_left (FS.step root) comps (Some here) = Some l.
Proof.
  induction comps as [|comp comps IH]; intros here l.
  - cbn. split; intros H; now injection H as <-.
  - cbn [FS.reach fold_left]. unfold FS.step at 2.
    destruct (FS.get root here) as [[| [|] |es]|];
      try (rewrite steps_from_nowhere; split; discriminate).
    destruct (String.eqb comp "" || String.eqb comp "."); [apply IH|].
    destruct (String.eqb comp ".."); [apply IH|].
    destruct (FS.get root (here ++ [comp])); [apply IH|].
    rewrite steps_from_nowhere. split; discriminate.
Qed.

Lemma chdir_lookup (W : world) (path : string) (l : loc) :
  FS.resolve (fs_root W) (fs_cwd W) path = Some l ->
  Os.chdir W path
  = match FS.get (fs_root W) l with
    | Some (Dir _) =>
        Ok {| fs_root := fs_root W; fs_cwd := l;
              os_sep := os_sep W; yaml_load := yaml_load W |}
    | Some (Other false) => Raised FileNotFoundError
    | Some _ => Raised OSError
    | None => Raised FileNotFoundError
    end.
Proof.
  unfold FS.resolve, Os.chdir.
  destruct (negb (nonempty path)); [discriminate|].
  intros H. apply reach_resolve in H. unfold bind.
  match goal with
  | |- match ?r with Ok _ => _ | Raised _ => _ end = _ =>
      assert (E : r = Ok l) by exact H; now rewrite E
  end.
Qed.

(** *** The listings of the help pages *)

Lemma partition_permutation {A : Type} (f : A -> bool) (l : list A) :
  Permutation (filter f l ++ filter (fun x => negb (f x)) l) l.
Proof.
  induction l as [|x l IH]; [constructor|]. cbn [filter].
  destruct (f x); cbn [negb app].
  - now constructor.
  - apply Permutation_sym, Permutation_cons_app, Permutation_sym, IH.
Qed.

(** *** The paths of the Markdown extensions *)

Lemma getcwd_absolute (W : world) : PosixPath.isabs (Os.getcwd W) = true.
Proof. reflexivity. Qed.

Lemma abspath_absolute (W : world) (path : string) :
  PosixPath.isabs (PosixPath.abspath (Os.getcwd W) path) = true.
Proof.
  unfold PosixPath.abspath. apply PathFacts.normpath_absolute.
  destruct (PosixPath.isabs path) eqn:A; [assumption|].
  apply PathFacts.join_absolute, getcwd_absolute.
Qed.

Lemma fold_raised_any {A B : Type} (f : result B -> A -> result B)
  (l : list A) (e : exn) :
  (forall a, f (Raised e) a = Raised e) ->
  fold_left f l (Raised e) = Raised e.
Proof. intros Hf. induction l as [|a l IH]; simpl; [|rewrite Hf]; auto. Qed.

Section Extensions.

Variable W : world.
Variable mdx : list (string * list (pyval * pyval)).

(** What holds of every entry of [invalid_extensions] *)
Variable Q : string * string * string -> Prop.

Hypothesis HQ :
  forall ext option cfg path,
    In (ext, cfg) mdx ->
    In option ["base_path"; "auto_append"; "relative_path"] ->
    (exists paths, Py.dict_get option cfg = Some paths
                   /\ In (PStr path) (as_list paths)) ->
    PyStr.startswith (PosixPath.abspath (Os.getcwd W) path) (Os.getcwd W)
    = false
    \/ Os.path_exists W (PosixPath.abspath (Os.getcwd W) path) = false ->
    Q (ext, option, PosixPath.abspath (Os.getcwd W) path).

Lemma check_paths_invariant (ext option : string) (cfg : list (pyval * pyval))
  (paths : pyval) :
  In (ext, cfg) mdx ->
  In option ["base_path"; "auto_append"; "relative_path"] ->
  Py.dict_get option cfg = Some paths ->
  forall todo invalid invalid',
    incl todo (as_list paths) ->
    Forall Q invalid ->
    fold_left (MaterialPlugin.check_extension_path W ext option) todo
      (Ok invalid) = Ok invalid' ->
    Forall Q invalid'.
Proof.
  intros Hext Hopt Hget.
  induction todo as [|p todo IH]; intros invalid invalid' Hincl Hall H.
  - injection H as <-. exact Hall.
  - cbn [fold_left] in H.
    destruct (MaterialPlugin.check_extension_path W ext option (Ok invalid) p)
      as [next|e] eqn:E.
    2:{ rewrite fold_raised_any in H; [discriminate | reflexivity]. }
    apply (IH next invalid'); [| |exact H].
    + intros x Hx. apply Hincl. now right.
    + unfold MaterialPlugin.check_extension_path in E. cbn [bind] in E.
      destruct p as [| | |path| |]; try discriminate. cbn [Py.as_path bind] in E.
      assert (Hp : exists paths0,
                 Py.dict_get option cfg = Some paths0
                 /\ In (PStr path) (as_list paths0)).
      { exists paths. split; [assumption|]. apply Hincl. now left. }
      destruct (negb (startswith _ _)) eqn:S.
      * injection E as <-. apply Forall_app. split; [assumption|].
        constructor; [|constructor].
        apply (HQ ext option cfg path Hext Hopt Hp). left.
        now apply negb_true_iff in S.
      * destruct (negb (Os.path_exists W _)) eqn:X.
        -- injection E as <-. apply Forall_app. split; [assumption|].
           constructor; [|constructor].
           apply (HQ ext option cfg path Hext Hopt Hp). right.
           now apply negb_true_iff in X.
        -- now injection E as <-.
Qed.

Lemma check_option_invariant (option : string) :
  In option ["base_path"; "auto_append"; "relative_path"] ->
  forall todo invalid invalid',
    incl todo mdx ->
    Forall Q invalid ->
    fold_left
      (fun invalid x =>
         match Py.dict_get option (snd x) with
         | Some paths =>
             fold_left (MaterialPlugin.check_extension_path W (fst x) option)
               (as_list paths) invalid
         | None => invalid
         end)
      todo (Ok invalid) = Ok invalid' ->
    Forall Q invalid'.
Proof.
  intros Hopt.
  induction todo as [|[ext cfg] todo IH]; intros invalid invalid' Hincl Hall H.
  - injection H as <-. exact Hall.
  - cbn [fold_left fst snd] in H.
    assert (Hrest : incl todo mdx) by (intros x Hx; apply Hincl; now right).
    assert (Hext : In (ext, cfg) mdx) by (apply Hincl; now left).
    destruct (Py.dict_get option cfg) as [paths|] eqn:G;
      [|now apply (IH invalid invalid')].
    destruct (fold_left (MaterialPlugin.check_extension_path W ext option)
                (as_list paths) (Ok invalid)) as [next|e] eqn:F.
    + apply (IH next invalid' Hrest); [|exact H].
      apply (check_paths_invariant ext option cfg paths Hext Hopt G
               (as_list paths) invalid next (incl_refl _) Hall F).
    + rewrite fold_raised_any in H; [discriminate|].
      intros [ext0 cfg0]. cbn [fst snd].
      destruct (Py.dict_get option cfg0); [|reflexivity].
      apply fold_raised_any. reflexivity.
Qed.

Lemma check_extensions_invariant (invalid : list (string * string * string)) :
  MaterialPlugin.check_extensions W mdx = Ok invalid -> Forall Q invalid.
Proof.
  unfold MaterialPlugin.check_extensions.
  assert (Hgen : forall options start invalid',
             incl options ["base_path"; "auto_append"; "relative_path"] ->
             Forall Q start ->
             fold_left (MaterialPlugin.check_option W mdx) options (Ok start)
             = Ok invalid' ->
             Forall Q invalid').
  { induction options as [|option options IH];
      intros start invalid' Hincl Hall H.
    - injection H as <-. exact Hall.
    - cbn [fold_left] in H.
      destruct (MaterialPlugin.check_option W mdx (Ok start) option)
        as [next|e] eqn:F.
      + apply (IH next invalid'); [| |exact H].
        * intros x Hx. apply Hincl. now right.
        * apply (check_option_invariant option (Hincl option (or_introl eq_refl))
                   mdx start next (incl_refl _) Hall F).
      + rewrite fold_raised_any in H; [discriminate|].
        intros option0. unfold MaterialPlugin.check_option.
        apply fold_raised_any. intros [ext0 cfg0]. cbn [fst snd].
        destruct (Py.dict_get option0 cfg0); [|reflexivity].
        apply fold_raised_any. reflexivity. }
  apply Hgen; [apply incl_refl | constructor].
Qed.

End Extensions.

End CwdFacts.

(* ================================================================= *)
(** ** The exclusion engine, as specified *)

(** C6, where it fails.  [translate] deletes a range whose bounds are
    out of order and then takes an exclamation mark that comes to
    stand first for the mark of negation: [[b-a!x]] excludes the path
    [z], which no reading of the bracket expression lists. *)
Lemma reversed_range_negates_the_set :
  SrcPlugin._is_excluded ["[b-a!x]"] "z" = true
  /\ ~ (exists pattern,
          In pattern ["[b-a!x]"] /\ Spec.shell_match pattern "z").
Proof.
  split; [reflexivity|].
  intros [pattern [[<-|[]] H]].
  assert (Hseq : Spec.is_seq false "b-a!x").
  { split; [|discriminate].
    intros [E|[E|[E|[E|[]]]]]; discriminate E. }
  inversion H as [ | | | |chars p c n Hs Hl Hm E| | | ].
  assert (E' : Spec.bracket false chars p = Spec.bracket false "b-a!x" "")
    by (unfold Spec.bracket; now rewrite E).
  destruct (ShellFacts.bracket_one _ _ _ _ _ _ Hs Hseq E') as (_ & -> & _).
  apply ShellFacts.listed_items in Hl. discriminate Hl.
Qed.



(** C10. [_resolve_pattern] removes the first occurrence of the working
    directory wherever it stands: for a path that does not start with
    the working directory but holds it further in, the result is built
    from the path without that occurrence. *)
Theorem resolve_pattern_removes_inner_occurrence
  (W : world) (pre post : string) :
  pre <> "" ->
  (forall i, i < String.length pre ->
     PyStr.startswith (PyStr.drop i (pre +++ Os.getcwd W +++ post))
       (Os.getcwd W) = false) ->
  PyStr.startswith (pre +++ Os.getcwd W +++ post) (Os.getcwd W) = false
  /\ SrcPlugin._resolve_pattern W (pre +++ Os.getcwd W +++ post)
     = PyStr.replace (pre +++ post) (os_sep W) "/" None
       +++ (if Os.isfile W (pre +++ Os.getcwd W +++ post) then "" else "/").
Proof.
  intros Hpre Hno. split.
  - apply (Hno 0). destruct pre; [congruence | simpl; lia].
  - unfold SrcPlugin._resolve_pattern.
    rewrite StrFacts.replace_first_inner
      by (try apply PatternFacts.getcwd_nonempty; assumption).
    cbn [String.append].
    assert (Hne : PyStr.nonempty
                    (PyStr.replace (pre +++ post) (os_sep W) "/" None) = true).
    { apply StrFacts.nonempty_true. unfold PyStr.replace.
      apply StrFacts.replace_from_nonempty; [discriminate|].
      destruct pre; [congruence | discriminate]. }
    rewrite Hne. cbn [negb].
    destruct (Os.isfile W (pre +++ Os.getcwd W +++ post)); cbn [negb].
    + now rewrite StrFacts.append_empty_r.
    + reflexivity.
Qed.

Lemma resolve_pattern_removes_inner_occurrence_witness :
  PyStr.startswith "/srv/proj/docs" (Os.getcwd Demo.project) = false
  /\ SrcPlugin._resolve_pattern Demo.project "/srv/proj/docs" = "/srv/docs/".
Proof.
  apply (resolve_pattern_removes_inner_occurrence Demo.project "/srv" "/docs").
  - discriminate.
  - intros i Hi. do 4 (destruct i as [|i]; [reflexivity|]).
    simpl in Hi. lia.
Defined.

(** C5, at the input on which the code leaves the stated behaviour: the
    output directory [/tmp/proj/site] of a sub-project, outside the
    working directory [/proj].  The path has no working-directory
    prefix to strip, yet the occurrence of [/proj] inside it is
    removed.  The pattern that results is the one of the directory
    [/proj/tmp/site] of the project itself, whose files are then left
    out of the archive. *)
Theorem resolve_pattern_on_foreign_path :
  Os.getcwd Demo.with_project = "/proj"
  /\ PyStr.startswith "/tmp/proj/site" "/proj" = false
  /\ SrcPlugin._resolve_pattern Demo.with_project "/tmp/proj/site"
     = "/tmp/site/"
  /\ SrcPlugin._resolve_pattern Demo.with_project "/proj/tmp/site"
     = "/tmp/site/"
  /\ SrcPlugin.exclusion_patterns Demo.with_project Demo.with_project_config
       Demo.python ""
     = ["/site/"; "/tmp/site/"]
  /\ SrcPlugin.bundle Demo.with_project Demo.with_project_config
       Demo.python ""
     = Ok [{| filename := "9.5.0-my-bug/mkdocs.yml"; data := "grand" |};
           {| filename := "9.5.0-my-bug/docs/index.md"; data := "# Home" |};
           {| filename := "9.5.0-my-bug/requirements.lock.txt";
              data := PyStr.join newline
                        ["Markdown==3.5"; "jinja2==3.1"; "mkdocs==1.6.0"] |};
           {| filename := "9.5.0-my-bug/platform.json"; data := "{}" |}].
Proof. repeat split. Qed.

(* ================================================================= *)
(** ** Path validation, as specified *)

(** C1, as stated, fails on both variants.  In [src/plugins] a path
    inside the working directory that does not exist is not reported:
    the loop never asks whether a path exists.  Here the projects
    directory [/proj/projects] is missing and the validation of
    [on_config] reports nothing.  In [material/plugins] the loop has
    no test for emptiness: an empty candidate is reported. *)
Lemma validation_differs_from_stated_test :
  (SrcPlugin.abs_projects_dir Demo.project Demo.project_config
   = "/proj/projects"
   /\ Spec.violation Demo.project "/proj/projects"
   /\ SrcPlugin.paths_not_in_cwd Demo.project Demo.project_config 3
      = Some (Ok []))
  /\ (MaterialPlugin.validate_paths Demo.project [""] = [""]
      /\ ~ Spec.violation Demo.project "").
Proof.
  split; [split; [|split] | split].
  - reflexivity.
  - split; [discriminate | right; reflexivity].
  - reflexivity.
  - reflexivity.
  - intros [H _]. now apply H.
Qed.

(** C1, amended.  In [src/plugins] a candidate path is reported exactly
    when it is non-empty and does not start with the working directory;
    empty candidates are never reported, and existence is not tested.
    In [material/plugins] a candidate path is reported exactly when it
    does not start with the working directory or does not exist. *)
Theorem validation_reports (W : world) (paths : list string) (path : string) :
  (exists reported,
     SrcPlugin.validate_paths W paths = Ok reported
     /\ (In path reported <->
         In path paths
         /\ path <> ""
         /\ PyStr.startswith path (Os.getcwd W) = false))
  /\ (In path (MaterialPlugin.validate_paths W paths) <->
      In path paths
      /\ (PyStr.startswith path (Os.getcwd W) = false
          \/ Os.path_exists W path = false)).
Proof.
  split.
  - eexists. split; [apply ValidateFacts.src_validate_paths|].
    rewrite filter_In, ValidateFacts.stays_true. reflexivity.
  - rewrite ValidateFacts.material_validate_paths.
    rewrite filter_In, ValidateFacts.invalid_true. reflexivity.
Qed.

(** C2, as stated, fails: the violations are kept in a list, and a path
    outside the working directory that two sources name is reported
    twice.  Here the documentation directory and the projects directory
    are the same [/other/docs]. *)
Lemma repeated_violation_reported_twice :
  SrcPlugin.paths_not_in_cwd Demo.project Demo.outside_config 3
  = Some (Ok ["/other/docs"; "/other/docs"])
  /\ MaterialPlugin.validate_paths Demo.project
       ["/proj/docs"; "/other/docs"; "/other/docs"]
     = ["/other/docs"; "/other/docs"]
  /\ count_occ string_dec ["/other/docs"; "/other/docs"] "/other/docs" <> 1.
Proof. repeat split. discriminate. Qed.

(** C2, amended.  A non-empty path outside the working directory is
    reported once for each candidate source that names it: it occurs
    in the reported list as often as among the candidates. *)
Theorem violations_keep_every_occurrence
  (W : world) (paths : list string) (path : string) :
  path <> "" ->
  PyStr.startswith path (Os.getcwd W) = false ->
  (exists reported,
     SrcPlugin.validate_paths W paths = Ok reported
     /\ count_occ string_dec reported path = count_occ string_dec paths path)
  /\ count_occ string_dec (MaterialPlugin.validate_paths W paths) path
     = count_occ string_dec paths path.
Proof.
  intros Hne Hout. split.
  - eexists. split; [apply ValidateFacts.src_validate_paths|].
    rewrite ValidateFacts.count_occ_filter.
    now rewrite (proj2 (ValidateFacts.stays_true _ _) (conj Hne Hout)).
  - rewrite ValidateFacts.material_validate_paths.
    rewrite ValidateFacts.count_occ_filter.
    now rewrite (proj2 (ValidateFacts.invalid_true _ _) (or_introl Hout)).
Qed.

Lemma violations_keep_every_occurrence_witness :
  (exists reported,
     SrcPlugin.validate_paths Demo.project
       ["/proj/mkdocs.yml"; "/other/docs"; "/proj/docs"; "/other/docs"]
     = Ok reported
     /\ count_occ string_dec reported "/other/docs" = 2)
  /\ count_occ string_dec
       (MaterialPlugin.validate_paths Demo.project
          ["/proj/mkdocs.yml"; "/other/docs"; "/proj/docs"; "/other/docs"])
       "/other/docs" = 2.
Proof.
  apply (violations_keep_every_occurrence Demo.project
           ["/proj/mkdocs.yml"; "/other/docs"; "/proj/docs"; "/other/docs"]
           "/other/docs").
  - discriminate.
  - reflexivity.
Defined.

(* ================================================================= *)
(** ** The configuration loader, as specified *)



(** C3. The resolved paths are not always absolute.  [src/plugins]
    makes [config.config_file_path] absolute before it loads the
    chain; [material/plugins] hands it to the loader as MkDocs gives
    it, which is the path typed after [-f].  For the chain of three
    files of the project in [/proj], loaded by [mkdocs.yml], the loader
    of [material/plugins] returns the three fragments in order, but
    the [INHERIT] of the child and of the parent are rewritten to
    [base/parent.yml] and [grand.yml], which are not absolute; with
    [root_dir] set, [on_config] then goes on to report these two files
    of the project as invalid paths.  On the same input [src/plugins]
    rewrites them to [/proj/base/parent.yml] and [/proj/grand.yml]. *)
Theorem yaml_load_keeps_inherit_relative :
  MaterialPlugin._yaml_load Demo.project 3 (config_file_path Demo.as_given)
  = Some (Ok (PList
       [PDict [(PStr "site_name", PStr "demo");
               (PStr "INHERIT", PStr "base/parent.yml")];
        PDict [(PStr "INHERIT", PStr "grand.yml")];
        PDict [(PStr "theme", PStr "material")]]))
  /\ PosixPath.isabs "base/parent.yml" = false
  /\ PosixPath.isabs "grand.yml" = false
  /\ In (Help (OnBadPaths ["base/parent.yml"; "grand.yml"] []))
        (fst (MaterialPlugin.on_config Demo.project
                (on_startup (__init__ Demo.rooted) "build")
                Demo.as_given Demo.up_to_date Demo.python 3))
  /\ SrcPlugin._load_yaml Demo.project 3
       (SrcPlugin.absolute_config_path Demo.project Demo.as_given)
     = Some (Ok (PList
          [PDict [(PStr "site_name", PStr "demo");
                  (PStr "INHERIT", PStr "/proj/base/parent.yml")];
           PDict [(PStr "INHERIT", PStr "/proj/grand.yml")];
           PDict [(PStr "theme", PStr "material")]])).
Proof.
  split; [reflexivity|]. split; [reflexivity|]. split; [reflexivity|].
  split; [|reflexivity].
  vm_compute. right. left. reflexivity.
Qed.

(** C7. When the text of the file fails to parse, the loader returns an
    empty mapping instead of raising, and so it does when the parser
    yields nothing (or any other false value); and whatever the loader
    returns, it is never [None]. *)
Theorem load_swallows_parse_errors
  (W : world) (fuel : nat) (source_path : string) :
  (forall source,
     Os.read W source_path = Ok source ->
     yaml_load W source = None ->
     SrcPlugin._load_yaml W (S fuel) source_path = Some (Ok (PDict []))
     /\ MaterialPlugin._yaml_load W (S fuel) source_path
        = Some (Ok (PDict [])))
  /\ (forall source v,
        Os.read W source_path = Ok source ->
        yaml_load W source = Some v ->
        Py.truthy v = false ->
        SrcPlugin._load_yaml W (S fuel) source_path = Some (Ok (PDict []))
        /\ MaterialPlugin._yaml_load W (S fuel) source_path
           = Some (Ok (PDict [])))
  /\ (forall v,
        SrcPlugin._load_yaml W fuel source_path = Some (Ok v)
        \/ MaterialPlugin._yaml_load W fuel source_path = Some (Ok v) ->
        v <> PNone).
Proof.
  assert (Hempty : forall source,
            Os.read W source_path = Ok source ->
            yaml_or_empty W source = PDict [] ->
            SrcPlugin._load_yaml W (S fuel) source_path
            = Some (Ok (PDict []))).
  { intros source R Y.
    now apply (LoaderFacts.load_without_inherit W fuel source_path source []). }
  split; [|split].
  - intros source R Y. split; apply (Hempty source R);
      unfold yaml_or_empty; now rewrite Y.
  - intros source v R Y F. split; apply (Hempty source R);
      unfold yaml_or_empty; rewrite Y; now apply LoaderFacts.or_empty_falsy.
  - intros v [H|H];
      apply LoaderFacts.load_returns_or_empty in H as [x ->];
      apply LoaderFacts.or_empty_not_none.
Qed.

Lemma load_swallows_parse_errors_witness :
  (SrcPlugin._load_yaml Demo.project 1 "/proj/broken.yml"
   = Some (Ok (PDict []))
   /\ MaterialPlugin._yaml_load Demo.project 1 "/proj/broken.yml"
      = Some (Ok (PDict [])))
  /\ (SrcPlugin._load_yaml Demo.project 1 "/proj/empty.yml"
      = Some (Ok (PDict []))
      /\ MaterialPlugin._yaml_load Demo.project 1 "/proj/empty.yml"
         = Some (Ok (PDict [])))
  /\ PDict [(PStr "theme", PStr "material")] <> PNone.
Proof.
  split; [|split].
  - apply (proj1 (load_swallows_parse_errors Demo.project 0 "/proj/broken.yml")
             "key: [unclosed"); reflexivity.
  - apply (proj1 (proj2 (load_swallows_parse_errors
                           Demo.project 0 "/proj/empty.yml"))
             "" PNone); reflexivity.
  - apply (proj2 (proj2 (load_swallows_parse_errors
                           Demo.project 1 "/proj/grand.yml"))).
    left. reflexivity.
Defined.

(** C9. On a chain of configuration files that visits no file twice,
    the loader comes back: the chain has a last file, at most as far
    as the tree has places, the calls nest exactly as deep as the
    chain is long, and with that much fuel or more the loader gives
    one and the same answer.  On a chain that comes back to a path
    already visited, the loader never answers: nothing in it guards
    against the cycle. *)
Theorem load_terminates_on_acyclic_chains (W : world) (path : string) :
  (Spec.acyclic W path ->
   exists n r,
     n <= S (List.length (FS.locs (fs_root W)))
     /\ Spec.chain_at W path n = None
     /\ (forall fuel, n <= fuel ->
           SrcPlugin._load_yaml W fuel path = Some r
           /\ MaterialPlugin._yaml_load W fuel path = Some r)
     /\ (forall fuel, fuel < n ->
           SrcPlugin._load_yaml W fuel path = None))
  /\ (forall i j a,
        i < j ->
        Spec.chain_at W path i = Some a ->
        Spec.chain_at W path j = Some a ->
        forall fuel,
          SrcPlugin._load_yaml W fuel path = None
          /\ MaterialPlugin._yaml_load W fuel path = None).
Proof.
  split.
  - intros Hacyc.
    destruct (LoaderFacts.acyclic_chain_ends W path Hacyc) as [n0 [Hn0 Hend0]].
    destruct (LoaderFacts.chain_first_end W path n0 Hend0)
      as [n [Hn [Hend Hmin]]].
    destruct (LoaderFacts.load_answers W n path Hend) as [r Hr].
    exists n, r. split; [lia|]. split; [assumption|]. split.
    + intros fuel Hfuel. replace fuel with (n + (fuel - n)) by lia.
      split; apply Hr.
    + intros fuel Hfuel. apply LoaderFacts.load_runs_out. now apply Hmin.
  - intros i j a Hij Hi Hj fuel.
    split; apply LoaderFacts.load_runs_out;
      now apply (LoaderFacts.cyclic_chain_goes_on W path a i j).
Qed.

Lemma load_terminates_on_acyclic_chains_witness :
  (exists n r,
     n <= S (List.length (FS.locs (fs_root Demo.project)))
     /\ Spec.chain_at Demo.project "/proj/mkdocs.yml" n = None
     /\ (forall fuel, n <= fuel ->
           SrcPlugin._load_yaml Demo.project fuel "/proj/mkdocs.yml" = Some r
           /\ MaterialPlugin._yaml_load Demo.project fuel "/proj/mkdocs.yml"
              = Some r)
     /\ (forall fuel, fuel < n ->
           SrcPlugin._load_yaml Demo.project fuel "/proj/mkdocs.yml" = None))
  /\ (forall fuel,
        SrcPlugin._load_yaml Demo.project fuel "/proj/loop.yml" = None
        /\ MaterialPlugin._yaml_load Demo.project fuel "/proj/loop.yml" = None).
Proof.
  split.
  - apply (proj1 (load_terminates_on_acyclic_chains
                    Demo.project "/proj/mkdocs.yml")).
    intros i j a b Hij Hi Hj Heq.
    destruct j as [|[|[|j]]].
    + lia.
    + destruct i as [|i]; [|lia].
      vm_compute in Hi, Hj. injection Hi as <-. injection Hj as <-.
      vm_compute in Heq. discriminate.
    + destruct i as [|[|i]]; [| |lia];
        vm_compute in Hi, Hj; injection Hi as <-; injection Hj as <-;
        vm_compute in Heq; discriminate.
    + vm_compute in Hj. discriminate.
  - apply (proj2 (load_terminates_on_acyclic_chains
                    Demo.project "/proj/loop.yml") 0 1 "/proj/loop.yml").
    + lia.
    + reflexivity.
    + reflexivity.
Defined.

(* ================================================================= *)
(** ** The walk and the archive, as specified *)

(** C4. With the pattern [build/] loaded, [_is_excluded] answers true
    on the normalised path [build/]; a directory that normalises to it
    is taken out of [dirnames] before the walk goes down, and the
    archive that the walk produces is the same whatever lies beneath
    that directory: nothing beneath it is listed, read or written. *)
Theorem build_directory_is_pruned
  (W : world) (patterns : list string) (example abs_root name : string)
  (es sub : list (string * node)) (zip : list zip_entry) :
  In "build/" patterns ->
  SrcPlugin._resolve_pattern W (PosixPath.join abs_root name) = "build/" ->
  SrcPlugin._is_excluded patterns "build/" = true
  /\ (exists dirnames,
        SrcPlugin.prune_dirnames W patterns abs_root (SrcPlugin.dirnames_of es)
        = Ok dirnames
        /\ ~ In name dirnames)
  /\ SrcPlugin.walk W patterns example abs_root
       (Dir (Spec.with_contents name sub es)) zip
     = SrcPlugin.walk W patterns example abs_root (Dir es) zip.
Proof.
  intros Hpat Hnorm.
  assert (Hex : SrcPlugin._is_excluded patterns "build/" = true).
  { apply PatternFacts.is_excluded_true. exists "build/". now split. }
  assert (Hk : Spec.kept W patterns abs_root name = false).
  { unfold Spec.kept. now rewrite Hnorm, Hex. }
  split; [exact Hex|]. split.
  - eexists. split; [apply WalkFacts.prune_dirnames_filter|].
    intros Hin. apply filter_In in Hin as [_ Hin]. congruence.
  - now apply WalkFacts.walk_ignores_pruned.
Qed.

Lemma build_directory_is_pruned_witness :
  SrcPlugin._is_excluded ["build/"] "build/" = true
  /\ (exists dirnames,
        SrcPlugin.prune_dirnames Demo.at_root ["build/"] "/"
          ["docs"; "build"]
        = Ok dirnames
        /\ ~ In "build" dirnames)
  /\ SrcPlugin.walk Demo.at_root ["build/"] "9.5.0-my-bug" "/"
       (Dir [("mkdocs.yml", Reg "grand");
             ("docs", Dir [("index.md", Reg "# Home")]);
             ("build", Dir [])]) []
     = SrcPlugin.walk Demo.at_root ["build/"] "9.5.0-my-bug" "/"
         (Dir [("mkdocs.yml", Reg "grand");
               ("docs", Dir [("index.md", Reg "# Home")]);
               ("build", Dir [("out.html", Reg "<html>")])]) [].
Proof.
  apply (build_directory_is_pruned Demo.at_root ["build/"] "9.5.0-my-bug"
           "/" "build"
           [("mkdocs.yml", Reg "grand");
            ("docs", Dir [("index.md", Reg "# Home")]);
            ("build", Dir [("out.html", Reg "<html>")])]
           [] []).
  - left. reflexivity.
  - reflexivity.
Defined.



(* ================================================================= *)
(** ** More on the exclusion patterns *)

(** X1. Whatever the text of [info.gitignore], every pattern that
    [_load_exclusion_patterns] returns is a non-empty line that does
    not start with a hash sign, has no white space at either end
    (stripping it again changes nothing) and holds no line break. *)
Theorem loaded_patterns_are_stripped_lines (text : string) :
  Forall
    (fun line =>
       line <> ""
       /\ PyStr.startswith line "#" = false
       /\ SrcPlugin.rstrip_space (SrcPlugin.lstrip_space line) = line
       /\ ~ In (ascii_of_nat 10) (list_ascii_of_string line))
    (SrcPlugin._load_exclusion_patterns text).
Proof.
  unfold SrcPlugin._load_exclusion_patterns.
  apply Forall_forall. intros line Hin.
  apply filter_In in Hin. destruct Hin as [Hin Hkeep].
  apply in_map_iff in Hin. destruct Hin as (piece & <- & Hpiece).
  apply andb_true_iff in Hkeep. destruct Hkeep as [Hne Hcomment].
  repeat split.
  - intros E. now rewrite E in Hne.
  - now apply negb_true_iff in Hcomment.
  - apply LineFacts.strip_idem.
  - intros H.
    apply LineFacts.rstrip_space_chars, LineFacts.lstrip_space_chars in H.
    exact (LineFacts.split_pieces _ _ _ Hpiece H).
Qed.

(** X2. The patterns are loaded line by line: the patterns of two
    texts put one after the other, with a line break between them, are
    the patterns of the first followed by the patterns of the
    second. *)
Theorem patterns_load_line_by_line (a b : string) :
  SrcPlugin._load_exclusion_patterns (a +++ newline +++ b)
  = SrcPlugin._load_exclusion_patterns a
    ++ SrcPlugin._load_exclusion_patterns b.
Proof.
  unfold SrcPlugin._load_exclusion_patterns, newline.
  change (String (ascii_of_nat 10) "" +++ b) with (String (ascii_of_nat 10) b).
  now rewrite LineFacts.split_around, map_app, filter_app.
Qed.

(** X3. Loading is a round trip on what it returns: writing the loaded
    patterns one per line and loading that text gives the same
    patterns, in the same order. *)
Theorem loaded_patterns_load_again (text : string) :
  SrcPlugin._load_exclusion_patterns
    (PyStr.join newline (SrcPlugin._load_exclusion_patterns text))
  = SrcPlugin._load_exclusion_patterns text.
Proof.
  generalize (LineFacts.loaded_lines text).
  generalize (SrcPlugin._load_exclusion_patterns text).
  intros lines Hall.
  induction Hall as [|line lines Hline Hlines IH]; [reflexivity|].
  destruct lines as [|next lines].
  - simpl. now apply LineFacts.load_line.
  - change (PyStr.join newline (line :: next :: lines))
      with (line +++ newline +++ PyStr.join newline (next :: lines)).
    rewrite LineFacts.load_app, IH, (LineFacts.load_line _ Hline).
    reflexivity.
Qed.

(** X4. [_resolve_pattern] never returns the empty string, and
    whenever its argument is not a regular file (a directory, a
    missing path, anything else) the pattern it returns ends in a
    slash. *)
Theorem resolve_pattern_marks_directories (W : world) (abspath : string) :
  SrcPlugin._resolve_pattern W abspath <> ""
  /\ (Os.isfile W abspath = false ->
      PyStr.endswith_char (SrcPlugin._resolve_pattern W abspath) "/" = true).
Proof.
  split.
  - apply ShapeFacts.resolve_pattern_nonempty.
  - apply ShapeFacts.resolve_pattern_directory.
Qed.

Lemma resolve_pattern_marks_directories_witness :
  SrcPlugin._resolve_pattern Demo.project "/proj/docs" <> ""
  /\ PyStr.endswith_char (SrcPlugin._resolve_pattern Demo.project "/proj/docs")
       "/" = true.
Proof.
  destruct (resolve_pattern_marks_directories Demo.project "/proj/docs")
    as [Hne Hdir].
  split; [exact Hne | apply Hdir; reflexivity].
Defined.

(** X5. For an entry of the project, reached from the working
    directory by the names [trail], [_resolve_pattern] of its absolute
    path is the way down from the working directory: every name behind
    a slash (without the first slash when the working directory is the
    root of the file system), and one more slash at the end unless the
    entry is a regular file. *)
Theorem resolve_pattern_of_project_entry
  (W : world) (trail : loc) (m : node) :
  Forall (fun c => Spec.plain_name c = true) (fs_cwd W) ->
  os_sep W = "/" ->
  Forall (fun c => Spec.plain_name c = true) trail ->
  trail <> [] ->
  FS.get (fs_root W) (fs_cwd W ++ trail) = Some m ->
  SrcPlugin._resolve_pattern W (Spec.path_of (fs_cwd W ++ trail))
  = match fs_cwd W with
    | [] => PyStr.join "/" trail
    | _ => Spec.slashed trail
    end
    +++ match m with Reg _ => "" | _ => "/" end.
Proof.
  intros Hcwd Hsep Hall Hne Hget.
  assert (Hfile : Os.isfile W (Spec.path_of (fs_cwd W ++ trail))
                  = match m with Reg _ => true | _ => false end).
  { unfold Os.isfile.
    rewrite (ShapeFacts.lookup_path_of W _ m);
      [reflexivity| | |exact Hget].
    - apply Forall_app. now split.
    - destruct (fs_cwd W); [exact Hne | discriminate]. }
  revert Hfile. rewrite (ShapeFacts.path_of_under _ _ Hne).
  change (Spec.path_of (fs_cwd W)) with (Os.getcwd W). intros Hfile.
  rewrite (PatternFacts.resolve_pattern_under_cwd_sep W "/"%char);
    [|exact Hsep | now apply ShapeFacts.under_nonempty].
  rewrite StrFacts.map_char_same, Hfile. now destruct m.
Qed.

Lemma resolve_pattern_of_project_entry_witness :
  SrcPlugin._resolve_pattern Demo.project "/proj/docs/sub" = "/docs/sub/"
  /\ SrcPlugin._resolve_pattern Demo.at_root "/docs/index.md"
     = "docs/index.md".
Proof.
  split.
  - apply (resolve_pattern_of_project_entry Demo.project ["docs"; "sub"]
             (Dir [("page.md", Reg "text")]));
      try reflexivity; try discriminate; repeat constructor.
  - apply (resolve_pattern_of_project_entry Demo.at_root ["docs"; "index.md"]
             (Reg "# Home"));
      try reflexivity; try discriminate; repeat constructor.
Defined.

(* ================================================================= *)
(** ** More on the configuration loader *)

(** X6. An error of an ancestor is the error of the whole load: when
    the [k]-th file of the inheritance chain raises while it is
    loaded on its own (it cannot be read, or its [INHERIT] is not a
    path), loading the first file raises the same exception, in both
    files of the plugin. *)
Theorem load_error_of_an_ancestor_propagates
  (W : world) (path a : string) (k fuel : nat) (e : exn) :
  Spec.chain_at W path k = Some a ->
  SrcPlugin._load_yaml W 1 a = Some (Raised e) ->
  k < fuel ->
  SrcPlugin._load_yaml W fuel path = Some (Raised e)
  /\ MaterialPlugin._yaml_load W fuel path = Some (Raised e).
Proof.
  intros Hc Ha Hlt.
  assert (H : SrcPlugin._load_yaml W fuel path = Some (Raised e))
    by exact (ChainFacts.load_error_up W k path a e fuel Hc Ha Hlt).
  split; [exact H|]. rewrite LoaderFacts.yaml_load_same. exact H.
Qed.

Lemma load_error_of_an_ancestor_propagates_witness :
  SrcPlugin._load_yaml Demo.inherits_folder 2 "/proj/mkdocs.yml"
  = Some (Raised IsADirectoryError)
  /\ MaterialPlugin._yaml_load Demo.inherits_folder 2 "/proj/mkdocs.yml"
     = Some (Raised IsADirectoryError).
Proof.
  apply (load_error_of_an_ancestor_propagates Demo.inherits_folder
           "/proj/mkdocs.yml" "/proj/base/parent.yml" 1 2 IsADirectoryError).
  - reflexivity.
  - reflexivity.
  - lia.
Defined.

(** X7. When every configuration file parses to a mapping (or to
    nothing), a load that returns gives one fragment per file of the
    inheritance chain, in the order of the chain: a single mapping
    when the first file has no parent to follow, a list otherwise;
    every fragment is a mapping, and the [INHERIT] of the [k]-th
    fragment is the path of the next file of the chain, as the loader
    resolved it. *)
Theorem load_returns_one_fragment_per_file
  (W : world) (fuel : nat) (path : string) (v : pyval) :
  (forall source, exists d, yaml_or_empty W source = PDict d) ->
  SrcPlugin._load_yaml W fuel path = Some (Ok v)
  \/ MaterialPlugin._yaml_load W fuel path = Some (Ok v) ->
  exists n,
    Spec.chain_at W path n <> None
    /\ Spec.chain_at W path (S n) = None
    /\ List.length (as_list v) = S n
    /\ match n with
       | O => exists d, v = PDict d
       | S _ => exists l, v = PList l
       end
    /\ Forall (fun f => exists d, f = PDict d) (as_list v)
    /\ forall k a,
         Spec.chain_at W path (S k) = Some a ->
         exists d,
           nth_error (as_list v) k = Some (PDict d)
           /\ Py.dict_get "INHERIT" d = Some (PStr a).
Proof.
  intros Hmap H. apply (ChainFacts.load_chain W Hmap fuel path v).
  destruct H as [H|H]; [exact H|].
  now rewrite <- LoaderFacts.yaml_load_same.
Qed.

Lemma load_returns_one_fragment_per_file_witness :
  exists n,
    Spec.chain_at Demo.project "/proj/mkdocs.yml" n <> None
    /\ Spec.chain_at Demo.project "/proj/mkdocs.yml" (S n) = None
    /\ List.length
         (as_list
            (PList
               [PDict [(PStr "site_name", PStr "demo");
                       (PStr "INHERIT", PStr "/proj/base/parent.yml")];
                PDict [(PStr "INHERIT", PStr "/proj/grand.yml")];
                PDict [(PStr "theme", PStr "material")]])) = S n.
Proof.
  destruct (load_returns_one_fragment_per_file Demo.project 3
              "/proj/mkdocs.yml"
              (PList
                 [PDict [(PStr "site_name", PStr "demo");
                         (PStr "INHERIT", PStr "/proj/base/parent.yml")];
                  PDict [(PStr "INHERIT", PStr "/proj/grand.yml")];
                  PDict [(PStr "theme", PStr "material")]]))
    as (n & H1 & H2 & H3 & _).
  - intros source. unfold yaml_or_empty. cbn [yaml_load Demo.project].
    unfold Demo.parser.
    repeat (destruct (String.eqb source _); [eexists; reflexivity|]).
    eexists; reflexivity.
  - left. reflexivity.
  - exists n. repeat split; assumption.
Defined.

(* ================================================================= *)
(** ** More on the walk and the archive *)

(** X8. The archive of [src/plugins] holds nothing but what it
    should: every entry is one of the two entries of metadata, or
    stands for a file that the walk from the working directory came
    to, through directories that were not excluded, and that was not
    excluded itself. *)
Theorem archive_entries_are_kept_files
  (W : world) (I : interpreter) (patterns : list string)
  (zip : list zip_entry) :
  SrcPlugin.create_archive W I patterns = Ok zip ->
  forall e,
    In e zip ->
    e = {| filename := PosixPath.join (example_name I) "requirements.lock.txt";
           data := PyStr.join newline (lock_lines I) |}
    \/ e = {| filename := PosixPath.join (example_name I) "platform.json";
              data := platform_json I |}
    \/ exists top,
         Os.lookup W (Os.getcwd W) = Some top
         /\ Spec.from_walk W patterns (example_name I) (Os.getcwd W) top e.
Proof.
  intros H e Hin.
  apply ArchiveFacts.src_archive_ends in H as [files [-> Hfiles]].
  apply SoundFacts.in_metadata in Hin as [Hin|[Heq|Heq]];
    [|subst e; now left|subst e; right; now left].
  right. right.
  destruct (Os.lookup W (Os.getcwd W)) as [top|]; [|now subst files].
  exists top. split; [reflexivity|].
  destruct (SoundFacts.walk_sound _ _ _ _ _ _ _ Hfiles e Hin) as [[]|Hw].
  exact Hw.
Qed.

Lemma archive_entries_are_kept_files_witness :
  Forall
    (fun e =>
       e = {| filename :=
                PosixPath.join (example_name Demo.python)
                  "requirements.lock.txt";
              data := PyStr.join newline (lock_lines Demo.python) |}
       \/ e = {| filename :=
                   PosixPath.join (example_name Demo.python) "platform.json";
                 data := platform_json Demo.python |}
       \/ exists top,
            Os.lookup Demo.at_root (Os.getcwd Demo.at_root) = Some top
            /\ Spec.from_walk Demo.at_root ["build/"]
                 (example_name Demo.python) (Os.getcwd Demo.at_root) top e)
    Demo.archive.
Proof.
  apply Forall_forall.
  apply (archive_entries_are_kept_files Demo.at_root Demo.python ["build/"]
           Demo.archive).
  vm_compute. reflexivity.
Defined.

(** X9. With the pattern [*] among the exclusion patterns, every
    entry of the working directory is excluded, files and directories
    alike, and the archive holds the two entries of metadata and
    nothing else. *)
Theorem star_pattern_excludes_everything
  (W : world) (I : interpreter) (patterns : list string) :
  In "*" patterns ->
  SrcPlugin.create_archive W I patterns
  = Ok (write_metadata I (example_name I) []).
Proof.
  intros Hstar. unfold SrcPlugin.create_archive.
  destruct (Os.lookup W (Os.getcwd W)) as [top|]; [|reflexivity].
  rewrite SoundFacts.walk_none; [reflexivity|].
  intros name. unfold Spec.kept. apply negb_false_iff.
  apply PatternFacts.is_excluded_true. exists "*".
  split; [assumption | apply SoundFacts.star_matches_all].
Qed.

Lemma star_pattern_excludes_everything_witness :
  SrcPlugin.create_archive Demo.at_root Demo.python ["build/"; "*"]
  = Ok (write_metadata Demo.python (example_name Demo.python) []).
Proof.
  apply (star_pattern_excludes_everything Demo.at_root Demo.python
           ["build/"; "*"]).
  right. left. reflexivity.
Defined.



(** X11. In a well-formed tree, every entry of the archive is named
    inside the folder of the example: its name starts with the name of
    the folder and a slash. *)
Theorem archive_names_are_inside_the_folder
  (W : world) (I : interpreter) (patterns : list string)
  (zip : list zip_entry) :
  Spec.wf_world W = true ->
  Spec.plain_name (example_name I) = true ->
  SrcPlugin.create_archive W I patterns = Ok zip ->
  Forall
    (fun e => PyStr.startswith (filename e) (example_name I +++ "/") = true)
    zip.
Proof.
  intros Hwf Hex H. apply Forall_forall. intros e Hin.
  destruct (SoundFacts.archive_entry_cases W I patterns zip H e Hin)
    as [Heq|[Heq|[top [Htop Hfrom]]]].
  - subst e. cbn [filename].
    rewrite ProgressFacts.join_under by (auto; reflexivity).
    apply ProgressFacts.startswith_folder.
  - subst e. cbn [filename].
    rewrite ProgressFacts.join_under by (auto; reflexivity).
    apply ProgressFacts.startswith_folder.
  - destruct Hfrom as (abs_root & es & name & m & Hwalked & Hn & Hd & _ & Ha).
    destruct (PathNames.walked_file_entry W patterns (example_name I) top
                abs_root es name m e Hwf Hex Htop Hwalked Hn Hd Ha)
      as (trail & content & _ & _ & ->).
    cbn [filename]. apply ProgressFacts.startswith_folder.
Qed.

Lemma archive_names_are_inside_the_folder_witness :
  Forall
    (fun e =>
       PyStr.startswith (filename e) (example_name Demo.python +++ "/") = true)
    Demo.archive.
Proof.
  apply (archive_names_are_inside_the_folder Demo.at_root Demo.python
           ["build/"] Demo.archive).
  - reflexivity.
  - reflexivity.
  - vm_compute. reflexivity.
Defined.

(** X12. More patterns never add to the archive: when every pattern
    of one list is in another, each entry of the archive made with the
    longer list is an entry of the archive made with the shorter
    one. *)
Theorem more_patterns_fewer_entries
  (W : world) (I : interpreter) (patterns patterns' : list string)
  (zip zip' : list zip_entry) :
  incl patterns patterns' ->
  SrcPlugin.create_archive W I patterns = Ok zip ->
  SrcPlugin.create_archive W I patterns' = Ok zip' ->
  incl zip' zip.
Proof.
  intros Hincl H H' e Hin.
  pose proof (ArchiveFacts.src_archive_ends W I patterns zip H)
    as [files [-> Hfiles]].
  destruct (SoundFacts.archive_entry_cases W I patterns' zip' H' e Hin)
    as [Heq|[Heq|[top [Htop Hfrom]]]].
  - subst e. unfold write_metadata, Zip.writestr.
    apply in_or_app. left. apply in_or_app. right. now left.
  - subst e. unfold write_metadata, Zip.writestr.
    apply in_or_app. right. now left.
  - rewrite Htop in Hfiles.
    destruct Hfrom as (abs_root & es & name & m & Hwalked & Hn & Hd & Hk & Ha).
    destruct (WalkFacts.walk_archives W patterns (example_name I)
                (Os.getcwd W) top abs_root es
                (SoundFacts.walked_incl W patterns patterns' _ _ _ _
                   Hincl Hwalked)
                name m [] files Hn Hd
                (SoundFacts.kept_incl W patterns patterns' _ _ Hincl Hk)
                Hfiles)
      as [e2 [Ha2 Hin2]].
    rewrite (SoundFacts.archived_one W _ _ e e2 Ha Ha2).
    now apply ArchiveFacts.metadata_keeps.
Qed.

Lemma more_patterns_fewer_entries_witness :
  incl Demo.archive
    [{| filename := "9.5.0-my-bug/mkdocs.yml"; data := "grand" |};
     {| filename := "9.5.0-my-bug/docs/index.md"; data := "# Home" |};
     {| filename := "9.5.0-my-bug/build/out.html"; data := "<html>" |};
     {| filename := "9.5.0-my-bug/requirements.lock.txt";
        data := PyStr.join newline
                  ["Markdown==3.5"; "jinja2==3.1"; "mkdocs==1.6.0"] |};
     {| filename := "9.5.0-my-bug/platform.json"; data := "{}" |}].
Proof.
  apply (more_patterns_fewer_entries Demo.at_root Demo.python [] ["build/"]).
  - intros x [].
  - vm_compute. reflexivity.
  - vm_compute. reflexivity.
Defined.

(** X13. The directories that [on_config] adds a pattern for are
    never bundled.  For the site directory and for each site-packages
    directory, when it lies inside the working directory, and for the
    site directory of each project when the projects plugin is
    enabled: if the pattern made from the path has no opening
    bracket, the entry with that path is excluded by the patterns
    that [on_config] puts together, whatever [info.gitignore] holds,
    and the walk gives the same archive whatever lies beneath it. *)
Theorem directories_with_a_pattern_are_pruned
  (W : world) (C : mkdocs_config) (I : interpreter)
  (gitignore path abs_root name : string) :
  (path = site_dir C /\ PyStr.startswith path (Os.getcwd W) = true)
  \/ (In path (sitepackages I) /\ PyStr.startswith path (Os.getcwd W) = true)
  \/ (projects_dir C <> None /\ In path (project_site_dirs C)) ->
  PosixPath.join abs_root name = path ->
  Spec.bracket_free (SrcPlugin._resolve_pattern W path) = true ->
  Spec.kept W (SrcPlugin.exclusion_patterns W C I gitignore) abs_root name
  = false
  /\ forall example es sub zip,
       SrcPlugin.walk W (SrcPlugin.exclusion_patterns W C I gitignore) example
         abs_root (Dir (Spec.with_contents name sub es)) zip
       = SrcPlugin.walk W (SrcPlugin.exclusion_patterns W C I gitignore)
           example abs_root (Dir es) zip.
Proof.
  intros Hadded Hpath Hfree.
  pose proof (SiteFacts.added_pattern_excludes W C I gitignore path abs_root
                name Hadded Hpath Hfree) as Hk.
  split; [exact Hk|]. intros example es sub zip.
  now apply WalkFacts.walk_ignores_pruned.
Qed.

Lemma directories_with_a_pattern_are_pruned_witness :
  Spec.kept Demo.project
    (SrcPlugin.exclusion_patterns Demo.project Demo.project_config
       Demo.python "*.pyc")
    "/proj" "site" = false
  /\ forall example es sub zip,
       SrcPlugin.walk Demo.project
         (SrcPlugin.exclusion_patterns Demo.project Demo.project_config
            Demo.python "*.pyc") example
         "/proj" (Dir (Spec.with_contents "site" sub es)) zip
       = SrcPlugin.walk Demo.project
           (SrcPlugin.exclusion_patterns Demo.project Demo.project_config
              Demo.python "*.pyc")
           example "/proj" (Dir es) zip.
Proof.
  apply (directories_with_a_pattern_are_pruned Demo.project
           Demo.project_config Demo.python "*.pyc" "/proj/site" "/proj"
           "site").
  - left. split; reflexivity.
  - reflexivity.
  - reflexivity.
Defined.



(** X25. A file of the project that is named like one of the two
    entries of metadata is shadowed by it.  When the working directory
    holds a regular file [platform.json] or [requirements.lock.txt]
    that is not excluded, the archive holds the entry of that file
    and the entry of metadata under one and the same name, and reading
    that name from the archive gives the metadata. *)
Theorem project_file_named_like_metadata_is_shadowed
  (W : world) (I : interpreter) (patterns : list string)
  (es : list (string * node)) (name content : string)
  (zip : list zip_entry) :
  Spec.wf_world W = true ->
  Spec.plain_name (example_name I) = true ->
  FS.get (fs_root W) (fs_cwd W) = Some (Dir es) ->
  In (name, Reg content) es ->
  name = "platform.json" \/ name = "requirements.lock.txt" ->
  Spec.kept W patterns (Os.getcwd W) name = true ->
  SrcPlugin.create_archive W I patterns = Ok zip ->
  In {| filename := example_name I +++ "/" +++ name; data := content |} zip
  /\ In {| filename := example_name I +++ "/" +++ name;
           data := if String.eqb name "platform.json"
                   then platform_json I
                   else PyStr.join newline (lock_lines I) |} zip
  /\ Zip.read (example_name I +++ "/" +++ name) zip
     = Some (if String.eqb name "platform.json"
             then platform_json I
             else PyStr.join newline (lock_lines I)).
Proof.
  intros Hwf Hex Hget Hin Hname Hkept H.
  assert (Htop : Os.lookup W (Os.getcwd W) = Some (Dir es))
    by now rewrite PathNames.lookup_cwd.
  apply ArchiveFacts.src_archive_ends in H as [files [-> Hfiles]].
  rewrite Htop in Hfiles.
  assert (Hwalked : Spec.walked W patterns (Os.getcwd W) (Dir es)
                      (Os.getcwd W) es) by constructor.
  destruct (WalkFacts.walk_archives W patterns (example_name I) _ _ _ _
              Hwalked name (Reg content) [] files Hin eq_refl Hkept Hfiles)
    as [e [Harchived Hine]].
  destruct Harchived as [rel [Hrel Hentry]].
  destruct (PathNames.wf_world_inv W Hwf) as [Hroot [Hcwd _]].
  assert (Hwfes : Spec.wf_node (Dir es) = true)
    by exact (PathNames.get_wf _ _ _ Hroot Hget).
  destruct (PathNames.wf_dir_inv es Hwfes) as [_ Hall].
  destruct (Hall name (Reg content) Hin) as [Hplain _].
  assert (Hnames : Forall (fun c => Spec.plain_name c = true) [name])
    by now constructor.
  change (Os.getcwd W) with (Spec.path_of (fs_cwd W)) in Hrel.
  rewrite PathNames.join_path_of in Hrel
    by auto using PathNames.plain_relative.
  rewrite (PathNames.relpath_under (fs_cwd W) [name]) in Hrel;
    [|assumption|assumption|discriminate].
  injection Hrel as <-.
  unfold Zip.entry_of, Os.read, Os.lookup in Hentry.
  assert (Hres : FS.resolve (fs_root W) (fs_cwd W) name
                 = Some (fs_cwd W ++ [name])).
  { apply (PathNames.resolve_relative (fs_root W) (fs_cwd W) [name]
             (Reg content)); [assumption|discriminate|].
    now apply (PathNames.get_child (fs_root W) (fs_cwd W) es). }
  rewrite Hres in Hentry.
  rewrite (PathNames.get_child (fs_root W) (fs_cwd W) es name (Reg content)
             Hwfes Hget Hin) in Hentry.
  cbn [bind] in Hentry. injection Hentry as <-.
  assert (Harc : Zip.arcname_of (PosixPath.join (example_name I) name)
                 = example_name I +++ "/" +++ name).
  { apply (PathNames.arcname_under (example_name I) [name]);
      [assumption|assumption|discriminate]. }
  rewrite Harc in Hine.
  split; [now apply ArchiveFacts.metadata_keeps|].
  destruct Hname as [-> | ->]; cbn [String.eqb Ascii.eqb Bool.eqb].
  - rewrite <- (ProgressFacts.join_under (example_name I) "platform.json")
      by (auto; reflexivity).
    split; [|apply ArchiveFacts.read_platform].
    unfold write_metadata, Zip.writestr. apply in_or_app. right. now left.
  - rewrite <- (ProgressFacts.join_under (example_name I)
                  "requirements.lock.txt") by (auto; reflexivity).
    split; [|apply ArchiveFacts.read_lock].
    unfold write_metadata, Zip.writestr.
    apply in_or_app. left. apply in_or_app. right. now left.
Qed.

Lemma project_file_named_like_metadata_is_shadowed_witness :
  In {| filename := "9.5.0-my-bug/platform.json"; data := "mine" |}
    [{| filename := "9.5.0-my-bug/mkdocs.yml"; data := "grand" |};
     {| filename := "9.5.0-my-bug/platform.json"; data := "mine" |};
     {| filename := "9.5.0-my-bug/requirements.lock.txt";
        data := PyStr.join newline
                  ["Markdown==3.5"; "jinja2==3.1"; "mkdocs==1.6.0"] |};
     {| filename := "9.5.0-my-bug/platform.json"; data := "{}" |}]
  /\ In {| filename := "9.5.0-my-bug/platform.json"; data := "{}" |}
       [{| filename := "9.5.0-my-bug/mkdocs.yml"; data := "grand" |};
        {| filename := "9.5.0-my-bug/platform.json"; data := "mine" |};
        {| filename := "9.5.0-my-bug/requirements.lock.txt";
           data := PyStr.join newline
                     ["Markdown==3.5"; "jinja2==3.1"; "mkdocs==1.6.0"] |};
        {| filename := "9.5.0-my-bug/platform.json"; data := "{}" |}]
  /\ Zip.read "9.5.0-my-bug/platform.json"
       [{| filename := "9.5.0-my-bug/mkdocs.yml"; data := "grand" |};
        {| filename := "9.5.0-my-bug/platform.json"; data := "mine" |};
        {| filename := "9.5.0-my-bug/requirements.lock.txt";
           data := PyStr.join newline
                     ["Markdown==3.5"; "jinja2==3.1"; "mkdocs==1.6.0"] |};
        {| filename := "9.5.0-my-bug/platform.json"; data := "{}" |}]
     = Some "{}".
Proof.
  apply (project_file_named_like_metadata_is_shadowed Demo.with_platform
           Demo.python []
           [("mkdocs.yml", Reg "grand"); ("platform.json", Reg "mine")]
           "platform.json" "mine").
  - reflexivity.
  - reflexivity.
  - reflexivity.
  - right. left. reflexivity.
  - left. reflexivity.
  - reflexivity.
  - vm_compute. reflexivity.
Defined.

(* ================================================================= *)
(** ** The course of [on_config] *)

(** X15. After [on_startup], [on_config] comes back to MkDocs only
    when the plugin is switched off: it returns at once, and logs
    nothing, when the plugin is disabled or when the command is
    [serve] and the plugin is not enabled for serving; in every other
    case it never returns, in either file: the process exits with
    status 1, or an exception goes up. *)
Theorem on_config_comes_back_only_when_switched_off
  (W : world) (options : plugin_config) (command : string)
  (C : mkdocs_config) (E : surroundings) (I : interpreter) (fuel : nat) :
  (enabled options = false
   \/ (enabled_on_serve options = false /\ command = "serve") ->
   SrcPlugin.on_config W (on_startup (__init__ options) command) C E I fuel
   = ([], Ends Returns)
   /\ MaterialPlugin.on_config W (on_startup (__init__ options) command)
        C E I fuel
      = ([], Ends Returns))
  /\ (enabled options = true ->
      enabled_on_serve options = true \/ command <> "serve" ->
      forall log o,
        SrcPlugin.on_config W (on_startup (__init__ options) command)
          C E I fuel = (log, o)
        \/ MaterialPlugin.on_config W (on_startup (__init__ options) command)
             C E I fuel = (log, o) ->
        o = Unfinished \/ o = Ends (Exits 1) \/ exists e, o = Ends (Raises e)).
Proof.
  split.
  - intros H. apply FlowFacts.switched_off_returns.
    unfold Spec.switched_off. cbn [on_startup __init__ config is_serve].
    destruct H as [->|[-> ->]]; [reflexivity|].
    cbn [negb andb]. rewrite String.eqb_refl. apply orb_true_r.
  - intros Hen Hserve log o H.
    assert (Hoff : Spec.switched_off (on_startup (__init__ options) command)
                   = false).
    { unfold Spec.switched_off. cbn [on_startup __init__ config is_serve].
      rewrite Hen. cbn [negb orb].
      destruct Hserve as [->|Hne]; [reflexivity|].
      apply andb_false_iff. right. now apply String.eqb_neq. }
    assert (Hstops : Spec.stops o).
    { destruct H as [H|H].
      - pose proof (FlowFacts.src_verdict W _ C E I fuel Hoff) as [Hs _].
        now rewrite H in Hs.
      - pose proof (FlowFacts.material_verdict W _ C E I fuel Hoff) as [Hs _].
        now rewrite H in Hs. }
    destruct o as [a|[|status|e]|]; cbn [Spec.stops] in Hstops.
    + contradiction.
    + contradiction.
    + subst status. right. now left.
    + right. right. now exists e.
    + now left.
Qed.

Lemma on_config_comes_back_only_when_switched_off_witness :
  SrcPlugin.on_config Demo.at_root (on_startup (__init__ Demo.options) "serve")
    Demo.root_config Demo.up_to_date Demo.python 1
  = ([], Ends Returns)
  /\ MaterialPlugin.on_config Demo.at_root
       (on_startup (__init__ Demo.options) "serve")
       Demo.root_config Demo.up_to_date Demo.python 1
     = ([], Ends Returns).
Proof.
  apply (proj1 (on_config_comes_back_only_when_switched_off Demo.at_root
                  Demo.options "serve" Demo.root_config Demo.up_to_date
                  Demo.python 1)).
  right. split; reflexivity.
Defined.



(** X17. An archive is saved exactly when it is asked for.  In either
    file, a run that writes an archive to disk has [archive] set,
    names the file after the example, and exits; and when violations
    do not stop the run and no [root_dir] is set, every run that ends
    by an exit with [archive] set has written one. *)
Theorem archive_is_saved_when_asked_for
  (W : world) (self : plugin) (C : mkdocs_config) (E : surroundings)
  (I : interpreter) (fuel : nat) (log : list event) (o : outcome unit) :
  SrcPlugin.on_config W self C E I fuel = (log, o)
  \/ MaterialPlugin.on_config W self C E I fuel = (log, o) ->
  (forall name zip,
     In (Saved name zip) log ->
     archive (config self) = true
     /\ name = example_name I +++ ".zip"
     /\ o = Ends (Exits 1))
  /\ (archive_stop_on_violation (config self) = false ->
      root_dir (config self) = "" ->
      archive (config self) = true ->
      forall status,
        o = Ends (Exits status) ->
        exists zip, In (Saved (example_name I +++ ".zip") zip) log).
Proof.
  intros H.
  destruct (Spec.switched_off self) eqn:Hoff.
  - destruct (FlowFacts.switched_off_returns W self C E I fuel Hoff)
      as [Ha Hb].
    assert (Hrun : (log, o) = ([], Ends Returns))
      by (destruct H as [H|H]; congruence).
    injection Hrun as -> ->. split.
    + intros name zip [].
    + intros _ _ _ status Hs. discriminate Hs.
  - assert (Hv : Spec.verdict self I (log, o)).
    { destruct H as [H|H]; rewrite <- H;
        [apply FlowFacts.src_verdict | apply FlowFacts.material_verdict];
        exact Hoff. }
    destruct Hv as (_ & H2 & _ & H4). cbn [fst snd] in *.
    split; [exact H2|].
    intros Hstop Hroot Harch status Ho.
    exact (H4 Hstop Hroot status Ho Harch).
Qed.

Lemma archive_is_saved_when_asked_for_witness :
  exists zip,
    In (Saved (example_name Demo.python +++ ".zip") zip)
      (fst (MaterialPlugin.on_config Demo.project
              {| config := {| enabled := true; enabled_on_serve := false;
                              archive := true;
                              archive_stop_on_violation := false;
                              root_dir := "" |};
                 is_serve := false |}
              Demo.outside_config Demo.up_to_date Demo.python 3)).
Proof.
  destruct (archive_is_saved_when_asked_for Demo.project
              {| config := {| enabled := true; enabled_on_serve := false;
                              archive := true;
                              archive_stop_on_violation := false;
                              root_dir := "" |};
                 is_serve := false |}
              Demo.outside_config Demo.up_to_date Demo.python 3
              (fst (MaterialPlugin.on_config Demo.project
                      {| config := {| enabled := true;
                                      enabled_on_serve := false;
                                      archive := true;
                                      archive_stop_on_violation := false;
                                      root_dir := "" |};
                         is_serve := false |}
                      Demo.outside_config Demo.up_to_date Demo.python 3))
              (Ends (Exits 1)))
    as [_ H].
  - right. vm_compute. reflexivity.
  - apply (H eq_refl eq_refl eq_refl 1%Z). reflexivity.
Defined.

(** X18. What a saved archive tells, in [src/plugins]: the archive
    that [on_config] writes to disk is the one made by the walk of the
    working directory under the patterns loaded from [info.gitignore]
    and extended for the site directories; the configuration chain
    was loaded and validated, and the latest release was looked up;
    and when violations stop the run, no path was reported, the
    installed version starts with the latest one, the directory of the
    theme comes first in the theme directories, and there are no
    hooks. *)
Theorem saved_archive_passed_every_check
  (W : world) (self : plugin) (C : mkdocs_config) (E : surroundings)
  (I : interpreter) (fuel : nat) (log : list event) (o : outcome unit)
  (name : string) (zip : list zip_entry) :
  SrcPlugin.on_config W self C E I fuel = (log, o) ->
  In (Saved name zip) log ->
  SrcPlugin.create_archive W I
    (SrcPlugin.exclusion_patterns W C I (gitignore E)) = Ok zip
  /\ exists bad current,
       SrcPlugin.paths_not_in_cwd W C fuel = Some (Ok bad)
       /\ latest_release E = Ok current
       /\ (archive_stop_on_violation (config self) = true ->
           bad = []
           /\ PyStr.startswith (present I) current = true
           /\ Py.index (theme_dir E) (theme_dirs E) = Ok 0
           /\ hooks E = []).
Proof.
  unfold SrcPlugin.on_config, SrcPlugin.paths_not_in_cwd. intros H Hin.
  destruct (negb (enabled (config self)));
    [injection H as <- <-; destruct Hin|].
  destruct (negb (enabled_on_serve (config self)) && is_serve self);
    [injection H as <- <-; destruct Hin|].
  apply (FlowFacts.load_first _ _ _ _ _ H) in Hin as Hl.
  destruct Hl as (loaded & -> & H1). clear H.
  apply (FlowFacts.bind_first _ _ _ _ _ H1) in Hin as Hc.
  destruct Hc as (paths & Hpaths & H2). clear H1.
  apply (FlowFacts.bind_first _ _ _ _ _ H2) in Hin as Hv.
  destruct Hv as (bad & Hbad & H3). clear H2.
  cbn [bind]. rewrite Hpaths. cbn [bind]. rewrite Hbad.
  assert (H4 : and_then
                 (if match bad with [] => true | _ => false end
                  then pure tt
                  else emit (LogError
                         "One or more paths aren't children of root") ;;;
                       emit (Help (OnNotInCwd bad)) ;;;
                       exit_unless_told_not_to self)
                 (fun _ => checks_before_archive self E I ;;;
                           save_and_exit E I
                             (SrcPlugin.bundle W C I (gitignore E)))
               = (log, o)).
  { rewrite <- H3. now destruct bad. }
  destruct (FlowFacts.complaint_first _ _ _ _ _ _ _ _ _ H4 Hin)
    as (Hsilent & l2 & H5 & Hin2).
  destruct (FlowFacts.save_last _ _ _ _ _ _ _ _ H5 Hin2)
    as (Hzip & l1 & Hchecks).
  split; [exact Hzip|].
  destruct (FlowFacts.checks_passed _ _ _ _ Hchecks)
    as (_ & current & Hcur & Hstop).
  exists bad, current. split; [reflexivity|]. split; [exact Hcur|].
  intros Hs. split; [|now apply Hstop].
  specialize (Hsilent Hs). now destruct bad.
Qed.

Lemma saved_archive_passed_every_check_witness :
  SrcPlugin.create_archive Demo.at_root Demo.python
    (SrcPlugin.exclusion_patterns Demo.at_root Demo.root_config Demo.python
       (gitignore Demo.up_to_date))
  = Ok Demo.archive
  /\ exists bad current,
       SrcPlugin.paths_not_in_cwd Demo.at_root Demo.root_config 1
       = Some (Ok bad)
       /\ latest_release Demo.up_to_date = Ok current
       /\ (archive_stop_on_violation (config Demo.building) = true ->
           bad = []
           /\ PyStr.startswith (present Demo.python) current = true
           /\ Py.index (theme_dir Demo.up_to_date) (theme_dirs Demo.up_to_date)
              = Ok 0
           /\ hooks Demo.up_to_date = []).
Proof.
  apply (saved_archive_passed_every_check Demo.at_root Demo.building
           Demo.root_config Demo.up_to_date Demo.python 1
           (Spec.plain_run Demo.python Demo.archive) (Ends (Exits 1))
           "9.5.0-my-bug.zip" Demo.archive).
  - vm_compute. reflexivity.
  - right. left. reflexivity.
Defined.

(** X20. [_change_cwd] with an absolute [root_dir]: the path that is
    tested is the path that is changed to.  When nothing is found
    there, the error is logged and the process exits with status 1,
    whatever [archive_stop_on_violation] says; when it is a
    directory, it becomes the working directory; when it is
    something else, [os.chdir] raises an [OSError] that is not
    [FileNotFoundError]. *)
Theorem change_cwd_to_an_absolute_root_dir
  (W : world) (self : plugin) (config_dir : string) :
  PosixPath.isabs (root_dir (config self)) = true ->
  MaterialPlugin._change_cwd W self config_dir
  = match Spec.file_of W (root_dir (config self)) with
    | Some l =>
        match FS.get (fs_root W) l with
        | Some (Dir _) =>
            ([], Goes {| fs_root := fs_root W; fs_cwd := l;
                         os_sep := os_sep W; yaml_load := yaml_load W |})
        | Some (Reg _) | Some (Other true) => ([], Ends (Raises OSError))
        | Some (Other false) | None =>
            ([LogError ("`root_dir`: " +++ root_dir (config self)
                        +++ " doesn't exist")],
             Ends (Exits 1))
        end
    | None =>
        ([LogError ("`root_dir`: " +++ root_dir (config self)
                    +++ " doesn't exist")],
         Ends (Exits 1))
    end.
Proof.
  intros Habs. unfold MaterialPlugin._change_cwd. rewrite Habs.
  unfold Os.path_exists, Os.lookup, Spec.file_of.
  destruct (FS.resolve (fs_root W) (fs_cwd W) (root_dir (config self)))
    as [l|] eqn:R; [|reflexivity].
  rewrite (CwdFacts.chdir_lookup W _ l R).
  destruct (FS.get (fs_root W) l) as [[content|[|]|es]|]; reflexivity.
Qed.

Lemma change_cwd_to_an_absolute_root_dir_witness :
  MaterialPlugin._change_cwd Demo.project
    {| config := {| enabled := true; enabled_on_serve := false;
                    archive := true; archive_stop_on_violation := false;
                    root_dir := "/proj/docs" |};
       is_serve := false |} "/proj"
  = ([], Goes {| fs_root := fs_root Demo.project; fs_cwd := ["proj"; "docs"];
                 os_sep := "/"; yaml_load := Demo.parser |}).
Proof.
  apply (change_cwd_to_an_absolute_root_dir Demo.project
           {| config := {| enabled := true; enabled_on_serve := false;
                           archive := true; archive_stop_on_violation := false;
                           root_dir := "/proj/docs" |};
              is_serve := false |} "/proj").
  reflexivity.
Defined.

(** X21. A relative path of the configuration file divides the two
    files of the plugin.  [src/plugins] resolves it against the
    working directory, so a configuration file inside the project is
    inside the working directory for the validation;
    [material/plugins], with no [root_dir] set, takes the directory of
    the path as it stands and always complains that MkDocs is not run
    from the project root, and exits there when violations stop the
    run. *)
Theorem relative_config_path_divides_the_plugins
  (W : world) (self : plugin) (C : mkdocs_config) (E : surroundings)
  (I : interpreter) (fuel : nat) (names : list string) :
  Spec.switched_off self = false ->
  Forall (fun c => Spec.plain_name c = true) (fs_cwd W) ->
  Forall (fun c => Spec.plain_name c = true) names ->
  names <> [] ->
  config_file_path C = PyStr.join "/" names ->
  (SrcPlugin.absolute_config_path W C = Spec.path_of (fs_cwd W ++ names)
   /\ PyStr.startswith (SrcPlugin.absolute_config_path W C) (Os.getcwd W)
      = true)
  /\ (root_dir (config self) = "" ->
      exists rest o,
        MaterialPlugin.on_config W self C E I fuel
        = (LogError "Please run `mkdocs build` from the actual project root"
           :: Help (OnBadCwd (PosixPath.dirname (config_file_path C)))
           :: rest, o)
        /\ (archive_stop_on_violation (config self) = true ->
            rest = [] /\ o = Ends (Exits 1))).
Proof.
  intros Hoff Hcwd Hnames Hne Hpath. split.
  - rewrite (CwdFacts.absolute_config_path_inside W C names Hcwd Hnames Hne
               Hpath).
    split; [reflexivity | apply CwdFacts.inside_startswith].
  - intros Hroot.
    assert (Hrel : PosixPath.isabs (config_file_path C) = false).
    { rewrite Hpath. destruct names as [|c cs]; [contradiction|].
      now apply PathNames.join_relative, PathNames.plain_is_component. }
    unfold Spec.switched_off in Hoff.
    apply orb_false_iff in Hoff as [H1 H2].
    unfold MaterialPlugin.on_config. rewrite H1, H2, Hroot.
    rewrite (CwdFacts.relative_outside W _
               (CwdFacts.dirname_relative _ Hrel)).
    cbn [PyStr.nonempty negb andb].
    unfold MaterialPlugin._help_on_bad_cwd, exit_unless_told_not_to.
    destruct (archive_stop_on_violation (config self)).
    + exists [], (Ends (Exits 1)). now split.
    + cbn [and_then emit pure app].
      match goal with
      | |- context [let (log', o) := ?run in _] =>
          destruct run as [l2 o2]
      end.
      exists l2, o2. split; [reflexivity | discriminate].
Qed.

Lemma relative_config_path_divides_the_plugins_witness :
  (SrcPlugin.absolute_config_path Demo.at_root Demo.root_config
   = Spec.path_of (fs_cwd Demo.at_root ++ ["mkdocs.yml"])
   /\ PyStr.startswith
        (SrcPlugin.absolute_config_path Demo.at_root Demo.root_config)
        (Os.getcwd Demo.at_root) = true)
  /\ (root_dir (config Demo.building) = "" ->
      exists rest o,
        MaterialPlugin.on_config Demo.at_root Demo.building Demo.root_config
          Demo.up_to_date Demo.python 1
        = (LogError "Please run `mkdocs build` from the actual project root"
           :: Help (OnBadCwd
                      (PosixPath.dirname (config_file_path Demo.root_config)))
           :: rest, o)
        /\ (archive_stop_on_violation (config Demo.building) = true ->
            rest = [] /\ o = Ends (Exits 1))).
Proof.
  apply (relative_config_path_divides_the_plugins Demo.at_root Demo.building
           Demo.root_config Demo.up_to_date Demo.python 1 ["mkdocs.yml"]).
  - reflexivity.
  - constructor.
  - repeat constructor.
  - discriminate.
  - reflexivity.
Defined.

(** X22. The help page of [material/plugins] on invalid paths lists
    every reported path once, under one of two headings, and the
    headings are right: a path listed as one that the working
    directory is not a parent of exists and does not start with the
    working directory; a path listed as missing does not exist. *)
Theorem bad_paths_are_listed_under_the_right_heading
  (W : world) (self : plugin) (paths : list string) :
  exists existing not_existing o,
    MaterialPlugin._help_on_bad_paths W self
      (MaterialPlugin.validate_paths W paths)
    = ([Help (OnBadPaths existing not_existing)], o)
    /\ Forall
         (fun p => In p paths
                   /\ Os.path_exists W p = true
                   /\ PyStr.startswith p (Os.getcwd W) = false)
         existing
    /\ Forall (fun p => In p paths /\ Os.path_exists W p = false) not_existing
    /\ Permutation (existing ++ not_existing)
         (MaterialPlugin.validate_paths W paths).
Proof.
  unfold MaterialPlugin._help_on_bad_paths, exit_unless_told_not_to.
  rewrite ValidateFacts.material_validate_paths.
  exists (filter (Os.path_exists W) (filter (Spec.invalid W) paths)),
    (filter (fun x => negb (Os.path_exists W x))
       (filter (Spec.invalid W) paths)).
  exists (if archive_stop_on_violation (config self)
          then Ends (Exits 1) else Goes tt).
  split.
  { destruct (archive_stop_on_violation (config self)); reflexivity. }
  split; [|split].
  - apply Forall_forall. intros p Hp.
    apply filter_In in Hp as [Hp Hex].
    apply filter_In in Hp as [Hp Hinv].
    apply ValidateFacts.invalid_true in Hinv as [Hout|Hno]; [|congruence].
    auto.
  - apply Forall_forall. intros p Hp.
    apply filter_In in Hp as [Hp Hex].
    apply filter_In in Hp as [Hp _].
    split; [assumption | now apply negb_true_iff].
  - apply CwdFacts.partition_permutation.
Qed.

(** X23. The paths of the Markdown extensions that [material/plugins]
    reports are sound: every reported entry names an extension of the
    configuration and one of the three known options, carries the
    absolute form of a path given under that option, and that path
    lies outside the working directory or does not exist. *)
Theorem reported_extension_paths_are_invalid
  (W : world) (mdx : list (string * list (pyval * pyval)))
  (invalid : list (string * string * string)) :
  MaterialPlugin.check_extensions W mdx = Ok invalid ->
  Forall
    (fun x =>
       PosixPath.isabs (snd x) = true
       /\ In (snd (fst x)) ["base_path"; "auto_append"; "relative_path"]
       /\ (PyStr.startswith (snd x) (Os.getcwd W) = false
           \/ Os.path_exists W (snd x) = false)
       /\ exists cfg paths path,
            In (fst (fst x), cfg) mdx
            /\ Py.dict_get (snd (fst x)) cfg = Some paths
            /\ In (PStr path) (as_list paths)
            /\ snd x = PosixPath.abspath (Os.getcwd W) path)
    invalid.
Proof.
  apply CwdFacts.check_extensions_invariant.
  intros ext option cfg path Hext Hopt [paths [Hget Hin]] Hbad.
  cbn [fst snd]. split; [apply CwdFacts.abspath_absolute|].
  split; [exact Hopt|]. split; [exact Hbad|].
  now exists cfg, paths, path.
Qed.

Lemma reported_extension_paths_are_invalid_witness :
  Forall
    (fun x =>
       PosixPath.isabs (snd x) = true
       /\ In (snd (fst x)) ["base_path"; "auto_append"; "relative_path"]
       /\ (PyStr.startswith (snd x) (Os.getcwd Demo.project) = false
           \/ Os.path_exists Demo.project (snd x) = false)
       /\ exists cfg paths path,
            In (fst (fst x), cfg) Demo.with_snippets
            /\ Py.dict_get (snd (fst x)) cfg = Some paths
            /\ In (PStr path) (as_list paths)
            /\ snd x = PosixPath.abspath (Os.getcwd Demo.project) path)
    [("pymdownx.snippets", "base_path", "/other")].
Proof.
  apply (reported_extension_paths_are_invalid Demo.project Demo.with_snippets).
  reflexivity.
Defined.

(** X26. No complaint without a cause, in [src/plugins]: every help
    page that [on_config] prints is one of three, and each comes with
    its cause.  The page on paths lists exactly the paths that the
    validation of the loaded configuration chain reports, and there
    is at least one; the page on versions names the installed version
    and the latest release, and the first does not start with the
    second; the page on customizations is printed only when the
    directory of the theme does not come first or there are hooks. *)
Theorem no_complaint_without_a_cause
  (W : world) (self : plugin) (C : mkdocs_config) (E : surroundings)
  (I : interpreter) (fuel : nat) (page : help) :
  In (Help page) (fst (SrcPlugin.on_config W self C E I fuel)) ->
  (exists bad,
     page = OnNotInCwd bad
     /\ bad <> []
     /\ SrcPlugin.paths_not_in_cwd W C fuel = Some (Ok bad))
  \/ (exists need,
        page = OnVersions (present I) need
        /\ latest_release E = Ok need
        /\ PyStr.startswith (present I) need = false)
  \/ (page = OnCustomizations
      /\ (Py.index (theme_dir E) (theme_dirs E) <> Ok 0 \/ hooks E <> [])).
Proof.
  unfold SrcPlugin.on_config, SrcPlugin.paths_not_in_cwd.
  destruct (negb (enabled (config self))); [intros []|].
  destruct (negb (enabled_on_serve (config self)) && is_serve self);
    [intros []|].
  intros H.
  apply FlowFacts.loading_in in H as (loaded & -> & H).
  apply FlowFacts.raising_in in H as (paths & Hpaths & H).
  apply FlowFacts.raising_in in H as (bad & Hbad & H).
  cbn [bind]. rewrite Hpaths. cbn [bind]. rewrite Hbad.
  apply FlowFacts.and_then_in in H as [H|[[] [_ H]]].
  - left. exists bad.
    destruct bad as [|path bad]; [destruct H|].
    unfold SrcPlugin._help_on_not_in_cwd, exit_unless_told_not_to in H.
    assert (Hpage : page = OnNotInCwd (path :: bad)).
    { destruct (archive_stop_on_violation (config self)); cbn in H;
        destruct H as [H|[H|[]]]; try discriminate H; now injection H. }
    split; [exact Hpage|]. split; [discriminate | reflexivity].
  - right.
    apply FlowFacts.and_then_in in H as [H|[[] [_ H]]].
    + now apply (FlowFacts.checks_helps self E I page).
    + now apply FlowFacts.save_and_exit_helps in H.
Qed.

Lemma no_complaint_without_a_cause_witness :
  (exists bad,
     OnNotInCwd ["/other/docs"; "/other/docs"] = OnNotInCwd bad
     /\ bad <> []
     /\ SrcPlugin.paths_not_in_cwd Demo.project Demo.outside_config 3
        = Some (Ok bad))
  \/ (exists need,
        OnNotInCwd ["/other/docs"; "/other/docs"]
        = OnVersions (present Demo.python) need
        /\ latest_release Demo.up_to_date = Ok need
        /\ PyStr.startswith (present Demo.python) need = false)
  \/ (OnNotInCwd ["/other/docs"; "/other/docs"] = OnCustomizations
      /\ (Py.index (theme_dir Demo.up_to_date) (theme_dirs Demo.up_to_date)
          <> Ok 0
          \/ hooks Demo.up_to_date <> [])).
Proof.
  apply (no_complaint_without_a_cause Demo.project Demo.building
           Demo.outside_config Demo.up_to_date Demo.python 3).
  right. left. reflexivity.
Defined.

(* ================================================================= *)
(** ** More on the validation of the paths *)

(** X24. The test against the working directory is a test on the
    characters of the path, not on its components: a path that
    continues the string of the working directory in any way, such as
    a directory beside it whose name starts with the same letters, is
    never reported by [src/plugins], and is reported by
    [material/plugins] exactly when it is to be validated and does not
    exist. *)
Theorem paths_continuing_the_cwd_string_pass
  (W : world) (suffix : string) (paths : list string) :
  (exists reported,
     SrcPlugin.validate_paths W paths = Ok reported
     /\ ~ In (Os.getcwd W +++ suffix) reported)
  /\ (In (Os.getcwd W +++ suffix) (MaterialPlugin.validate_paths W paths) <->
      In (Os.getcwd W +++ suffix) paths
      /\ Os.path_exists W (Os.getcwd W +++ suffix) = false).
Proof.
  pose proof (StrFacts.startswith_append (Os.getcwd W) suffix) as Hin.
  split.
  - exists (filter (Spec.stays (Os.getcwd W)) paths).
    split; [apply ValidateFacts.src_validate_paths|].
    intros H. apply filter_In in H as [_ H].
    apply ValidateFacts.stays_true in H as [_ H]. congruence.
  - rewrite ValidateFacts.material_validate_paths, filter_In,
      ValidateFacts.invalid_true.
    split.
    + intros [Hp [H|H]]; [congruence | now split].
    + intros [Hp H]. split; [assumption | now right].
Qed.
